(** * A model of the document crawler ([crawler/crawler.py])

    The crawler walks a storage tree, extracts plain text from every
    supported document (also from documents packed in archives), drops
    files whose MD5 digest was already seen, and stores the resulting
    records in a CSV file and in a SQLite database with a full-text
    table.

    The development follows the Python source function by function and
    keeps its names.  What the source gets from its libraries and from
    the operating system is made explicit:

    - a Python [str] holding document text is a list of code points
      ([pystr]); paths and extensions are POSIX byte strings ([string]),
      which Python decodes as UTF-8 and holds, byte by byte, as lone
      surrogates where they are no UTF-8;
    - an exception is a value of [exn]; a call that may raise returns a
      [result];
    - a file of the storage tree is a [file]: its name, its bytes, what
      the document and archive libraries see in it ([format],
      [members]), and the operations on it that fail with [OSError]
      ([faults]); every read of a file sees the same bytes;
    - [os.walk(root)] is the list of [(dirpath, files)] it yields;
    - the calendar is not computed: a file carries what
      [datetime.fromtimestamp] makes of its modification time, the
      rendered local time or the exception ([timestamp]);
    - [hashlib.md5], the three codecs, [os.path.join] and
      [pathlib.Path.suffix] (as in CPython 3.9 to 3.13) are written
      out;
    - creating and removing the temporary directory of an archive,
      creating the output files and the statements sent to SQLite do
      not fail, and the limits of the interpreter (recursion depth,
      memory) are not reached; what is left on disk by a run that ends
      with an exception, and logging, are not modelled. *)

From Stdlib Require Import ZArith NArith List String Ascii Lia.
From Stdlib.Strings Require Import Byte.
From stdpp Require Import gmap strings list fin_maps.

#[local] Set Warnings "-register-all,-abstract-large-number,-clear-no-such-hyp".
#[local] Open Scope string_scope.

(** ** Python values *)

(** A [str] of document text: the sequence of its Unicode code points. *)
Definition pystr : Type := list N.

(** The [str] literal with the given ASCII characters. *)
Definition u (s : string) : pystr :=
  map N_of_ascii (list_ascii_of_string s).

(** The exceptions met in the crawler, each by the class that is
    raised; no handler of the source tells two of them apart by the
    subclass relation of Python. *)
Inductive exn : Type :=
| OSError              (* also FileNotFoundError, PermissionError *)
| UnicodeDecodeError
| UnicodeEncodeError
| ValueError
| OverflowError
| BadArchive           (* zipfile.BadZipFile, py7zr.Bad7zFile *)
| LibraryError.        (* any other Exception raised inside a decoder *)

Inductive result (A : Type) : Type :=
| Ok (a : A)
| Raise (e : exn).
Arguments Ok {A} a.
Arguments Raise {A} e.

#[export] Instance result_ret : MRet result := fun A a => Ok a.
#[export] Instance result_bind : MBind result := fun A B k r =>
  match r with
  | Ok a => k a
  | Raise e => Raise e
  end.
#[export] Instance result_fmap : FMap result := fun A B g r =>
  match r with
  | Ok a => Ok (g a)
  | Raise e => Raise e
  end.

(** [for a in l: s = step a s], where [step] may raise. *)
Definition for_each {A S} (step : A -> S -> result S) : list A -> S -> result S :=
  fix go l s :=
    match l with
    | [] => Ok s
    | a :: l' =>
        match step a s with
        | Ok s' => go l' s'
        | Raise e => Raise e
        end
    end.

(** ** [str] methods used on document text *)
Module Str.

(** [str.isspace] on one code point (the set [str.strip] removes). *)
Definition isspace (c : N) : bool :=
  ((9 <=? c) && (c <=? 13) || (28 <=? c) && (c <=? 32)
   || (c =? 133) || (c =? 160) || (c =? 5760)
   || (8192 <=? c) && (c <=? 8202)
   || (c =? 8232) || (c =? 8233) || (c =? 8239) || (c =? 8287)
   || (c =? 12288))%N.

Fixpoint lstrip (s : pystr) : pystr :=
  match s with
  | c :: s' => if isspace c then lstrip s' else s
  | [] => []
  end.

Definition rstrip (s : pystr) : pystr := rev (lstrip (rev s)).

(** [s.strip()] *)
Definition strip (s : pystr) : pystr := rstrip (lstrip s).

(** [sep.join(parts)] *)
Fixpoint join (sep : pystr) (parts : list pystr) : pystr :=
  match parts with
  | [] => []
  | [p] => p
  | p :: ps => (p ++ sep ++ join sep ps)%list
  end.

(** The line feed ["\n"]. *)
Definition nl : pystr := [10%N].

(** Truth value of a [str]: it is not empty. *)
Definition truthy (s : pystr) : bool :=
  match s with [] => false | _ => true end.

End Str.

(** ** Paths: [os.path.join], [pathlib.Path(p).suffix], [str.lower] *)
Module Path.

Definition sep : ascii := "/"%char.
Definition dot : ascii := "."%char.

Definition startswith (c : ascii) (s : string) : bool :=
  match s with
  | String c' _ => bool_decide (c' = c)
  | EmptyString => false
  end.

Fixpoint endswith (c : ascii) (s : string) : bool :=
  match s with
  | EmptyString => false
  | String c' EmptyString => bool_decide (c' = c)
  | String _ s' => endswith c s'
  end.

(** [os.path.join(a, p)] of [posixpath], for one component [p]. *)
Definition join (a p : string) : string :=
  if startswith sep p then p
  else if bool_decide (a = "") || endswith sep a then a ++ p
  else a ++ String sep p.

(** [s.split("/")] *)
Fixpoint split (s : string) : list string :=
  match s with
  | EmptyString => [""]
  | String c s' =>
      if bool_decide (c = sep) then "" :: split s'
      else match split s' with
           | h :: t => String c h :: t
           | [] => [String c ""]
           end
  end.

(** The components [pathlib] keeps: empty ones and ["."] are dropped. *)
Definition parts (p : string) : list string :=
  filter (fun x => x <> "" /\ x <> ".") (split p).

(** [Path(p).name]: the last component, [""] when there is none. *)
Definition name (p : string) : string := List.last (parts p) "".

(** [s.rfind(".")] as the index of the last dot, if any. *)
Fixpoint rfind_dot (s : string) : option nat :=
  match s with
  | EmptyString => None
  | String c s' =>
      match rfind_dot s' with
      | Some i => Some (S i)
      | None => if bool_decide (c = dot) then Some 0 else None
      end
  end.

(** [Path(p).suffix] (Python 3.9 to 3.13): with [i = name.rfind(".")],
    it is [name[i:]] when [0 < i < len(name) - 1] and [""] otherwise. *)
Definition suffix (p : string) : string :=
  let n := name p in
  match rfind_dot n with
  | Some i =>
      if bool_decide (0 < i < String.length n - 1)
      then substring i (String.length n - i) n
      else ""
  | None => ""
  end.

(** [c.lower()] on one character.  Only ASCII letters change: the
    registered extensions are ASCII, and no other character lowers to
    one of their letters. *)
Definition lower_ascii (c : ascii) : ascii :=
  let n := nat_of_ascii c in
  if bool_decide (65 <= n <= 90) then ascii_of_nat (n + 32) else c.

Fixpoint lower (s : string) : string :=
  match s with
  | EmptyString => EmptyString
  | String c s' => String (lower_ascii c) (lower s')
  end.

(** [s.lstrip(".")] *)
Fixpoint lstrip_dot (s : string) : string :=
  match s with
  | String c s' => if bool_decide (c = dot) then lstrip_dot s' else s
  | EmptyString => EmptyString
  end.

End Path.

(** ** Codecs: [bytes.decode] for the three encodings of [parse_txt] *)
Module Codecs.

Inductive encoding : Type := utf_8 | cp1251 | latin_1.

Definition cont (b : N) : bool := ((128 <=? b) && (b <=? 191))%N.
Definition low6 (b : N) : N := (b - 128)%N.

(** Strict UTF-8: no overlong forms, no surrogates, nothing above
    U+10FFFF; [None] stands for [UnicodeDecodeError]. *)
Fixpoint utf8 (bs : list N) : option pystr :=
  match bs with
  | [] => Some []
  | b0 :: r1 =>
      if (b0 <? 128)%N then cons b0 <$> utf8 r1
      else match r1 with
      | [] => None
      | b1 :: r2 =>
          if ((194 <=? b0) && (b0 <=? 223) && cont b1)%N
          then cons ((b0 - 192) * 64 + low6 b1)%N <$> utf8 r2
          else match r2 with
          | [] => None
          | b2 :: r3 =>
              if ((224 <=? b0) && (b0 <=? 239) && cont b1 && cont b2
                  && negb ((b0 =? 224) && (b1 <? 160))
                  && negb ((b0 =? 237) && (160 <=? b1)))%N
              then cons ((b0 - 224) * 4096 + low6 b1 * 64 + low6 b2)%N <$> utf8 r3
              else match r3 with
              | [] => None
              | b3 :: r4 =>
                  if ((240 <=? b0) && (b0 <=? 244) && cont b1 && cont b2 && cont b3
                      && negb ((b0 =? 240) && (b1 <? 144))
                      && negb ((b0 =? 244) && (144 <=? b1)))%N
                  then cons ((b0 - 240) * 262144 + low6 b1 * 4096
                             + low6 b2 * 64 + low6 b3)%N <$> utf8 r4
                  else None
              end
          end
      end
  end.

(** Windows-1251, bytes 0x80 to 0xFF; byte 0x98 is not assigned. *)
Definition cp1251_high : list (option N) :=
  map Some [1026; 1027; 8218; 1107; 8222; 8230; 8224; 8225;
            8364; 8240; 1033; 8249; 1034; 1036; 1035; 1039;
            1106; 8216; 8217; 8220; 8221; 8226; 8211; 8212]%N
  ++ [None]
  ++ map Some [8482; 1113; 8250; 1114; 1116; 1115; 1119;
            160; 1038; 1118; 1032; 164; 1168; 166; 167;
            1025; 169; 1028; 171; 172; 173; 174; 1031;
            176; 177; 1030; 1110; 1169; 181; 182; 183;
            1105; 8470; 1108; 187; 1112; 1029; 1109; 1111]%N
  ++ map (fun i => Some (1040 + N.of_nat i)%N) (seq 0 64).

Definition cp1251_char (b : N) : option N :=
  if (b <? 128)%N then Some b
  else mjoin (cp1251_high !! N.to_nat (b - 128)).

Definition decode (enc : encoding) (bs : list byte) : option pystr :=
  match enc with
  | utf_8 => utf8 (map Byte.to_N bs)
  | cp1251 => mapM cp1251_char (map Byte.to_N bs)
  | latin_1 => Some (map Byte.to_N bs)
  end.

(** Universal newlines of a file opened in text mode: ["\r\n"] and
    ["\r"] are read as ["\n"]. *)
Fixpoint newlines (s : pystr) : pystr :=
  match s with
  | [] => []
  | 13%N :: ((10%N :: s'') as s') => newlines s'
  | 13%N :: s' => 10%N :: newlines s'
  | c :: s' => c :: newlines s'
  end.

End Codecs.

(** ** [hashlib.md5] (RFC 1321) *)
Module Hashlib.

#[local] Open Scope Z_scope.

Definition w32 (x : Z) : Z := x mod 2 ^ 32.
Definition not32 (x : Z) : Z := Z.lxor x (2 ^ 32 - 1).
Definition rotl (x c : Z) : Z :=
  w32 (Z.lor (Z.shiftl x c) (Z.shiftr x (32 - c))).

Definition shifts : list Z :=
  [7; 12; 17; 22; 7; 12; 17; 22; 7; 12; 17; 22; 7; 12; 17; 22;
   5; 9; 14; 20; 5; 9; 14; 20; 5; 9; 14; 20; 5; 9; 14; 20;
   4; 11; 16; 23; 4; 11; 16; 23; 4; 11; 16; 23; 4; 11; 16; 23;
   6; 10; 15; 21; 6; 10; 15; 21; 6; 10; 15; 21; 6; 10; 15; 21].

(** [K i] is the integer part of [2^32 * abs (sin (i + 1))]. *)
Definition K : list Z :=
  [3614090360; 3905402710; 606105819; 3250441966; 4118548399; 1200080426;
   2821735955; 4249261313; 1770035416; 2336552879; 4294925233; 2304563134;
   1804603682; 4254626195; 2792965006; 1236535329; 4129170786; 3225465664;
   643717713; 3921069994; 3593408605; 38016083; 3634488961; 3889429448;
   568446438; 3275163606; 4107603335; 1163531501; 2850285829; 4243563512;
   1735328473; 2368359562; 4294588738; 2272392833; 1839030562; 4259657740;
   2763975236; 1272893353; 4139469664; 3200236656; 681279174; 3936430074;
   3572445317; 76029189; 3654602809; 3873151461; 530742520; 3299628645;
   4096336452; 1126891415; 2878612391; 4237533241; 1700485571; 2399980690;
   4293915773; 2240044497; 1873313359; 4264355552; 2734768916; 1309151649;
   4149444226; 3174756917; 718787259; 3951481745].

(** Little-endian 32-bit words of a block. *)
Fixpoint words (bs : list Z) : list Z :=
  match bs with
  | b0 :: b1 :: b2 :: b3 :: r =>
      (b0 + 256 * b1 + 65536 * b2 + 16777216 * b3) :: words r
  | _ => []
  end.

Definition le_bytes (n : nat) (x : Z) : list Z :=
  map (fun i => (x / 256 ^ Z.of_nat i) mod 256) (seq 0 n).

(** The message, a 1 bit, zeros up to 56 modulo 64, the bit length. *)
Definition pad (msg : list Z) : list Z :=
  let len := Z.of_nat (length msg) in
  (msg ++ [128] ++ repeat 0 (Z.to_nat ((55 - len) mod 64))
   ++ le_bytes 8 ((8 * len) mod 2 ^ 64))%list.

Definition state : Type := Z * Z * Z * Z.

Definition init : state := (1732584193, 4023233417, 2562383102, 271733878).

Definition step (M : list Z) (st : state) (i : nat) : state :=
  let '(A, B, C, D) := st in
  let j := Z.of_nat i in
  let '(F, g) :=
    if j <? 16 then (Z.lor (Z.land B C) (Z.land (not32 B) D), j)
    else if j <? 32 then (Z.lor (Z.land D B) (Z.land (not32 D) C), (5 * j + 1) mod 16)
    else if j <? 48 then (Z.lxor B (Z.lxor C D), (3 * j + 5) mod 16)
    else (Z.lxor C (Z.lor B (not32 D)), (7 * j) mod 16) in
  let F' := w32 (F + A + nth i K 0 + nth (Z.to_nat g) M 0) in
  (D, w32 (B + rotl F' (nth i shifts 0)), B, C).

Definition compress (block : list Z) (st : state) : state :=
  let '(a0, b0, c0, d0) := st in
  let '(A, B, C, D) := fold_left (step (words block)) (seq 0 64) st in
  (w32 (a0 + A), w32 (b0 + B), w32 (c0 + C), w32 (d0 + D)).

Fixpoint blocks (n : nat) (bs : list Z) (st : state) : state :=
  match n with
  | O => st
  | S n' => blocks n' (skipn 64 bs) (compress (firstn 64 bs) st)
  end.

Definition digest (msg : list byte) : list Z :=
  let p := pad (map (fun b => Z.of_N (Byte.to_N b)) msg) in
  let '(a, b, c, d) := blocks (length p / 64) p init in
  (le_bytes 4 a ++ le_bytes 4 b ++ le_bytes 4 c ++ le_bytes 4 d)%list.

Definition hex_digit (d : Z) : ascii :=
  ascii_of_nat (Z.to_nat (if d <? 10 then 48 + d else 87 + d)).

Fixpoint hex (bs : list Z) : string :=
  match bs with
  | [] => EmptyString
  | b :: r => String (hex_digit (b / 16)) (String (hex_digit (b mod 16)) (hex r))
  end.

(** The hash object: [md5()] is [[]], [h.update(chunk)] appends, and
    [h.hexdigest()] digests what was fed. *)
Definition md5 : list byte := [].
Definition update (h chunk : list byte) : list byte := (h ++ chunk)%list.
Definition hexdigest (h : list byte) : string := hex (digest h).

End Hashlib.

(** ** The storage tree *)

(** A worksheet row holds cells; a cell is [None] or the text [str(c)]
    of its value. *)
Definition worksheet : Type := list (list (option pystr)).

(** What the document and archive libraries see in a file.  A file
    that its library opens and cannot read to the end is [Opaque] as
    well: inside [try ... except Exception] it makes no difference
    which call raises. *)
Inductive format : Type :=
| Opaque                                       (* none of them can open it *)
| Docx (paragraphs : list pystr)               (* [p.text] of [doc.paragraphs] *)
| Workbook (sheets : list (string * worksheet))  (* title and rows, in workbook order *)
| Pdf (pages : list pystr)                     (* [page.extract_text()], [""] for none *)
| Zip
| SevenZ.

(** The operations on a file that fail with [OSError] (no permission,
    file vanished in the meantime). *)
Record faults : Type := {
  hash_fails : bool;       (* [open(path, "rb")] in [file_hash] *)
  extract_fails : bool;    (* opening the file in a parser or an unpacker *)
  stat_fails : bool        (* [os.stat(path)] *)
}.

Definition no_faults : faults :=
  {| hash_fails := false; extract_fails := false; stat_fails := false |}.

(** The modification time [st_mtime] of a file, as
    [datetime.fromtimestamp] sees it: a local time, given by its
    [isoformat()], or a time it cannot turn into a [datetime]. *)
Inductive timestamp : Type :=
| Local (iso : string)
| YearOutOfRange       (* a year before 1 or after 9999: [ValueError] *)
| LocaltimeFails       (* the C function [localtime] gives up: [OSError] *)
| TimeOverflow.        (* outside the range of [time_t]: [OverflowError] *)

(** A file of the tree.  [members] is what extracting the file as an
    archive leaves in the temporary directory, as [os.walk] lists it:
    pairs of a directory path and the files in it. *)
Inductive file : Type := File {
  fname : string;
  bytes : list byte;
  fmt : format;
  members : list (string * list file);
  mtime : timestamp;       (* [st_mtime] *)
  io : faults
}.

(** What [os.walk(root)] yields: [(dirpath, filenames)], with each file
    name standing for the file it names. *)
Definition walk : Type := list (string * list file).

(** One Document Record: the [dict] built by [crawl_directory]. *)
Module Doc.
Record t : Type := {
  file_path : string;
  file_name : string;
  extension : string;
  size_bytes : Z;
  modified_at : string;
  source_archive : string;
  content : pystr;
  file_hash : string
}.

(** [r["source_archive"] = label] *)
Definition set_source_archive (label : string) (r : t) : t :=
  {| file_path := file_path r; file_name := file_name r;
     extension := extension r; size_bytes := size_bytes r;
     modified_at := modified_at r; source_archive := label;
     content := content r; file_hash := file_hash r |}.
End Doc.

(** The optional libraries found at import time. *)
Record capabilities : Type := {
  HAS_DOCX : bool;
  HAS_XLSX : bool;
  HAS_PDF : bool;
  HAS_7Z : bool
}.

(** What an unpacker left in the temporary directory. *)
Inductive tmpdir : Type :=
| Extracted      (* the members of the archive *)
| Untouched.     (* nothing: the directory is empty *)

(** ** The crawler *)
Section Crawler.

Context (env : capabilities).

(** [open(path, "r", encoding=enc)] followed by [f.read()]. *)
Definition open_read (f : file) (enc : Codecs.encoding) : result pystr :=
  if extract_fails (io f) then Raise OSError
  else match Codecs.decode enc (bytes f) with
       | Some s => Ok (Codecs.newlines s)
       | None => Raise UnicodeDecodeError
       end.

(** The loop of [parse_txt] over the encodings still to try. *)
Fixpoint parse_txt_from (encs : list Codecs.encoding) (f : file) : result pystr :=
  match encs with
  | [] => Ok []
  | enc :: encs' =>
      match open_read f enc with
      | Raise UnicodeDecodeError => parse_txt_from encs' f
      | r => r
      end
  end.

Definition parse_txt (f : file) : result pystr :=
  parse_txt_from [Codecs.utf_8; Codecs.cp1251; Codecs.latin_1] f.

(** [try: ... except Exception: return ""] *)
Definition or_empty (r : result pystr) : result pystr :=
  match r with
  | Ok s => Ok s
  | Raise _ => Ok []
  end.

(** [docx.Document(path).paragraphs] *)
Definition docx_Document (f : file) : result (list pystr) :=
  if extract_fails (io f) then Raise OSError
  else match fmt f with
       | Docx paragraphs => Ok paragraphs
       | _ => Raise LibraryError
       end.

Definition parse_docx (f : file) : result pystr :=
  if negb (HAS_DOCX env) then Ok []
  else or_empty (
    paragraphs ← docx_Document f;
    Ok (Str.join Str.nl
          (List.filter (fun p => Str.truthy (Str.strip p)) paragraphs))).

(** [openpyxl.load_workbook(path, data_only=True, read_only=True)] *)
Definition load_workbook (f : file) : result (list (string * worksheet)) :=
  if extract_fails (io f) then Raise OSError
  else match fmt f with
       | Workbook sheets => Ok sheets
       | _ => Raise LibraryError
       end.

(** [wb[sheet]]: the first worksheet with that title. *)
Fixpoint getitem (wb : list (string * worksheet)) (sheet : string) : result worksheet :=
  match wb with
  | [] => Raise LibraryError
  | (title, ws) :: wb' => if bool_decide (title = sheet) then Ok ws else getitem wb' sheet
  end.

(** [" | ".join(str(c) for c in row if c is not None)] *)
Definition row_str (row : list (option pystr)) : pystr :=
  Str.join (u " | ") (omap id row).

(** The body of the loop over rows: [parts] grows by the row's line
    unless the line is blank. *)
Definition add_row (parts : list pystr) (row : list (option pystr)) : list pystr :=
  if Str.truthy (Str.strip (row_str row)) then (parts ++ [row_str row])%list else parts.

Definition parse_xlsx (f : file) : result pystr :=
  if negb (HAS_XLSX env) then Ok []
  else or_empty (
    wb ← load_workbook f;
    parts ← for_each (fun sheet parts =>
                        ws ← getitem wb sheet;
                        Ok (fold_left add_row ws parts))
                     (map fst wb) [];
    Ok (Str.join Str.nl parts)).

(** [pdfplumber.open(path).pages], each with its extracted text. *)
Definition pdf_pages (f : file) : result (list pystr) :=
  if extract_fails (io f) then Raise OSError
  else match fmt f with
       | Pdf pages => Ok pages
       | _ => Raise LibraryError
       end.

Definition parse_pdf (f : file) : result pystr :=
  if negb (HAS_PDF env) then Ok []
  else or_empty (
    pages ← pdf_pages f;
    Ok (Str.join Str.nl (List.filter Str.truthy pages))).

Definition PARSERS : gmap string (file -> result pystr) :=
  {[ ".txt" := parse_txt;
     ".docx" := parse_docx;
     ".xlsx" := parse_xlsx;
     ".xls" := parse_xlsx;
     ".pdf" := parse_pdf;
     ".csv" := parse_txt ]}.

(** [extract_text(filepath)], where [f] is the file at [filepath];
    [Ok None] is the result [None]. *)
Definition extract_text (filepath : string) (f : file) : result (option pystr) :=
  let ext := Path.lower (Path.suffix filepath) in
  match PARSERS !! ext with
  | None => Ok None
  | Some parser => Some <$> parser f
  end.

(** [f.read(n)] on the bytes not read yet: the chunk and the rest. *)
Definition read (n : nat) (rest : list byte) : list byte * list byte :=
  (take n rest, drop n rest).

(** [for chunk in iter(lambda: f.read(size), b""): h.update(chunk)];
    [fuel] bounds the number of reads. *)
Fixpoint read_chunks (size fuel : nat) (rest : list byte) (h : list byte) : list byte :=
  match fuel with
  | O => h
  | S fuel' =>
      match read size rest with
      | ([], _) => h
      | (chunk, rest') => read_chunks size fuel' rest' (Hashlib.update h chunk)
      end
  end.

Definition file_hash (f : file) : result string :=
  if hash_fails (io f) then Raise OSError
  else Ok (Hashlib.hexdigest (read_chunks 8192 (S (length (bytes f))) (bytes f) Hashlib.md5)).

(** [zf.extractall(dest_dir)] *)
Definition unpack_zip (a : file) : result tmpdir :=
  if extract_fails (io a) then Raise OSError
  else match fmt a with
       | Zip => Ok Extracted
       | _ => Raise BadArchive
       end.

Definition unpack_7z (a : file) : result tmpdir :=
  if negb (HAS_7Z env) then Ok Untouched
  else if extract_fails (io a) then Raise OSError
  else match fmt a with
       | SevenZ => Ok Extracted
       | _ => Raise BadArchive
       end.

Definition ARCHIVE_EXTS : gset string := {[ ".zip"; ".7z"; ".rar" ]}.
Definition SUPPORTED_EXTS : gset string := dom PARSERS ∪ ARCHIVE_EXTS.

(** [os.stat(fpath)]: [st_size] and [st_mtime]. *)
Definition os_stat (f : file) : result (Z * timestamp) :=
  if stat_fails (io f) then Raise OSError
  else Ok (Z.of_nat (length (bytes f)), mtime f).

(** [datetime.fromtimestamp(t).isoformat()] *)
Definition fromtimestamp_isoformat (t : timestamp) : result string :=
  match t with
  | Local iso => Ok iso
  | YearOutOfRange => Raise ValueError
  | LocaltimeFails => Raise OSError
  | TimeOverflow => Raise OverflowError
  end.

(** The state of the loop of [crawl_directory]. *)
Definition crawl_state : Type := list Doc.t * gset string.

(** The body of the inner loop of [crawl_directory] for the file [f]
    named in [dirpath]; [process_archive] is the unpacker it calls. *)
Definition visit (process_archive : string -> file -> string -> result (list Doc.t))
    (archive_label dirpath : string) (f : file) (st : crawl_state) : result crawl_state :=
  let '(records, seen_hashes) := st in
  let fpath := Path.join dirpath (fname f) in
  let ext := Path.lower (Path.suffix (fname f)) in
  if bool_decide (ext ∉ SUPPORTED_EXTS) then Ok st
  else if bool_decide (ext ∈ ARCHIVE_EXTS) then
    sub_records ← process_archive fpath f fpath;
    Ok ((records ++ sub_records)%list, seen_hashes)
  else
    match file_hash f with
    | Raise OSError => Ok st
    | Raise e => Raise e
    | Ok fhash =>
        if bool_decide (fhash ∈ seen_hashes) then Ok st
        else
          let seen_hashes := {[ fhash ]} ∪ seen_hashes in
          text ← extract_text fpath f;
          match text with
          | None => Ok (records, seen_hashes)
          | Some text =>
              stat ← os_stat f;
              modified_at ← fromtimestamp_isoformat stat.2;
              Ok ((records ++ [ {| Doc.file_path := fpath;
                                   Doc.file_name := fname f;
                                   Doc.extension := Path.lstrip_dot ext;
                                   Doc.size_bytes := stat.1;
                                   Doc.modified_at := modified_at;
                                   Doc.source_archive := archive_label;
                                   Doc.content := Str.strip text;
                                   Doc.file_hash := fhash |} ])%list,
                  seen_hashes)
          end
    end.

(** [crawl_directory] over what [os.walk(root)] yields, with the
    unpacker left open. *)
Definition crawl_directory_with
    (process_archive : string -> file -> string -> result (list Doc.t))
    (root : walk) (archive_label : string) : result (list Doc.t) :=
  st ← for_each (fun (d : string * list file) =>
                   for_each (visit process_archive archive_label d.1) d.2)
                root ([], ∅);
  Ok st.1.

(** The [try] block of [process_archive]: the unpacker chosen by the
    extension and what it did, [None] when there is none for it. *)
Definition unpack (archive_path : string) (a : file) : option (result tmpdir) :=
  let ext := Path.lower (Path.suffix archive_path) in
  if bool_decide (ext = ".zip") then Some (unpack_zip a)
  else if bool_decide (ext = ".7z") then Some (unpack_7z a)
  else None.

(** [parent_archive or archive_path] *)
Definition label_of (archive_path parent_archive : string) : string :=
  if bool_decide (parent_archive = "") then archive_path else parent_archive.

(** [process_archive(archive_path, parent_archive)], where [a] is the
    file at [archive_path]. *)
Fixpoint process_archive (archive_path : string) (a : file) (parent_archive : string)
    {struct a} : result (list Doc.t) :=
  match unpack archive_path a with
  | None => Ok []
  | Some (Raise _) => Ok []
  | Some (Ok t) =>
      let archive_label := label_of archive_path parent_archive in
      rs ← match t with
           | Extracted => crawl_directory_with process_archive (members a) archive_label
           | Untouched => crawl_directory_with process_archive [] archive_label
           end;
      Ok (map (Doc.set_source_archive archive_label) rs)
  end.

Definition crawl_directory (root : walk) (archive_label : string) : result (list Doc.t) :=
  crawl_directory_with process_archive root archive_label.

End Crawler.

(** ** The tabular export: [save_csv] *)

(** A value of a record's [dict], as a cell of the CSV file or a field
    of a database row. *)
Inductive value : Type :=
| VStr (s : string)
| VText (t : pystr)
| VInt (z : Z).

Definition FIELDNAMES : list string :=
  ["file_path"; "file_name"; "extension";
   "size_bytes"; "modified_at"; "source_archive";
   "content"; "file_hash"].

(** [r[key]] *)
Definition getitem_record (r : Doc.t) (key : string) : option value :=
  if bool_decide (key = "file_path") then Some (VStr (Doc.file_path r))
  else if bool_decide (key = "file_name") then Some (VStr (Doc.file_name r))
  else if bool_decide (key = "extension") then Some (VStr (Doc.extension r))
  else if bool_decide (key = "size_bytes") then Some (VInt (Doc.size_bytes r))
  else if bool_decide (key = "modified_at") then Some (VStr (Doc.modified_at r))
  else if bool_decide (key = "source_archive") then Some (VStr (Doc.source_archive r))
  else if bool_decide (key = "content") then Some (VText (Doc.content r))
  else if bool_decide (key = "file_hash") then Some (VStr (Doc.file_hash r))
  else None.

(** A lone surrogate (U+D800 to U+DFFF), which the strict UTF-8
    encoder of the output file refuses. *)
Definition surrogate (c : N) : bool := ((55296 <=? c) && (c <=? 57343))%N.

(** The bytes of a path are UTF-8, so that its [str] holds no
    surrogate. *)
Definition utf8_path (s : string) : bool :=
  match Codecs.utf8 (map Byte.to_N (list_byte_of_string s)) with
  | Some _ => true
  | None => false
  end.

(** The text written for a value can be encoded. *)
Definition encodable (v : value) : bool :=
  match v with
  | VStr s => utf8_path s
  | VText t => forallb (fun c => negb (surrogate c)) t
  | VInt _ => true
  end.

(** [writer.writerow(row)] on the rows written so far: the line is
    encoded when it is written, with [UnicodeEncodeError] if it cannot
    be. *)
Definition writerow (row : list value) (written : list (list value))
    : result (list (list value)) :=
  if forallb encodable row then Ok (written ++ [row])%list
  else Raise UnicodeEncodeError.

(** [writer._dict_to_list(r)]: the values of [r] in the order of
    [FIELDNAMES], [""] for a missing key. *)
Definition dict_to_list (r : Doc.t) : list value :=
  map (fun key => default (VStr "") (getitem_record r key)) FIELDNAMES.

(** [save_csv(records, output_path)]: the rows of the file when the
    call returns, the header first. *)
Definition save_csv (records : list Doc.t) : result (list (list value)) :=
  written ← writerow (map VStr FIELDNAMES) [];
  for_each (fun r => writerow (dict_to_list r)) records written.

(** ** The persisted store: [load_to_sqlite] *)
Module Sqlite.

(** A row of the table [documents]. *)
Record row : Type := { id : Z; doc : Doc.t }.

(** The database file: the table [documents], the counter behind
    [AUTOINCREMENT] (the [seq] of the table in [sqlite_sequence], 0
    while there is none), and the rows indexed by [documents_fts]. *)
Record database : Type := {
  documents : list row;
  sqlite_sequence : Z;
  documents_fts : list (Z * string * pystr)
}.

(** The tables right after [CREATE ... IF NOT EXISTS] on a new file. *)
Definition created : database :=
  {| documents := []; sqlite_sequence := 0; documents_fts := [] |}.

Definition hashes (db : database) : list string :=
  map (fun x => Doc.file_hash (doc x)) (documents db).

(** [INSERT OR IGNORE INTO documents ...]: the row is dropped when its
    [file_hash] breaks the [UNIQUE] constraint; the second component is
    [cur.rowcount].  SQLite draws the row identifier, one more than the
    counter and than every identifier in the table, before it checks
    the constraint, and stores it in the counter at the end of the
    statement: the counter advances for a dropped row too. *)
Definition insert_or_ignore (r : Doc.t) (db : database) : database * Z :=
  let rowid := (Z.max (sqlite_sequence db)
                      (fold_right Z.max 0 (map id (documents db))) + 1)%Z in
  if bool_decide (Doc.file_hash r ∈ hashes db)
  then ({| documents := documents db;
           sqlite_sequence := rowid;
           documents_fts := documents_fts db |}, 0%Z)
  else ({| documents := (documents db ++ [ {| id := rowid; doc := r |} ])%list;
           sqlite_sequence := rowid;
           documents_fts := documents_fts db |}, 1%Z).

(** [INSERT INTO documents_fts(documents_fts) VALUES('rebuild')] *)
Definition rebuild (db : database) : database :=
  {| documents := documents db;
     sqlite_sequence := sqlite_sequence db;
     documents_fts :=
       map (fun x => (id x, Doc.file_name (doc x), Doc.content (doc x))) (documents db) |}.

(** The body of the loop over [records]. *)
Definition insert_record (st : database * nat) (r : Doc.t) : database * nat :=
  let '(db, rowcount) := insert_or_ignore r st.1 in
  (db, if bool_decide (rowcount = 0%Z) then st.2 else S st.2).

(** [load_to_sqlite(records, db_path)] on the database file at
    [db_path] ([None] when there is none yet): the file afterwards and
    the number [inserted] it logs.  The values of the records are taken
    to be such that SQLite can bind them (strings that can be encoded,
    sizes of 64 bits), as they are when [main] calls it: [save_csv] has
    encoded the same records before. *)
Definition load_to_sqlite (records : list Doc.t) (file : option database) : database * nat :=
  let st := fold_left insert_record records (default created file, 0) in
  (rebuild st.1, st.2).

End Sqlite.

(** ** The command: [main] *)

(** The two files the command writes, [None] while they do not exist. *)
Record outputs : Type := {
  csv_file : option (list (list value));
  db_file : option Sqlite.database
}.

(** [main()] with [--root] walked as [root]; [Ok] is a normal return. *)
Definition main (env : capabilities) (root : walk) (out : outputs) : result outputs :=
  records ← crawl_directory env root "";
  match records with
  | [] => Ok out
  | _ =>
      csv ← save_csv records;
      Ok {| csv_file := Some csv;
            db_file := Some (Sqlite.load_to_sqlite records (db_file out)).1 |}
  end.

(** ** The spreadsheet rule as the specification words it

    For each worksheet in workbook order and each of its rows, the
    non-null cell values joined with [" | "]; a row's line is kept
    exactly when the row has a non-null cell; the lines are joined with
    newlines. *)
Definition xlsx_lines_spec (sheets : list (string * worksheet)) : list pystr :=
  concat (map (fun sheet =>
                 concat (map (fun row =>
                                match omap id row with
                                | [] => []
                                | cells => [Str.join (u " | ") cells]
                                end) sheet.2))
              sheets).

Definition xlsx_text_spec (sheets : list (string * worksheet)) : pystr :=
  Str.join Str.nl (xlsx_lines_spec sheets).

(** ** Notions used in the statements *)

(** The records a crawl built itself, as opposed to those an unpacker
    returned: at the top level they are the ones with no archive label. *)
Definition direct (rs : list Doc.t) : list Doc.t :=
  List.filter (fun r => bool_decide (Doc.source_archive r = "")) rs.

(** The parser registered for [ext] needs an optional library that was
    not found at import time. *)
Definition decoder_missing (env : capabilities) (ext : string) : Prop :=
  (ext = ".docx" /\ HAS_DOCX env = false)
  \/ ((ext = ".xlsx" \/ ext = ".xls") /\ HAS_XLSX env = false)
  \/ (ext = ".pdf" /\ HAS_PDF env = false).

(** The record built for a file that is hashed, parsed and stated. *)
Definition record_of (label dirpath : string) (f : file) (fhash : string)
    (text : pystr) (stat : Z * string) : Doc.t :=
  {| Doc.file_path := Path.join dirpath (fname f);
     Doc.file_name := fname f;
     Doc.extension := Path.lstrip_dot (Path.lower (Path.suffix (fname f)));
     Doc.size_bytes := stat.1;
     Doc.modified_at := stat.2;
     Doc.source_archive := label;
     Doc.content := Str.strip text;
     Doc.file_hash := fhash |}.

(** The states of a crawl are ordered: records are only appended and
    fingerprints only added. *)
Definition grows (s s' : crawl_state) : Prop :=
  s.1 `prefix_of` s'.1 /\ s.2 ⊆ s'.2.

(** The invariant of a top-level crawl: the records built by the crawl
    itself have distinct fingerprints, and these are the fingerprints
    seen. *)
Definition deduplicated (st : crawl_state) : Prop :=
  NoDup (map Doc.file_hash (direct st.1))
  /\ forall h, h ∈ st.2 <-> h ∈ map Doc.file_hash (direct st.1).

(** The largest row identifier in the table [documents], 0 for none. *)
Definition max_id (db : Sqlite.database) : Z :=
  fold_right Z.max 0%Z (map Sqlite.id (Sqlite.documents db)).

(** The store after an [INSERT OR IGNORE] that dropped its row: the
    counter has moved, the rows have not. *)
Definition after_dropped_insert (db : Sqlite.database) : Sqlite.database :=
  {| Sqlite.documents := Sqlite.documents db;
     Sqlite.sqlite_sequence := (Z.max (Sqlite.sqlite_sequence db) (max_id db) + 1)%Z;
     Sqlite.documents_fts := Sqlite.documents_fts db |}.

(** [wb[title]] as rows: those of the first worksheet of [wb] with
    that title. *)
Definition first_titled (wb : list (string * worksheet)) (title : string) : worksheet :=
  match List.find (fun s : string * worksheet => bool_decide (s.1 = title)) wb with
  | Some s => s.2
  | None => []
  end.

(** The rows [parse_xlsx] goes through: for each sheet title in
    workbook order, the rows of the worksheet the title denotes. *)
Definition visited_rows (wb : list (string * worksheet)) : list (list (option pystr)) :=
  concat (map (first_titled wb) (map fst wb)).

(** ** Sample storage trees *)

Definition all_libraries : capabilities :=
  {| HAS_DOCX := true; HAS_XLSX := true; HAS_PDF := true; HAS_7Z := true |}.

Definition without_docx : capabilities :=
  {| HAS_DOCX := false; HAS_XLSX := true; HAS_PDF := true; HAS_7Z := true |}.

Definition sample_mtime : timestamp := Local "2024-05-01T10:00:00".

(** A regular file holding the given ASCII text. *)
Definition text_file (name text : string) : file :=
  File name (list_byte_of_string text) Opaque [] sample_mtime no_faults.

(** A zip archive whose extraction yields [tree]. *)
Definition zip_file (name : string) (tree : walk) : file :=
  File name (list_byte_of_string "PK") Zip tree sample_mtime no_faults.

(** A word-processor file met while [python-docx] is missing. *)
Definition report_docx : file :=
  File "report.docx" (list_byte_of_string "PK-docx") (Docx [u "Quarterly report"]) []
       sample_mtime no_faults.

(** A text file that is still there when it is hashed and read, and
    gone when [os.stat] is called. *)
Definition vanishing_txt : file :=
  File "notes.txt" (list_byte_of_string "draft") Opaque [] sample_mtime
       {| hash_fails := false; extract_fails := false; stat_fails := true |}.

(** A text file that can be hashed and can no longer be opened when
    [parse_txt] reads it. *)
Definition locked_txt : file :=
  File "locked.txt" (list_byte_of_string "secret") Opaque [] sample_mtime
       {| hash_fails := false; extract_fails := true; stat_fails := false |}.

(** A text file whose modification time lies in the year 33658. *)
Definition far_future_txt : file :=
  File "future.txt" (list_byte_of_string "later") Opaque [] YearOutOfRange no_faults.

(** A text file that cannot be opened at all. *)
Definition unreadable_txt : file :=
  File "private.txt" (list_byte_of_string "secret") Opaque [] sample_mtime
       {| hash_fails := true; extract_fails := true; stat_fails := false |}.

(** A workbook with a row whose only value is a blank string. *)
Definition ledger_sheets : list (string * worksheet) :=
  [("Sheet1", [[Some (u "total"); None; Some (u "42")];
               [None; None];
               [Some (u " ")]]);
   ("Sheet2", [[Some (u "end")]])].

Definition ledger_xlsx : file :=
  File "ledger.xlsx" (list_byte_of_string "PK-xlsx") (Workbook ledger_sheets) []
       sample_mtime no_faults.

(** A zip with a text file and a word-processor file, packed in
    another zip. *)
Definition inner_zip : file :=
  zip_file "inner.zip"
    [("/tmp/tmpb", [text_file "a.txt" "alpha";
                    File "b.docx" (list_byte_of_string "PK-docx") (Docx [u "beta"]) []
                         sample_mtime no_faults])].

Definition outer_zip : file := zip_file "outer.zip" [("/tmp/tmpa", [inner_zip])].

Definition outer_records : list Doc.t :=
  Eval vm_compute in
    match process_archive all_libraries "storage/outer.zip" outer_zip "storage/outer.zip" with
    | Ok rs => rs
    | Raise _ => []
    end.

(** The same bytes in the tree and inside an archive of the tree. *)
Definition duplicated_root : walk :=
  [("storage", [text_file "a.txt" "same content";
                text_file "copy.txt" "same content";
                zip_file "pack.zip" [("/tmp/tmpa", [text_file "b.txt" "same content"])]])].

Definition duplicated_records : list Doc.t :=
  Eval vm_compute in
    match crawl_directory all_libraries duplicated_root "" with
    | Ok rs => rs
    | Raise _ => []
    end.

(** ** Notions used in the further properties *)

(** The extension [crawl_directory] reads off a file name. *)
Definition ext_of (f : file) : string := Path.lower (Path.suffix (fname f)).

(** The walk without the files whose extension is not supported. *)
Definition supported_files (env : capabilities) (root : walk) : walk :=
  map (fun d => (d.1, List.filter (fun f => bool_decide (ext_of f ∈ SUPPORTED_EXTS env)) d.2))
      root.

(** The walk without the files that are no archives and cannot be
    opened for hashing. *)
Definition hashable_files (root : walk) : walk :=
  map (fun d => (d.1, List.filter
                        (fun f => negb (hash_fails (io f))
                                  || bool_decide (ext_of f ∈ ARCHIVE_EXTS)) d.2))
      root.

(** The files of a walk in the order the two loops of
    [crawl_directory] meet them, each with its directory. *)
Definition entries (root : walk) : list (string * file) :=
  concat (map (fun d => map (fun f => (d.1, f)) d.2) root).


(** [datetime.fromtimestamp] can render the time. *)
Definition renders (t : timestamp) : bool :=
  match t with
  | Local _ => true
  | _ => false
  end.

(** No late failure in a file or, when it is an archive, in the files
    packed in it: it can be opened by a parser or an unpacker,
    [os.stat] succeeds, and its modification time can be rendered. *)
Fixpoint steady (f : file) : bool :=
  negb (extract_fails (io f)) && negb (stat_fails (io f)) && renders (mtime f)
  && forallb (fun d : string * list file => forallb steady d.2) (members f).

Definition tree_steady (root : walk) : bool :=
  forallb (fun d : string * list file => forallb steady d.2) root.

(** The exceptions of a late failure. *)
Definition late_exception (e : exn) : Prop :=
  e = OSError \/ e = ValueError \/ e = OverflowError.

(** What every record of a crawl satisfies. *)
Definition well_formed (env : capabilities) (r : Doc.t) : Prop :=
  Doc.extension r = Path.lstrip_dot (Path.lower (Path.suffix (Doc.file_name r)))
  /\ (String Path.dot (Doc.extension r) ∈ dom (PARSERS env))
  /\ Path.suffix (Doc.file_path r) = Path.suffix (Doc.file_name r)
  /\ Str.strip (Doc.content r) = Doc.content r
  /\ String.length (Doc.file_hash r) = 32
  /\ (0 <= Doc.size_bytes r)%Z.


(** A file of the walk that gets as far as the seen-set: it has a
    parser and it can be hashed. *)
Definition hashable (env : capabilities) (e : string * file) : bool :=
  bool_decide (ext_of e.2 ∈ dom (PARSERS env)) && negb (hash_fails (io e.2)).

(** The path and the fingerprint [crawl_directory] computes for a file. *)
Definition key_of (e : string * file) : string * string :=
  (Path.join e.1 (fname e.2), Hashlib.hexdigest (bytes e.2)).

(** The pairs whose fingerprint occurs for the first time, in order. *)
Fixpoint first_seen (seen : gset string) (l : list (string * string))
    : list (string * string) :=
  match l with
  | [] => []
  | (path, h) :: l' =>
      if bool_decide (h ∈ seen) then first_seen seen l'
      else (path, h) :: first_seen ({[ h ]} ∪ seen) l'
  end.

Definition clean_head (s : pystr) : bool :=
  match s with
  | [] => true
  | c :: _ => negb (Str.isspace c)
  end.


(** The row [save_csv] writes for a record. *)
Definition csv_row (r : Doc.t) : list value :=
  [VStr (Doc.file_path r); VStr (Doc.file_name r); VStr (Doc.extension r);
   VInt (Doc.size_bytes r); VStr (Doc.modified_at r); VStr (Doc.source_archive r);
   VText (Doc.content r); VStr (Doc.file_hash r)].

(** Reading the line ends of a text file, as a relation between the
    decoded text and the text read: every CR LF pair and every lone CR
    is read as one line feed, every other character as itself. *)
Inductive read_as : pystr -> pystr -> Prop :=
| read_end : read_as [] []
| read_cr_lf (s t : pystr) :
    read_as s t -> read_as (13 :: 10 :: s)%N (10%N :: t)
| read_cr (s t : pystr) :
    head s <> Some 10%N -> read_as s t -> read_as (13%N :: s) (10%N :: t)
| read_other (c : N) (s t : pystr) :
    c <> 13%N -> read_as s t -> read_as (c :: s) (c :: t).

(** A text without lone surrogates. *)
Definition clean_text (t : pystr) : bool := forallb (fun c => negb (surrogate c)) t.

(** The rendered time is UTF-8 (it is ASCII in fact). *)
Definition clean_time (t : timestamp) : bool :=
  match t with
  | Local iso => utf8_path iso
  | _ => true
  end.

(** The texts a document library delivers hold no lone surrogate. *)
Definition clean_format (fm : format) : bool :=
  match fm with
  | Docx paragraphs => forallb clean_text paragraphs
  | Workbook sheets =>
      forallb (fun sh : string * worksheet =>
                 forallb (fun row => forallb clean_text (omap id row)) sh.2) sheets
  | Pdf pages => forallb clean_text pages
  | _ => true
  end.

(** Nothing a crawl takes from the file into a record stands in the
    way of the export: the name is UTF-8, and the time and the library
    texts are clean; likewise for the files packed in it and their
    directories.  The bytes of the file are free. *)
Fixpoint clean (f : file) : bool :=
  utf8_path (fname f) && clean_time (mtime f) && clean_format (fmt f)
  && forallb (fun d : string * list file => utf8_path d.1 && forallb clean d.2) (members f).

Definition tree_clean (root : walk) : bool :=
  forallb (fun d : string * list file => utf8_path d.1 && forallb clean d.2) root.

(** Every value of the record can be encoded. *)
Definition record_encodable (r : Doc.t) : bool := forallb encodable (csv_row r).

(** A text file with every kind of line end. *)
Definition mixed_line_ends_txt : file :=
  File "lines.txt" [x61; x0d; x0a; x62; x0d; x63; x0d; x0d; x0a; x64; x0a] Opaque []
       sample_mtime no_faults.

(** A text file whose name is the byte 0xFF followed by [.txt]. *)
Definition badly_named_txt : file :=
  File (String (ascii_of_nat 255) ".txt") (list_byte_of_string "text") Opaque []
       sample_mtime no_faults.

(** The walk holds no file with an archive extension. *)
Definition no_archives (root : walk) : bool :=
  forallb (fun d : string * list file =>
             forallb (fun f => negb (bool_decide (ext_of f ∈ ARCHIVE_EXTS))) d.2) root.

#[export] Instance byte_eq_decision : EqDecision byte := Byte.byte_eq_dec.

(** The bytes are ASCII. *)
Definition ascii_only (bs : list byte) : bool :=
  forallb (fun b => (Byte.to_N b <? 128)%N) bs.

(** What unpacking an archive without inner archives may leave. *)
Definition unpacked_walk : walk :=
  [("/tmp/tmpa", [text_file "b.txt" "same content";
                  text_file "c.csv" "same content";
                  text_file "d.txt" "other"])].

Definition unpacked_records : list Doc.t :=
  Eval vm_compute in
    match crawl_directory all_libraries unpacked_walk "storage/pack.zip" with
    | Ok rs => rs
    | Raise _ => []
    end.

(** A text in Windows-1251 that is no valid UTF-8, and one with the
    byte 0x98, which Windows-1251 does not assign. *)
Definition cyrillic_txt : file :=
  File "privet.txt" [xcf; xf0; xe8; xe2; xe5; xf2; x0d; x0a] Opaque [] sample_mtime no_faults.

Definition binary_txt : file :=
  File "dump.txt" [xff; x98; x0d; x41] Opaque [] sample_mtime no_faults.


(** The outputs of a first run of the command on [duplicated_root]. *)
Definition no_outputs : outputs := {| csv_file := None; db_file := None |}.

Definition first_run_outputs : outputs :=
  Eval vm_compute in
    match main all_libraries duplicated_root no_outputs with
    | Ok out => out
    | Raise _ => no_outputs
    end.

(** * Properties *)

(** ** Sanity checks of the library models *)

Example md5_hello :
  Hashlib.hexdigest (list_byte_of_string "hello") = "5d41402abc4b2a76b9719d911017c592"
  /\ Hashlib.hexdigest [] = "d41d8cd98f00b204e9800998ecf8427e".
Proof. split; vm_compute; reflexivity. Qed.

Example utf8_examples :
  Codecs.utf8 [208; 191; 226; 130; 172; 240; 159; 152; 128]%N = Some [1087; 8364; 128512]%N
  /\ Codecs.utf8 [192; 128]%N = None
  /\ Codecs.utf8 [237; 160; 128]%N = None
  /\ Codecs.decode Codecs.cp1251 [xe0; x98] = None
  /\ Codecs.decode Codecs.cp1251 [xcf; xf0] = Some [1055; 1088]%N.
Proof. repeat split; reflexivity. Qed.

Example join_examples :
  Path.join "storage/docs" "a.txt" = "storage/docs/a.txt"
  /\ Path.join "storage/" "a.txt" = "storage/a.txt"
  /\ Path.join "" "a.txt" = "a.txt".
Proof. repeat split; reflexivity. Qed.

Example suffix_examples :
  Path.lower (Path.suffix "storage/docs/Report.DOCX") = ".docx"
  /\ Path.suffix "d/.txt" = "" /\ Path.suffix "d/x." = ""
  /\ Path.suffix "a.b/c" = "" /\ Path.suffix "d/./x.pdf" = ".pdf"
  /\ Path.suffix "a.tar.gz" = ".gz".
Proof. repeat split; reflexivity. Qed.

(** ** Paths *)

Lemma append_cons (x : ascii) (a b : string) : String x a ++ b = String x (a ++ b).
Proof. reflexivity. Qed.

Lemma append_nil_l (b : string) : "" ++ b = b.
Proof. reflexivity. Qed.

Lemma append_assoc (a b c : string) : (a ++ b) ++ c = a ++ (b ++ c).
Proof.
  induction a as [|x a IH]; [reflexivity |].
  rewrite !append_cons. by f_equal.
Qed.

Lemma append_empty_inv (a b : string) : a ++ b = "" -> a = "" /\ b = "".
Proof.
  destruct a; [rewrite append_nil_l; by intros -> |].
  rewrite append_cons. discriminate.
Qed.

Lemma split_nonempty (s : string) : Path.split s <> [].
Proof.
  destruct s as [|c s]; simpl; [discriminate |].
  case_bool_decide; [discriminate |].
  destruct (Path.split s); discriminate.
Qed.

(** Splitting distributes over a separator. *)
Lemma split_app_sep (x f : string) :
  Path.split (x ++ String Path.sep f) = (Path.split x ++ Path.split f)%list.
Proof.
  induction x as [|c x IH]; rewrite ?append_cons, ?append_nil_l; simpl.
  - reflexivity.
  - case_bool_decide as Hc.
    + by rewrite IH.
    + rewrite IH. pose proof (split_nonempty x) as Hx.
      destruct (Path.split x) as [|h t]; [done | reflexivity].
Qed.

Lemma parts_app_sep (x f : string) :
  Path.parts (x ++ String Path.sep f) = (Path.parts x ++ Path.parts f)%list.
Proof. unfold Path.parts. by rewrite split_app_sep, filter_app. Qed.

Lemma last_app_nonempty {A} (l1 l2 : list A) (d : A) :
  l2 <> [] -> List.last (l1 ++ l2) d = List.last l2 d.
Proof.
  intros Hl2. induction l1 as [|a l1 IH]; [reflexivity |].
  simpl. destruct (l1 ++ l2)%list eqn:E; [| exact IH].
  apply app_eq_nil in E as [_ ->]. done.
Qed.

Lemma name_app_sep (x f : string) :
  Path.parts f <> [] -> Path.name (x ++ String Path.sep f) = Path.name f.
Proof.
  intros Hf. unfold Path.name. rewrite parts_app_sep.
  by apply last_app_nonempty.
Qed.

Lemma endswith_inv (c : ascii) (a : string) :
  Path.endswith c a = true -> exists a', a = a' ++ String c "".
Proof.
  induction a as [|x a IH]; [discriminate |].
  destruct a as [|y a].
  - simpl. intros H%bool_decide_eq_true. subst. by exists "".
  - intros H. destruct (IH H) as [a' Ha']. exists (String x a').
    rewrite append_cons. by rewrite <- Ha'.
Qed.

(** Joining a directory in front of a file name keeps the name. *)
Lemma name_join (a p : string) :
  Path.parts p <> [] -> Path.name (Path.join a p) = Path.name p.
Proof.
  intros Hp. unfold Path.join.
  destruct (Path.startswith Path.sep p); [reflexivity |].
  destruct (bool_decide (a = "")) eqn:Ha; simpl.
  - apply bool_decide_eq_true in Ha. by subst.
  - destruct (Path.endswith Path.sep a) eqn:He.
    + apply endswith_inv in He as [a' ->].
      rewrite append_assoc, append_cons, append_nil_l. by apply name_app_sep.
    + by apply name_app_sep.
Qed.

Lemma suffix_of_name (p q : string) :
  Path.name p = Path.name q -> Path.suffix p = Path.suffix q.
Proof. unfold Path.suffix. by intros ->. Qed.

Lemma suffix_no_parts (p : string) : Path.parts p = [] -> Path.suffix p = "".
Proof. unfold Path.suffix, Path.name. by intros ->. Qed.

(** [crawl_directory] reads the extension off the file name and
    [extract_text] and [process_archive] off the joined path: the two
    agree whenever the name has an extension. *)
Lemma suffix_join (a p : string) :
  Path.suffix p <> "" -> Path.suffix (Path.join a p) = Path.suffix p.
Proof.
  intros Hs. apply suffix_of_name, name_join.
  intros Hp. by apply Hs, suffix_no_parts.
Qed.

Lemma join_empty_inv (a p : string) : Path.join a p = "" -> p = "".
Proof.
  unfold Path.join. destruct (Path.startswith Path.sep p) eqn:E.
  - intros ->. discriminate.
  - destruct (bool_decide (a = "") || Path.endswith Path.sep a).
    + by intros [_ ->]%append_empty_inv.
    + intros [_ ?]%append_empty_inv. discriminate.
Qed.


(** ** The parser registry *)

Lemma dom_PARSERS (env : capabilities) :
  dom (PARSERS env) = {[ ".txt"; ".docx"; ".xlsx"; ".xls"; ".pdf"; ".csv" ]}.
Proof. unfold PARSERS. rewrite !dom_insert_L, dom_singleton_L. set_solver. Qed.

(** The six entries of the registry. *)
Lemma PARSERS_lookup (env : capabilities) :
  PARSERS env !! ".txt" = Some parse_txt
  /\ PARSERS env !! ".docx" = Some (parse_docx env)
  /\ PARSERS env !! ".xlsx" = Some (parse_xlsx env)
  /\ PARSERS env !! ".xls" = Some (parse_xlsx env)
  /\ PARSERS env !! ".pdf" = Some (parse_pdf env)
  /\ PARSERS env !! ".csv" = Some parse_txt.
Proof. repeat split; reflexivity. Qed.

Lemma archive_not_parsed (env : capabilities) (ext : string) :
  ext ∈ ARCHIVE_EXTS -> PARSERS env !! ext = None.
Proof.
  intros H. apply not_elem_of_dom. rewrite dom_PARSERS.
  unfold ARCHIVE_EXTS in H. set_solver.
Qed.

Lemma empty_not_supported (env : capabilities) : "" ∉ SUPPORTED_EXTS env.
Proof. unfold SUPPORTED_EXTS, ARCHIVE_EXTS. rewrite dom_PARSERS. set_solver. Qed.

(** A name with a supported extension has an extension. *)
Lemma supported_suffix_nonempty (env : capabilities) (name : string) :
  Path.lower (Path.suffix name) ∈ SUPPORTED_EXTS env -> Path.suffix name <> "".
Proof. intros H E. rewrite E in H. by apply (empty_not_supported env). Qed.

Lemma extract_text_not_None (env : capabilities) (filepath : string) (f : file) :
  is_Some (PARSERS env !! Path.lower (Path.suffix filepath)) ->
  extract_text env filepath f <> Ok None.
Proof.
  intros [parser Hp]. unfold extract_text. rewrite Hp.
  destruct (parser f); discriminate.
Qed.

(** ** Hashing *)

Lemma read_chunks_all (size fuel : nat) (rest h : list byte) :
  size <> 0 -> length rest < fuel ->
  read_chunks size fuel rest h = (h ++ rest)%list.
Proof.
  intros Hsize. destruct size as [|n]; [done |]. clear Hsize.
  revert rest h. induction fuel as [|fuel IH]; intros rest h Hlen; [lia |].
  destruct rest as [|b rest]; [by rewrite app_nil_r |].
  cbn [read_chunks read take drop]. rewrite IH.
  - unfold Hashlib.update. rewrite <- app_assoc. cbn [app].
    by rewrite take_drop.
  - rewrite length_drop. simpl in Hlen. lia.
Qed.

(** Reading in chunks feeds the digest every byte of the file. *)
Lemma file_hash_digest (f : file) :
  file_hash f =
    if hash_fails (io f) then Raise OSError else Ok (Hashlib.hexdigest (bytes f)).
Proof.
  unfold file_hash. destruct (hash_fails (io f)); [reflexivity |].
  do 2 f_equal. apply (read_chunks_all 8192 _ (bytes f) Hashlib.md5); [| lia].
  intros E. apply (f_equal (Nat.leb 1)) in E. vm_compute in E. discriminate.
Qed.

(** ** One step of the crawl *)

(** The equation of [process_archive], with the recursive crawl named. *)
Lemma process_archive_eq (env : capabilities) (archive_path : string) (a : file)
    (parent_archive : string) :
  process_archive env archive_path a parent_archive =
    match unpack env archive_path a with
    | None => Ok []
    | Some (Raise _) => Ok []
    | Some (Ok t) =>
        let archive_label := label_of archive_path parent_archive in
        rs ← match t with
             | Extracted => crawl_directory env (members a) archive_label
             | Untouched => crawl_directory env [] archive_label
             end;
        Ok (map (Doc.set_source_archive archive_label) rs)
    end.
Proof. destruct a; reflexivity. Qed.

Lemma visit_unsupported (env : capabilities) pa (label dirpath : string) (f : file)
    (st : crawl_state) :
  Path.lower (Path.suffix (fname f)) ∉ SUPPORTED_EXTS env ->
  visit env pa label dirpath f st = Ok st.
Proof.
  intros H. unfold visit. destruct st as [records seen].
  by rewrite bool_decide_eq_true_2.
Qed.

Lemma visit_archive (env : capabilities) pa (label dirpath : string) (f : file)
    (records : list Doc.t) (seen : gset string) :
  Path.lower (Path.suffix (fname f)) ∈ ARCHIVE_EXTS ->
  visit env pa label dirpath f (records, seen) =
    (sub_records ← pa (Path.join dirpath (fname f)) f (Path.join dirpath (fname f));
     Ok ((records ++ sub_records)%list, seen)).
Proof.
  intros H. unfold visit.
  rewrite bool_decide_eq_false_2 by (unfold SUPPORTED_EXTS; set_solver).
  by rewrite bool_decide_eq_true_2.
Qed.

Lemma visit_extractable (env : capabilities) pa (label dirpath : string) (f : file)
    (records : list Doc.t) (seen : gset string) :
  Path.lower (Path.suffix (fname f)) ∈ SUPPORTED_EXTS env ->
  Path.lower (Path.suffix (fname f)) ∉ ARCHIVE_EXTS ->
  visit env pa label dirpath f (records, seen) =
    match file_hash f with
    | Raise OSError => Ok (records, seen)
    | Raise e => Raise e
    | Ok fhash =>
        if bool_decide (fhash ∈ seen) then Ok (records, seen)
        else
          text ← extract_text env (Path.join dirpath (fname f)) f;
          match text with
          | None => Ok (records, {[ fhash ]} ∪ seen)
          | Some text =>
              stat ← os_stat f;
              modified_at ← fromtimestamp_isoformat stat.2;
              Ok ((records ++ [record_of label dirpath f fhash text
                                         (stat.1, modified_at)])%list,
                  {[ fhash ]} ∪ seen)
          end
    end.
Proof.
  intros Hs Ha. unfold visit.
  rewrite bool_decide_eq_false_2 by (intros H; by apply H).
  by rewrite bool_decide_eq_false_2.
Qed.

(** A supported extension that is no archive extension has a parser. *)
Lemma supported_non_archive_parsed (env : capabilities) (ext : string) :
  ext ∈ SUPPORTED_EXTS env -> ext ∉ ARCHIVE_EXTS -> is_Some (PARSERS env !! ext).
Proof.
  unfold SUPPORTED_EXTS. intros Hs Ha. apply elem_of_dom. set_solver.
Qed.

(** What a step on an extractable file can do to the state: nothing,
    or one more record together with its fingerprint. *)
Lemma visit_extractable_cases (env : capabilities) pa (label dirpath : string)
    (f : file) (records records' : list Doc.t) (seen seen' : gset string) :
  Path.lower (Path.suffix (fname f)) ∈ SUPPORTED_EXTS env ->
  Path.lower (Path.suffix (fname f)) ∉ ARCHIVE_EXTS ->
  visit env pa label dirpath f (records, seen) = Ok (records', seen') ->
  (records' = records /\ seen' = seen
   /\ (hash_fails (io f) = true \/ Hashlib.hexdigest (bytes f) ∈ seen))
  \/ (exists r, Doc.file_hash r = Hashlib.hexdigest (bytes f)
              /\ hash_fails (io f) = false
              /\ (Doc.file_hash r ∉ seen)
              /\ Doc.source_archive r = label
              /\ records' = (records ++ [r])%list
              /\ seen' = {[ Doc.file_hash r ]} ∪ seen).
Proof.
  intros Hs Ha. rewrite visit_extractable by done.
  rewrite file_hash_digest. destruct (hash_fails (io f)) eqn:Hh.
  - intros [= <- <-]. left. auto.
  - case_bool_decide as Hseen.
    + intros [= <- <-]. left. auto.
    + pose proof (extract_text_not_None env (Path.join dirpath (fname f)) f) as Hn.
      rewrite suffix_join in Hn by (by eapply supported_suffix_nonempty).
      specialize (Hn (supported_non_archive_parsed _ _ Hs Ha)).
      destruct (extract_text env (Path.join dirpath (fname f)) f) as [[text|]|e];
        [| done | discriminate].
      cbn. destruct (os_stat f) as [stat|e]; [| discriminate].
      cbn. destruct (fromtimestamp_isoformat stat.2) as [iso|e]; [| discriminate].
      cbn. intros [= <- <-]. right. eexists. repeat split; done.
Qed.

(** ** The registry and the crawl *)

(** C10. In [crawl_directory], a file whose extension passes the
    supported-extension check and is no archive extension has a parser
    in the registry; [extract_text] on its path never returns [None];
    so the branch that skips on [None] is never taken: whenever the
    step marks a fingerprint as seen it also appends a record. *)
Theorem C10_extractable_file_has_parser (env : capabilities) (dirpath : string) (f : file) :
  Path.lower (Path.suffix (fname f)) ∈ SUPPORTED_EXTS env ->
  Path.lower (Path.suffix (fname f)) ∉ ARCHIVE_EXTS ->
  Path.lower (Path.suffix (fname f)) ∈ dom (PARSERS env)
  /\ is_Some (PARSERS env !! Path.lower (Path.suffix (Path.join dirpath (fname f))))
  /\ extract_text env (Path.join dirpath (fname f)) f <> Ok None
  /\ forall pa label records seen records' seen',
       visit env pa label dirpath f (records, seen) = Ok (records', seen') ->
       seen' <> seen ->
       exists r, records' = (records ++ [r])%list /\ seen' = {[ Doc.file_hash r ]} ∪ seen.
Proof.
  intros Hs Ha.
  pose proof (supported_non_archive_parsed _ _ Hs Ha) as Hp.
  assert (Hj : Path.suffix (Path.join dirpath (fname f)) = Path.suffix (fname f))
    by (apply suffix_join; by eapply supported_suffix_nonempty).
  split; [by apply elem_of_dom |].
  split; [by rewrite Hj |].
  split; [apply extract_text_not_None; by rewrite Hj |].
  intros pa label records seen records' seen' Hv Hne.
  destruct (visit_extractable_cases _ _ _ _ _ _ _ _ _ Hs Ha Hv)
    as [(_ & -> & _) | (r & _ & _ & _ & _ & -> & ->)]; [done |].
  by exists r.
Qed.

Lemma C10_extractable_file_has_parser_witness :
  let f := text_file "notes.TXT" "hello" in
  Path.lower (Path.suffix (fname f)) ∈ dom (PARSERS all_libraries)
  /\ is_Some (PARSERS all_libraries !! Path.lower (Path.suffix (Path.join "storage" (fname f))))
  /\ extract_text all_libraries (Path.join "storage" (fname f)) f <> Ok None
  /\ forall pa label records seen records' seen',
       visit all_libraries pa label "storage" f (records, seen) = Ok (records', seen') ->
       seen' <> seen ->
       exists r, records' = (records ++ [r])%list /\ seen' = {[ Doc.file_hash r ]} ∪ seen.
Proof.
  apply (C10_extractable_file_has_parser all_libraries "storage"
           (text_file "notes.TXT" "hello")).
  - vm_compute. reflexivity.
  - vm_compute. intros H. discriminate H.
Defined.

(** ** Missing decoders *)

(** With the decoder missing, the registry still holds the parser, and
    the parser answers with the empty text. *)
Lemma missing_decoder_yields_empty_text (env : capabilities) (filepath : string)
    (f : file) :
  decoder_missing env (Path.lower (Path.suffix filepath)) ->
  is_Some (PARSERS env !! Path.lower (Path.suffix filepath))
  /\ extract_text env filepath f = Ok (Some [])
  /\ extract_text env filepath f <> Ok None.
Proof.
  intros Hm. unfold extract_text.
  destruct (PARSERS_lookup env) as (_ & Hdocx & Hxlsx & Hxls & Hpdf & _).
  destruct Hm as [[-> Hd] | [[[-> | ->] Hx] | [-> Hp]]].
  - rewrite Hdocx. unfold parse_docx. rewrite Hd. by repeat split.
  - rewrite Hxlsx. unfold parse_xlsx. rewrite Hx. by repeat split.
  - rewrite Hxls. unfold parse_xlsx. rewrite Hx. by repeat split.
  - rewrite Hpdf. unfold parse_pdf. rewrite Hp. by repeat split.
Qed.

Lemma decoder_missing_extractable (env : capabilities) (ext : string) :
  decoder_missing env ext -> ext ∈ SUPPORTED_EXTS env /\ ext ∉ ARCHIVE_EXTS.
Proof.
  unfold SUPPORTED_EXTS, ARCHIVE_EXTS. rewrite dom_PARSERS.
  intros [[-> _] | [[[-> | ->] _] | [-> _]]]; set_solver.
Qed.

(** C2 (fails on the code). A file whose extension is [.docx],
    [.xlsx], [.xls] or [.pdf] and whose decoder library was not found
    at import time is not skipped: the registry still holds the parser
    of the extension, [extract_text] returns the empty text and not
    [None], and the crawl records the file, with empty [content]. *)
Theorem C2_missing_decoder_file_is_recorded (env : capabilities)
    (label dirpath iso : string) (f : file) :
  decoder_missing env (Path.lower (Path.suffix (fname f))) ->
  hash_fails (io f) = false ->
  stat_fails (io f) = false ->
  mtime f = Local iso ->
  is_Some (PARSERS env !! Path.lower (Path.suffix (Path.join dirpath (fname f))))
  /\ extract_text env (Path.join dirpath (fname f)) f = Ok (Some [])
  /\ extract_text env (Path.join dirpath (fname f)) f <> Ok None
  /\ crawl_directory env [(dirpath, [f])] label
     = Ok [record_of label dirpath f (Hashlib.hexdigest (bytes f)) []
                     (Z.of_nat (length (bytes f)), iso)].
Proof.
  intros Hm Hh Hstat Hiso.
  destruct (decoder_missing_extractable _ _ Hm) as [Hs Ha].
  assert (Hj : Path.suffix (Path.join dirpath (fname f)) = Path.suffix (fname f))
    by (apply suffix_join; by eapply supported_suffix_nonempty).
  rewrite <- Hj in Hm.
  destruct (missing_decoder_yields_empty_text env _ f Hm) as (Hp & Hx & Hn).
  split_and!; [done | done | done |].
  unfold crawl_directory, crawl_directory_with. cbn [for_each fst snd].
  rewrite visit_extractable by done.
  rewrite file_hash_digest, Hh. rewrite bool_decide_eq_false_2 by set_solver.
  rewrite Hx. cbn. unfold os_stat. rewrite Hstat, Hiso. reflexivity.
Qed.

Lemma C2_missing_decoder_file_is_recorded_witness :
  is_Some (PARSERS without_docx !! Path.lower (Path.suffix "storage/report.docx"))
  /\ extract_text without_docx "storage/report.docx" report_docx = Ok (Some [])
  /\ extract_text without_docx "storage/report.docx" report_docx <> Ok None
  /\ crawl_directory without_docx [("storage", [report_docx])] ""
     = Ok [record_of "" "storage" report_docx (Hashlib.hexdigest (bytes report_docx)) []
                     (Z.of_nat (length (bytes report_docx)), "2024-05-01T10:00:00")].
Proof.
  apply (C2_missing_decoder_file_is_recorded without_docx "" "storage"
           "2024-05-01T10:00:00" report_docx).
  - left. split; reflexivity.
  - reflexivity.
  - reflexivity.
  - reflexivity.
Defined.

(** ** Archives without an extraction path *)

(** C8. A file with the extension [.rar] is classified as an archive,
    [process_archive] returns no record for it without calling an
    unpacker (whatever the file holds), and the crawl goes on with the
    state it had. *)
Theorem C8_rar_file_yields_no_record (env : capabilities) (label dirpath : string)
    (f : file) (st : crawl_state) :
  Path.lower (Path.suffix (fname f)) = ".rar" ->
  (Path.lower (Path.suffix (fname f)) ∈ ARCHIVE_EXTS)
  /\ (forall parent, process_archive env (Path.join dirpath (fname f)) f parent = Ok [])
  /\ visit env (process_archive env) label dirpath f st = Ok st
  /\ (forall rest,
        for_each (visit env (process_archive env) label dirpath) (f :: rest) st =
        for_each (visit env (process_archive env) label dirpath) rest st).
Proof.
  intros Hext.
  assert (Harch : Path.lower (Path.suffix (fname f)) ∈ ARCHIVE_EXTS)
    by (rewrite Hext; unfold ARCHIVE_EXTS; set_solver).
  assert (Hpa : forall parent,
             process_archive env (Path.join dirpath (fname f)) f parent = Ok []).
  { intros parent. rewrite process_archive_eq.
    unfold unpack. rewrite suffix_join.
    - rewrite Hext. reflexivity.
    - intros E. rewrite E in Hext. discriminate. }
  assert (Hv : visit env (process_archive env) label dirpath f st = Ok st).
  { destruct st as [records seen]. rewrite visit_archive by done.
    rewrite Hpa. cbn. by rewrite app_nil_r. }
  repeat split; [done | done | done |].
  intros rest. cbn. by rewrite Hv.
Qed.

Lemma C8_rar_file_yields_no_record_witness :
  let f := zip_file "backup.RAR" [("/tmp/x", [text_file "inner.txt" "data"])] in
  let st : crawl_state := ([], ∅) in
  (Path.lower (Path.suffix (fname f)) ∈ ARCHIVE_EXTS)
  /\ (forall parent, process_archive all_libraries (Path.join "storage" (fname f)) f parent = Ok [])
  /\ visit all_libraries (process_archive all_libraries) "" "storage" f st = Ok st
  /\ (forall rest,
        for_each (visit all_libraries (process_archive all_libraries) "" "storage") (f :: rest) st =
        for_each (visit all_libraries (process_archive all_libraries) "" "storage") rest st).
Proof.
  apply (C8_rar_file_yields_no_record all_libraries "" "storage"
           (zip_file "backup.RAR" [("/tmp/x", [text_file "inner.txt" "data"])]) ([], ∅)).
  reflexivity.
Defined.

(** ** Plain text *)

Lemma parse_txt_from_first (encs pre post : list Codecs.encoding) (enc : Codecs.encoding)
    (f : file) (s : pystr) :
  encs = (pre ++ enc :: post)%list ->
  Forall (fun e => Codecs.decode e (bytes f) = None) pre ->
  Codecs.decode enc (bytes f) = Some s ->
  parse_txt_from encs f =
    if extract_fails (io f) then Raise OSError else Ok (Codecs.newlines s).
Proof.
  intros -> Hpre Henc. induction Hpre as [|e pre He _ IH]; cbn.
  - unfold open_read. destruct (extract_fails (io f)); [done |]. by rewrite Henc.
  - unfold open_read at 1. destruct (extract_fails (io f)) eqn:Hf; [done |].
    rewrite He. exact IH.
Qed.

(** C6. [.txt] and [.csv] files are read by [parse_txt], which tries
    UTF-8, then Windows-1251, then Latin-1, and returns the text of the
    first encoding that decodes the bytes; Latin-1 decodes every byte
    sequence, so a decoded text always exists and the loop never falls
    through.  (Only opening the file can fail.) *)
Theorem C6_parse_txt_returns_first_successful_decode (env : capabilities) (f : file) :
  PARSERS env !! ".txt" = Some parse_txt
  /\ PARSERS env !! ".csv" = Some parse_txt
  /\ parse_txt f = parse_txt_from [Codecs.utf_8; Codecs.cp1251; Codecs.latin_1] f
  /\ exists pre enc post s,
       [Codecs.utf_8; Codecs.cp1251; Codecs.latin_1] = (pre ++ enc :: post)%list
       /\ Forall (fun e => Codecs.decode e (bytes f) = None) pre
       /\ Codecs.decode enc (bytes f) = Some s
       /\ parse_txt f =
            if extract_fails (io f) then Raise OSError else Ok (Codecs.newlines s).
Proof.
  split; [reflexivity |]. split; [reflexivity |]. split; [reflexivity |].
  destruct (Codecs.decode Codecs.utf_8 (bytes f)) as [s|] eqn:H8.
  { exists [], Codecs.utf_8, [Codecs.cp1251; Codecs.latin_1], s.
    split_and!; [done | constructor | done |].
    by apply (parse_txt_from_first _ [] [Codecs.cp1251; Codecs.latin_1] Codecs.utf_8). }
  destruct (Codecs.decode Codecs.cp1251 (bytes f)) as [s|] eqn:H1251.
  { exists [Codecs.utf_8], Codecs.cp1251, [Codecs.latin_1], s.
    split_and!; [done | by repeat constructor | done |].
    apply (parse_txt_from_first _ [Codecs.utf_8] [Codecs.latin_1] Codecs.cp1251);
      [done | by repeat constructor | done]. }
  exists [Codecs.utf_8; Codecs.cp1251], Codecs.latin_1, [], (map Byte.to_N (bytes f)).
  split_and!; [done | by repeat constructor | done |].
  apply (parse_txt_from_first _ [Codecs.utf_8; Codecs.cp1251] [] Codecs.latin_1);
    [done | by repeat constructor | done].
Qed.

Example parse_txt_falls_back_to_latin_1 :
  parse_txt (File "legacy.txt" [xff; x98; x0d; x0a; x41] Opaque [] sample_mtime no_faults)
  = Ok [255; 152; 10; 65]%N.
Proof. reflexivity. Qed.

Example parse_txt_reads_cp1251 :
  parse_txt (File "privet.txt" [xcf; xf0; xe8] Opaque [] sample_mtime no_faults)
  = Ok [1055; 1088; 1080]%N.
Proof. reflexivity. Qed.

(** ** I/O failures on a single file *)

(** C4 (fails on the code). Only a failure while hashing is caught:
    the crawl skips the unreadable file and records the next one.  An
    [OSError] from [os.stat], or from opening a [.txt] file in
    [parse_txt], is not caught: it ends the crawl, also the enclosing
    crawl of an archive that holds the file, and the records of the
    other files are lost. *)
Theorem C4_stat_failure_aborts_crawl :
  (exists r, crawl_directory all_libraries
               [("storage", [unreadable_txt; text_file "other.txt" "kept"])] "" = Ok [r]
             /\ Doc.file_name r = "other.txt")
  /\ crawl_directory all_libraries
       [("storage", [vanishing_txt; text_file "other.txt" "kept"])] "" = Raise OSError
  /\ crawl_directory all_libraries
       [("storage", [locked_txt; text_file "other.txt" "kept"])] "" = Raise OSError
  /\ crawl_directory all_libraries
       [("storage", [text_file "first.txt" "kept";
                     zip_file "pack.zip" [("/tmp/tmpa", [vanishing_txt])];
                     text_file "other.txt" "kept too"])] "" = Raise OSError.
Proof.
  split; [eexists; split; vm_compute; reflexivity |].
  repeat split; vm_compute; reflexivity.
Qed.

(** ** A run without records *)

Lemma for_each_no_files (env : capabilities) pa (label : string) (root : walk)
    (st : crawl_state) :
  Forall (fun d => d.2 = []) root ->
  for_each (fun d : string * list file => for_each (visit env pa label d.1) d.2) root st
  = Ok st.
Proof.
  intros H. induction H as [|d root Hd _ IH]; [reflexivity |].
  cbn. rewrite Hd. exact IH.
Qed.

(** C9. When the crawl finds no record, [main] returns normally and
    leaves both output files as they were; a root whose directories
    hold no file is such a run. *)
Theorem C9_no_records_no_output (env : capabilities) (root : walk) (out : outputs) :
  crawl_directory env root "" = Ok [] \/ Forall (fun d => d.2 = []) root ->
  crawl_directory env root "" = Ok [] /\ main env root out = Ok out.
Proof.
  intros H.
  assert (Hc : crawl_directory env root "" = Ok []).
  { destruct H as [H | H]; [exact H |].
    unfold crawl_directory, crawl_directory_with.
    by rewrite for_each_no_files. }
  split; [exact Hc |]. unfold main. by rewrite Hc.
Qed.

Lemma C9_no_records_no_output_witness :
  let root : walk := [("storage", []); ("storage/empty", [])] in
  let out := {| csv_file := None; db_file := None |} in
  crawl_directory all_libraries root "" = Ok [] /\ main all_libraries root out = Ok out.
Proof.
  apply (C9_no_records_no_output all_libraries
           [("storage", []); ("storage/empty", [])]
           {| csv_file := None; db_file := None |}).
  right. repeat constructor.
Defined.

(** ** Loading the store *)

Lemma elem_of_map {A B} (g : A -> B) (l : list A) (y : B) :
  y ∈ map g l <-> exists x, y = g x /\ x ∈ l.
Proof.
  rewrite list_elem_of_In, in_map_iff.
  split; intros (x & H1 & H2); exists x; (split; [done |]); by apply list_elem_of_In.
Qed.

(** A dropped row moves the counter and nothing else. *)
Lemma insert_known (r : Doc.t) (db : Sqlite.database) :
  Doc.file_hash r ∈ Sqlite.hashes db ->
  Sqlite.insert_or_ignore r db = (after_dropped_insert db, 0%Z).
Proof. intros H. unfold Sqlite.insert_or_ignore. by rewrite bool_decide_eq_true_2. Qed.

Lemma insert_fresh (r : Doc.t) (db : Sqlite.database) :
  Doc.file_hash r ∉ Sqlite.hashes db ->
  exists rowid db',
    Sqlite.insert_or_ignore r db = (db', 1%Z)
    /\ Sqlite.documents db' =
         (Sqlite.documents db ++ [ {| Sqlite.id := rowid; Sqlite.doc := r |} ])%list.
Proof.
  intros H. unfold Sqlite.insert_or_ignore. rewrite bool_decide_eq_false_2 by done.
  by eexists _, _.
Qed.

Lemma insert_record_known (r : Doc.t) (db : Sqlite.database) (n : nat) :
  Doc.file_hash r ∈ Sqlite.hashes db ->
  Sqlite.insert_record (db, n) r = (after_dropped_insert db, n).
Proof. intros H. unfold Sqlite.insert_record. cbn. by rewrite insert_known. Qed.

Lemma insert_record_fresh (r : Doc.t) (db : Sqlite.database) (n : nat) :
  Doc.file_hash r ∉ Sqlite.hashes db ->
  exists rowid db',
    Sqlite.insert_record (db, n) r = (db', S n)
    /\ Sqlite.documents db' =
         (Sqlite.documents db ++ [ {| Sqlite.id := rowid; Sqlite.doc := r |} ])%list.
Proof.
  intros H. destruct (insert_fresh r db H) as (rowid & db' & Hins & Hdocs).
  exists rowid, db'. split; [| done].
  unfold Sqlite.insert_record. cbn. by rewrite Hins.
Qed.

Lemma hashes_snoc (db db' : Sqlite.database) (x : Sqlite.row) :
  Sqlite.documents db' = (Sqlite.documents db ++ [x])%list ->
  Sqlite.hashes db' = (Sqlite.hashes db ++ [Doc.file_hash (Sqlite.doc x)])%list.
Proof. unfold Sqlite.hashes. intros ->. by rewrite map_app. Qed.

(** The loop over [records], from any table and any count. *)
Lemma load_loop (records : list Doc.t) (db : Sqlite.database) (n : nat) :
  let st := fold_left Sqlite.insert_record records (db, n) in
  exists new,
    Sqlite.documents st.1 = (Sqlite.documents db ++ new)%list
    /\ st.2 = n + length new
    /\ NoDup (map (fun x => Doc.file_hash (Sqlite.doc x)) new)
    /\ (forall x, x ∈ new ->
          (Doc.file_hash (Sqlite.doc x) ∉ Sqlite.hashes db)
          /\ List.find (fun r => bool_decide (Doc.file_hash r = Doc.file_hash (Sqlite.doc x)))
                       records = Some (Sqlite.doc x))
    /\ (forall r, r ∈ records -> Doc.file_hash r ∈ Sqlite.hashes st.1).
Proof.
  revert db n. induction records as [|r records IH]; intros db n; cbn zeta.
  - exists []. cbn. rewrite app_nil_r. split_and!; [done | lia | constructor | |].
    + intros x Hx. by apply elem_of_nil in Hx.
    + intros r Hr. by apply elem_of_nil in Hr.
  - cbn [fold_left].
    destruct (decide (Doc.file_hash r ∈ Sqlite.hashes db)) as [Hin | Hnin].
    + rewrite insert_record_known by done.
      destruct (IH (after_dropped_insert db) n) as (new & Hdocs & Hn & Hnd & Hnew & Hall).
      change (Sqlite.documents (after_dropped_insert db)) with (Sqlite.documents db) in Hdocs.
      change (Sqlite.hashes (after_dropped_insert db)) with (Sqlite.hashes db) in Hnew.
      exists new. split_and!; [done | done | done | |].
      * intros x Hx. destruct (Hnew x Hx) as [Hx1 Hx2]. split; [done |].
        cbn [List.find]. rewrite bool_decide_eq_false_2; [done |].
        intros E. apply Hx1. by rewrite <- E.
      * intros r' [-> | Hr']%elem_of_cons; [| by apply Hall].
        unfold Sqlite.hashes. rewrite Hdocs, map_app. apply elem_of_app. by left.
    + destruct (insert_record_fresh r db n Hnin) as (rowid & db1 & Hins & Hdb1).
      rewrite Hins.
      pose proof (hashes_snoc _ _ _ Hdb1) as Hh1. cbn in Hh1.
      destruct (IH db1 (S n)) as (new & Hdocs & Hn & Hnd & Hnew & Hall).
      exists ({| Sqlite.id := rowid; Sqlite.doc := r |} :: new).
      split_and!.
      * rewrite Hdocs, Hdb1. by rewrite <- app_assoc.
      * rewrite Hn. cbn. lia.
      * cbn. constructor; [| done].
        intros (x & Hx1 & Hx2)%elem_of_map.
        destruct (Hnew x Hx2) as [Hx3 _]. apply Hx3.
        rewrite Hh1. apply elem_of_app. right. rewrite Hx1. by apply list_elem_of_singleton.
      * intros x [-> | Hx]%elem_of_cons.
        -- split; [done |]. cbn. by rewrite bool_decide_eq_true_2.
        -- destruct (Hnew x Hx) as [Hx1 Hx2]. rewrite Hh1 in Hx1.
           split; [intros ?; apply Hx1, elem_of_app; by left |].
           cbn [List.find]. rewrite bool_decide_eq_false_2; [done |].
           intros E. apply Hx1, elem_of_app. right. rewrite E.
           by apply list_elem_of_singleton.
      * intros r' [-> | Hr']%elem_of_cons; [| by apply Hall].
        unfold Sqlite.hashes. rewrite Hdocs, Hdb1, !map_app.
        apply elem_of_app. left. apply elem_of_app. right.
        by apply list_elem_of_singleton.
Qed.

(** Records whose fingerprints are all stored leave the rows, the
    count and the index as they are; the counter moves by one for each
    of them once it is not behind the table. *)
Lemma load_loop_known (records : list Doc.t) (db : Sqlite.database) (n : nat) :
  (forall r, r ∈ records -> Doc.file_hash r ∈ Sqlite.hashes db) ->
  let st := fold_left Sqlite.insert_record records (db, n) in
  Sqlite.documents st.1 = Sqlite.documents db
  /\ st.2 = n
  /\ Sqlite.documents_fts st.1 = Sqlite.documents_fts db
  /\ ((max_id db <= Sqlite.sqlite_sequence db)%Z ->
      Sqlite.sqlite_sequence st.1
      = (Sqlite.sqlite_sequence db + Z.of_nat (length records))%Z).
Proof.
  revert db. induction records as [|r records IH]; intros db H; cbn zeta.
  - cbn. split_and!; [done | done | done | lia].
  - cbn [fold_left]. rewrite insert_record_known by (apply H; by left).
    destruct (IH (after_dropped_insert db)) as (Hdocs & Hn & Hfts & Hseq).
    { intros r' Hr'. apply (H r'). by right. }
    cbn zeta in *. split_and!; [done | done | done |].
    intros Hord. rewrite Hseq.
    + cbn [after_dropped_insert Sqlite.sqlite_sequence length]. lia.
    + change (max_id (after_dropped_insert db)) with (max_id db).
      cbn [after_dropped_insert Sqlite.sqlite_sequence]. lia.
Qed.

Lemma max_id_nonneg (db : Sqlite.database) : (0 <= max_id db)%Z.
Proof.
  unfold max_id. induction (map Sqlite.id (Sqlite.documents db)) as [|x l IH]; cbn; lia.
Qed.

Lemma max_id_snoc (l : list Z) (x : Z) :
  fold_right Z.max 0%Z (l ++ [x]) = Z.max (fold_right Z.max 0%Z l) (Z.max x 0).
Proof. induction l as [|y l IH]; cbn [app fold_right]; [lia |]. rewrite IH. lia. Qed.

(** After any insert, dropped or not, the counter is not behind the
    table. *)
Lemma insert_record_ordered (st : Sqlite.database * nat) (r : Doc.t) :
  (max_id (Sqlite.insert_record st r).1 <= Sqlite.sqlite_sequence (Sqlite.insert_record st r).1)%Z.
Proof.
  destruct st as [db n]. pose proof (max_id_nonneg db) as H0.
  destruct (decide (Doc.file_hash r ∈ Sqlite.hashes db)) as [Hin | Hnin].
  - rewrite insert_record_known by done. cbn [fst].
    change (max_id (after_dropped_insert db)) with (max_id db).
    cbn [after_dropped_insert Sqlite.sqlite_sequence]. lia.
  - unfold Sqlite.insert_record, Sqlite.insert_or_ignore. cbn [fst].
    rewrite bool_decide_eq_false_2 by done. cbn [fst Sqlite.sqlite_sequence].
    unfold max_id in *. cbn [Sqlite.documents].
    rewrite map_app. cbn [map Sqlite.id]. rewrite max_id_snoc. lia.
Qed.

Lemma load_ordered (records : list Doc.t) (st : Sqlite.database * nat) :
  records <> [] ->
  (max_id (fold_left Sqlite.insert_record records st).1
   <= Sqlite.sqlite_sequence (fold_left Sqlite.insert_record records st).1)%Z.
Proof.
  revert st. induction records as [|r [|r' rs] IH]; intros st Hne; [done | |].
  - apply insert_record_ordered.
  - cbn [fold_left]. apply (IH (Sqlite.insert_record st r)). discriminate.
Qed.

(** C5. [load_to_sqlite] keeps every row the store already has and
    appends rows only for fingerprints the store does not have yet, one
    per fingerprint, holding the first record of the set with that
    fingerprint; the count it logs is the number of appended rows; no
    insert raises; afterwards every fingerprint of the set is stored,
    so an insert of such a record is dropped, and loading the same set
    again counts 0 and leaves the rows of [documents] and of the
    full-text index as they are.  What a dropped row does change is the
    counter behind [AUTOINCREMENT]: it moves by one for every record of
    the second load. *)
Theorem C5_load_ignores_known_fingerprints (records : list Doc.t)
    (file : option Sqlite.database) :
  let before := default Sqlite.created file in
  let after := (Sqlite.load_to_sqlite records file).1 in
  let inserted := (Sqlite.load_to_sqlite records file).2 in
  let again := Sqlite.load_to_sqlite records (Some after) in
  (exists new,
     Sqlite.documents after = (Sqlite.documents before ++ new)%list
     /\ inserted = length new
     /\ NoDup (map (fun x => Doc.file_hash (Sqlite.doc x)) new)
     /\ (forall x, x ∈ new ->
           (Doc.file_hash (Sqlite.doc x) ∉ Sqlite.hashes before)
           /\ List.find (fun r => bool_decide (Doc.file_hash r = Doc.file_hash (Sqlite.doc x)))
                        records = Some (Sqlite.doc x)))
  /\ (forall r, r ∈ records -> Doc.file_hash r ∈ Sqlite.hashes after)
  /\ (forall r, Doc.file_hash r ∈ Sqlite.hashes after ->
        Sqlite.insert_or_ignore r after = (after_dropped_insert after, 0%Z))
  /\ again.2 = 0
  /\ Sqlite.documents again.1 = Sqlite.documents after
  /\ Sqlite.documents_fts again.1 = Sqlite.documents_fts after
  /\ Sqlite.sqlite_sequence again.1
     = (Sqlite.sqlite_sequence after + Z.of_nat (length records))%Z.
Proof.
  cbn zeta. unfold Sqlite.load_to_sqlite.
  destruct (load_loop records (default Sqlite.created file) 0)
    as (new & Hdocs & Hn & Hnd & Hnew & Hall).
  cbn zeta in *. cbn [fst snd default].
  pose proof (load_ordered records (default Sqlite.created file, 0)) as Hord.
  set (st := fold_left Sqlite.insert_record records (default Sqlite.created file, 0)) in *.
  destruct (load_loop_known records (Sqlite.rebuild st.1) 0 Hall)
    as (Hdocs2 & Hn2 & _ & Hseq2).
  cbn zeta in *. change (id (Sqlite.rebuild st.1)) with (Sqlite.rebuild st.1).
  set (st2 := fold_left Sqlite.insert_record records (Sqlite.rebuild st.1, 0)) in *.
  split_and!.
  - exists new. split_and!; [done | by rewrite Hn | done | done].
  - exact Hall.
  - intros r Hr. by apply insert_known.
  - exact Hn2.
  - exact Hdocs2.
  - cbn [Sqlite.rebuild Sqlite.documents_fts]. by rewrite Hdocs2.
  - cbn [Sqlite.rebuild Sqlite.sqlite_sequence] in *.
    destruct records as [|r records]; [cbn; lia |].
    apply Hseq2. apply Hord. discriminate.
Qed.

(** ** Spreadsheets *)

Lemma forallb_lstrip (s : pystr) :
  forallb Str.isspace (Str.lstrip s) = forallb Str.isspace s.
Proof.
  induction s as [|c s IH]; [reflexivity |].
  cbn [Str.lstrip]. destruct (Str.isspace c) eqn:Hc; [| reflexivity].
  cbn [forallb]. by rewrite Hc.
Qed.

Lemma truthy_lstrip (s : pystr) :
  Str.truthy (Str.lstrip s) = negb (forallb Str.isspace s).
Proof.
  induction s as [|c s IH]; [reflexivity |].
  cbn [Str.lstrip forallb]. destruct (Str.isspace c); [exact IH | reflexivity].
Qed.

Lemma forallb_rev {A} (p : A -> bool) (l : list A) : forallb p (rev l) = forallb p l.
Proof.
  induction l as [|a l IH]; [reflexivity |].
  cbn [rev forallb]. rewrite forallb_app, IH. cbn. by rewrite andb_true_r, andb_comm.
Qed.

Lemma truthy_rev (s : pystr) : Str.truthy (rev s) = Str.truthy s.
Proof.
  destruct s as [|c s]; [reflexivity |].
  cbn [rev]. by destruct (rev s).
Qed.

(** [s.strip()] is empty exactly when [s] holds white space only. *)
Lemma truthy_strip (s : pystr) :
  Str.truthy (Str.strip s) = negb (forallb Str.isspace s).
Proof.
  unfold Str.strip, Str.rstrip.
  by rewrite truthy_rev, truthy_lstrip, forallb_rev, forallb_lstrip.
Qed.

(** Two or more joined cells hold the delimiter, which is not blank. *)
Lemma join_two_not_blank (v1 v2 : pystr) (vs : list pystr) :
  forallb Str.isspace (Str.join (u " | ") (v1 :: v2 :: vs)) = false.
Proof.
  cbn [Str.join]. rewrite !forallb_app.
  replace (forallb Str.isspace (u " | ")) with false by reflexivity.
  by rewrite andb_false_l, andb_false_r.
Qed.

(** Which rows [add_row] keeps, in terms of the cells. *)
Lemma row_kept_iff (row : list (option pystr)) :
  Str.truthy (Str.strip (row_str row)) = true <->
  2 <= length (omap id row)
  \/ exists v, omap id row = [v] /\ forallb Str.isspace v = false.
Proof.
  rewrite truthy_strip, negb_true_iff. unfold row_str.
  destruct (omap id row) as [|v1 [|v2 vs]].
  - cbn. split; [discriminate |]. intros [H | (v & H & _)]; [lia | discriminate].
  - cbn [Str.join]. split.
    + intros H. right. by exists v1.
    + intros [H | (v & [= <-] & H)]; [cbn in H; lia | done].
  - rewrite join_two_not_blank. split; [| done]. intros _. left. cbn. lia.
Qed.

Lemma fold_add_row (ws : worksheet) (parts : list pystr) :
  fold_left add_row ws parts =
  (parts ++ List.filter (fun line => Str.truthy (Str.strip line)) (map row_str ws))%list.
Proof.
  revert parts. induction ws as [|row ws IH]; intros parts; cbn.
  - by rewrite app_nil_r.
  - rewrite IH. unfold add_row.
    destruct (Str.truthy (Str.strip (row_str row))); [| done].
    by rewrite <- app_assoc.
Qed.

(** [wb[title]] is the first worksheet of that title. *)
Lemma getitem_first (wb : list (string * worksheet)) (title : string) :
  title ∈ map fst wb -> getitem wb title = Ok (first_titled wb title).
Proof.
  unfold first_titled.
  induction wb as [|[t w] wb IH]; intros Hin; [by apply elem_of_nil in Hin |].
  cbn [getitem List.find fst]. case_bool_decide as Ht; [reflexivity |].
  apply IH. cbn [map fst] in Hin. apply elem_of_cons in Hin as [-> | Hin]; done.
Qed.

(** With distinct titles, the first worksheet of a title is the
    worksheet at that place. *)
Lemma first_titled_NoDup (wb : list (string * worksheet)) (title : string) (ws : worksheet) :
  NoDup (map fst wb) -> (title, ws) ∈ wb -> first_titled wb title = ws.
Proof.
  unfold first_titled.
  induction wb as [|[t w] wb IH]; intros Hnd Hin; [by apply elem_of_nil in Hin |].
  apply NoDup_cons in Hnd as [Hnotin Hnd]. cbn [List.find fst].
  apply elem_of_cons in Hin as [[= -> ->] | Hin].
  - by rewrite bool_decide_eq_true_2.
  - rewrite bool_decide_eq_false_2; [by apply IH |].
    intros ->. apply Hnotin. apply elem_of_map. by exists (title, ws).
Qed.

Lemma visited_rows_NoDup (wb : list (string * worksheet)) :
  NoDup (map fst wb) -> visited_rows wb = concat (map snd wb).
Proof.
  intros Hnd. unfold visited_rows. f_equal.
  assert (H : forall l, (forall x, x ∈ l -> x ∈ wb) ->
                        map (first_titled wb) (map fst l) = map snd l).
  { induction l as [|[t w] l IH]; intros Hl; [reflexivity |].
    cbn [map fst snd]. f_equal.
    - apply first_titled_NoDup; [done |]. apply Hl. by left.
    - apply IH. intros x Hx. apply Hl. by right. }
  by apply H.
Qed.

Lemma sheets_loop (wb : list (string * worksheet)) (titles : list string)
    (parts : list pystr) :
  (forall t, t ∈ titles -> t ∈ map fst wb) ->
  for_each (fun sheet parts => ws ← getitem wb sheet; Ok (fold_left add_row ws parts))
           titles parts
  = Ok (parts ++ List.filter (fun line => Str.truthy (Str.strip line))
                             (map row_str (concat (map (first_titled wb) titles))))%list.
Proof.
  revert parts. induction titles as [|t titles IH]; intros parts H; cbn.
  - by rewrite app_nil_r.
  - rewrite getitem_first by (apply H; by left). cbn.
    rewrite IH by (intros x Hx; apply H; by right).
    rewrite fold_add_row, map_app, List.filter_app. by rewrite <- app_assoc.
Qed.

(** The text of a workbook that opens. *)
Lemma parse_xlsx_opened (env : capabilities) (f : file)
    (sheets : list (string * worksheet)) :
  HAS_XLSX env = true ->
  extract_fails (io f) = false ->
  fmt f = Workbook sheets ->
  parse_xlsx env f =
    Ok (Str.join Str.nl
          (List.filter (fun line => Str.truthy (Str.strip line))
                       (map row_str (visited_rows sheets)))).
Proof.
  intros Hx Hio Hfmt. unfold parse_xlsx, load_workbook. rewrite Hx, Hio, Hfmt. cbn.
  by rewrite (sheets_loop sheets (map fst sheets) []).
Qed.

(** The claim fails: the third row has a non-null cell, and its line
    is left out. *)
Lemma C7_counterexample :
  parse_xlsx all_libraries ledger_xlsx = Ok (u "total | 42" ++ Str.nl ++ u "end")%list
  /\ xlsx_text_spec ledger_sheets = (u "total | 42" ++ Str.nl ++ u " " ++ Str.nl ++ u "end")%list
  /\ parse_xlsx all_libraries ledger_xlsx <> Ok (xlsx_text_spec ledger_sheets).
Proof. split; [reflexivity |]. split; [reflexivity |]. vm_compute. discriminate. Qed.

(** C7 (amended). For a workbook that opens, [parse_xlsx] goes
    through the sheet titles in workbook order and reads, for each
    title, the rows of the worksheet that [wb[title]] returns: the
    first worksheet of that title, which is the worksheet itself when
    the titles are distinct, so that the worksheets are then visited in
    workbook order.  It joins each row's non-null cell values with
    [" | "], keeps a row's line exactly when the line is not blank, and
    joins the kept lines with newlines.  A line is not blank exactly
    when the row has two or more non-null cells, or one non-null cell
    whose text is not all white space; so a row without non-null cells
    is never kept. *)
Theorem C7_parse_xlsx_keeps_non_blank_lines (env : capabilities) (f : file)
    (sheets : list (string * worksheet)) :
  HAS_XLSX env = true ->
  extract_fails (io f) = false ->
  fmt f = Workbook sheets ->
  parse_xlsx env f =
    Ok (Str.join Str.nl
          (List.filter (fun line => Str.truthy (Str.strip line))
                       (map row_str (visited_rows sheets))))
  /\ (NoDup (map fst sheets) -> visited_rows sheets = concat (map snd sheets))
  /\ (forall row, row_str row = Str.join (u " | ") (omap id row))
  /\ (forall row,
        Str.truthy (Str.strip (row_str row)) = true <->
        2 <= length (omap id row)
        \/ exists v, omap id row = [v] /\ forallb Str.isspace v = false).
Proof.
  intros Hx Hio Hfmt.
  split; [by apply parse_xlsx_opened |].
  split; [apply visited_rows_NoDup |].
  split; [reflexivity | apply row_kept_iff].
Qed.

Lemma C7_parse_xlsx_keeps_non_blank_lines_witness :
  parse_xlsx all_libraries ledger_xlsx =
    Ok (Str.join Str.nl
          (List.filter (fun line => Str.truthy (Str.strip line))
                       (map row_str (visited_rows ledger_sheets))))
  /\ (NoDup (map fst ledger_sheets) -> visited_rows ledger_sheets = concat (map snd ledger_sheets))
  /\ (forall row, row_str row = Str.join (u " | ") (omap id row))
  /\ (forall row,
        Str.truthy (Str.strip (row_str row)) = true <->
        2 <= length (omap id row)
        \/ exists v, omap id row = [v] /\ forallb Str.isspace v = false).
Proof.
  apply (C7_parse_xlsx_keeps_non_blank_lines all_libraries ledger_xlsx ledger_sheets).
  - reflexivity.
  - reflexivity.
  - reflexivity.
Defined.

(** Two worksheets with one title: the first is read twice, the second
    never. *)
Example parse_xlsx_reads_the_first_sheet_of_a_title :
  parse_xlsx all_libraries
    (File "twins.xlsx" (list_byte_of_string "PK-xlsx")
          (Workbook [("Data", [[Some (u "first")]]); ("Data", [[Some (u "second")]])]) []
          sample_mtime no_faults)
  = Ok (u "first" ++ Str.nl ++ u "first")%list.
Proof. reflexivity. Qed.

(** ** Loops that may raise *)
Section ForEach.

Context {A S : Type} (step : A -> S -> result S).

Lemma for_each_cons (a : A) (l : list A) (s : S) :
  for_each step (a :: l) s = (s' ← step a s; for_each step l s').
Proof. cbn. by destruct (step a s). Qed.

(** A property kept by every step holds when the loop ends. *)
Lemma for_each_invariant (P : S -> Prop) (l : list A) (s s' : S) :
  (forall a s s', a ∈ l -> P s -> step a s = Ok s' -> P s') ->
  P s -> for_each step l s = Ok s' -> P s'.
Proof.
  revert s. induction l as [|a l IH]; intros s Hstep Hs Hrun.
  - by injection Hrun as <-.
  - rewrite for_each_cons in Hrun.
    destruct (step a s) as [s1|e] eqn:Ha; [| discriminate]. cbn in Hrun.
    apply (IH s1); [| | done].
    + intros a' t t' Ha'. apply Hstep. by right.
    + apply (Hstep a s s1); [by left | done | done].
Qed.

(** When the loop ends, each element was stepped over: from a state
    the loop had reached, to a state the loop went on from. *)
Lemma for_each_elem (R : S -> S -> Prop) `{!PreOrder R} (l : list A) (s s' : S) (a : A) :
  (forall a s s', step a s = Ok s' -> R s s') ->
  for_each step l s = Ok s' -> a ∈ l ->
  exists s1 s2, R s s1 /\ step a s1 = Ok s2 /\ R s2 s'.
Proof.
  intros Hmono. revert s. induction l as [|b l IH]; intros s Hrun Hin.
  - by apply elem_of_nil in Hin.
  - rewrite for_each_cons in Hrun.
    destruct (step b s) as [s1|e] eqn:Hb; [| discriminate]. cbn in Hrun.
    assert (Hrest : R s1 s').
    { apply (for_each_invariant (R s1) l s1 s'); [| reflexivity | done].
      intros a' t t' _ Ht Hstep. etrans; [exact Ht |]. by eapply Hmono. }
    apply elem_of_cons in Hin as [-> | Hin].
    + exists s, s1. split_and!; [reflexivity | done | done].
    + destruct (IH s1 Hrun Hin) as (t1 & t2 & Ht1 & Hstep & Ht2).
      exists t1, t2. split_and!; [| done | done].
      etrans; [| exact Ht1]. by eapply Hmono.
Qed.

End ForEach.

(** ** Records of archives *)

#[local] Instance grows_preorder : PreOrder grows.
Proof.
  split.
  - intros s. by split.
  - intros s1 s2 s3 [H1 H2] [H3 H4]. split; [by etrans | set_solver].
Qed.

Lemma visit_grows (env : capabilities) pa (label dirpath : string) (f : file)
    (s s' : crawl_state) :
  visit env pa label dirpath f s = Ok s' -> grows s s'.
Proof.
  destruct s as [records seen], s' as [records' seen'].
  destruct (decide (Path.lower (Path.suffix (fname f)) ∈ SUPPORTED_EXTS env)) as [Hs | Hs];
    [| rewrite visit_unsupported by done; by intros [= <- <-]].
  destruct (decide (Path.lower (Path.suffix (fname f)) ∈ ARCHIVE_EXTS)) as [Ha | Ha].
  - rewrite visit_archive by done.
    destruct (pa _ f _) as [sub|e]; [| discriminate].
    cbn. intros [= <- <-]. split; [by apply prefix_app_r | done].
  - intros Hv.
    destruct (visit_extractable_cases _ _ _ _ _ _ _ _ _ Hs Ha Hv)
      as [(-> & -> & _) | (r & _ & _ & _ & _ & -> & ->)]; [done |].
    split; cbn; [by apply prefix_app_r | set_solver].
Qed.

Lemma visit_files_grows (env : capabilities) pa (label dirpath : string)
    (fs : list file) (s s' : crawl_state) :
  for_each (visit env pa label dirpath) fs s = Ok s' -> grows s s'.
Proof.
  apply (for_each_invariant _ (grows s)); [| reflexivity].
  intros f t t' _ Ht Hv. etrans; [exact Ht |]. by eapply visit_grows.
Qed.

(** When a crawl ends, every file of the walk was visited, and what
    its visit left in the state is still there at the end. *)
Lemma crawl_loop_visits (env : capabilities) (root : walk) (label dirpath : string)
    (fs : list file) (f : file) (st st' : crawl_state) :
  for_each (fun d : string * list file =>
              for_each (visit env (process_archive env) label d.1) d.2) root st = Ok st' ->
  (dirpath, fs) ∈ root -> f ∈ fs ->
  exists s1 s2,
    visit env (process_archive env) label dirpath f s1 = Ok s2 /\ grows s2 st'.
Proof.
  intros Hloop Hd Hf.
  destruct (for_each_elem _ grows root _ _ (dirpath, fs)
              ltac:(intros d t t'; apply visit_files_grows) Hloop Hd)
    as (t1 & t2 & _ & Hdir & Ht2).
  cbn in Hdir.
  destruct (for_each_elem _ grows fs _ _ f
              ltac:(intros g t t'; apply visit_grows) Hdir Hf)
    as (s1 & s2 & _ & Hv & Hs2).
  exists s1, s2. split; [done |]. by etrans.
Qed.

Lemma label_of_self (p : string) : label_of p p = p.
Proof. unfold label_of. by case_bool_decide. Qed.

(** Every record [process_archive] returns carries the label of this
    call, whatever label it had before. *)
Lemma process_archive_label (env : capabilities) (archive_path : string) (a : file)
    (parent_archive : string) (rs : list Doc.t) :
  process_archive env archive_path a parent_archive = Ok rs ->
  Forall (fun r => Doc.source_archive r = label_of archive_path parent_archive) rs.
Proof.
  rewrite process_archive_eq.
  destruct (unpack env archive_path a) as [[t|e]|]; try (intros [= <-]; by constructor).
  cbn zeta.
  destruct (match t with
            | Extracted => _
            | Untouched => _
            end) as [rs0|e]; [| discriminate].
  cbn. intros [= <-]. apply Forall_forall. by intros r (r0 & -> & _)%elem_of_map.
Qed.

(** The records of an archive met by a crawl are among the records of
    the crawl. *)
Lemma crawl_archive_records (env : capabilities) (root : walk) (label dirpath : string)
    (fs : list file) (b : file) (rs : list Doc.t) :
  crawl_directory env root label = Ok rs ->
  (dirpath, fs) ∈ root -> b ∈ fs ->
  Path.lower (Path.suffix (fname b)) ∈ ARCHIVE_EXTS ->
  exists inner,
    process_archive env (Path.join dirpath (fname b)) b (Path.join dirpath (fname b))
      = Ok inner
    /\ forall r, r ∈ inner -> r ∈ rs.
Proof.
  unfold crawl_directory, crawl_directory_with. intros Hrun Hd Hb Hext.
  destruct (for_each _ root _) as [[rs' seen]|e] eqn:Hloop; [| discriminate].
  cbn in Hrun. injection Hrun as ->.
  destruct (crawl_loop_visits _ _ _ _ _ _ _ _ Hloop Hd Hb) as ([rs1 seen1] & s2 & Hv & [Hpre _]).
  rewrite visit_archive in Hv by done.
  destruct (process_archive env _ b _) as [inner|e]; [| discriminate].
  cbn in Hv. injection Hv as <-. exists inner. split; [done |].
  intros r Hr. cbn in Hpre. destruct Hpre as [k ->].
  apply elem_of_app. left. apply elem_of_app. by right.
Qed.

(** C3. Every record [process_archive] returns carries one label, the
    one this call computed and passed to the crawl of the unpacked
    tree.  In particular for an archive found inside the unpacked
    tree: the inner call labels its records with the inner archive's
    own path, and the enclosing call returns each of them with its own
    label instead. *)
Theorem C3_nested_records_carry_enclosing_label (env : capabilities)
    (archive_path : string) (a : file) (parent_archive : string) (rs : list Doc.t) :
  process_archive env archive_path a parent_archive = Ok rs ->
  Forall (fun r => Doc.source_archive r = label_of archive_path parent_archive) rs
  /\ forall dirpath fs b,
       unpack env archive_path a = Some (Ok Extracted) ->
       (dirpath, fs) ∈ members a -> b ∈ fs ->
       Path.lower (Path.suffix (fname b)) ∈ ARCHIVE_EXTS ->
       exists inner,
         process_archive env (Path.join dirpath (fname b)) b (Path.join dirpath (fname b))
           = Ok inner
         /\ Forall (fun r => Doc.source_archive r = Path.join dirpath (fname b)) inner
         /\ forall r, r ∈ inner ->
              Doc.set_source_archive (label_of archive_path parent_archive) r ∈ rs.
Proof.
  intros Hrun. split; [by eapply process_archive_label |].
  intros dirpath fs b Hun Hd Hb Hext.
  rewrite process_archive_eq, Hun in Hrun. cbn zeta in Hrun.
  destruct (crawl_directory env (members a) _) as [rs0|e] eqn:Hcrawl; [| discriminate].
  cbn in Hrun. injection Hrun as <-.
  destruct (crawl_archive_records _ _ _ _ _ _ _ Hcrawl Hd Hb Hext) as (inner & Hinner & Hsub).
  exists inner. split_and!; [done | |].
  - apply process_archive_label in Hinner. by rewrite label_of_self in Hinner.
  - intros r Hr. apply elem_of_map. exists r. split; [done | by apply Hsub].
Qed.

Lemma C3_nested_records_carry_enclosing_label_witness :
  Forall (fun r => Doc.source_archive r = label_of "storage/outer.zip" "storage/outer.zip")
         outer_records
  /\ forall dirpath fs b,
       unpack all_libraries "storage/outer.zip" outer_zip = Some (Ok Extracted) ->
       (dirpath, fs) ∈ members outer_zip -> b ∈ fs ->
       Path.lower (Path.suffix (fname b)) ∈ ARCHIVE_EXTS ->
       exists inner,
         process_archive all_libraries (Path.join dirpath (fname b)) b
                         (Path.join dirpath (fname b)) = Ok inner
         /\ Forall (fun r => Doc.source_archive r = Path.join dirpath (fname b)) inner
         /\ forall r, r ∈ inner ->
              Doc.set_source_archive (label_of "storage/outer.zip" "storage/outer.zip") r
              ∈ outer_records.
Proof.
  apply (C3_nested_records_carry_enclosing_label all_libraries "storage/outer.zip"
           outer_zip "storage/outer.zip" outer_records).
  vm_compute. reflexivity.
Defined.

Example nested_archive_labels :
  map (fun r => (Doc.file_path r, Doc.source_archive r)) outer_records
  = [("/tmp/tmpb/a.txt", "storage/outer.zip"); ("/tmp/tmpb/b.docx", "storage/outer.zip")]
  /\ (forall rs, process_archive all_libraries "/tmp/tmpa/inner.zip" inner_zip
                   "/tmp/tmpa/inner.zip" = Ok rs ->
                 map Doc.source_archive rs = ["/tmp/tmpa/inner.zip"; "/tmp/tmpa/inner.zip"]).
Proof. split; [reflexivity |]. vm_compute. by intros rs [= <-]. Qed.

(** ** Duplicates *)

Lemma direct_app (l1 l2 : list Doc.t) : direct (l1 ++ l2) = (direct l1 ++ direct l2)%list.
Proof. apply List.filter_app. Qed.

Lemma direct_labelled (label : string) (rs : list Doc.t) :
  label <> "" -> Forall (fun r => Doc.source_archive r = label) rs -> direct rs = [].
Proof.
  intros Hl H. induction H as [|r rs Hr _ IH]; [reflexivity |].
  cbn. rewrite bool_decide_eq_false_2 by (by rewrite Hr). exact IH.
Qed.

Lemma archive_path_nonempty (dirpath name : string) :
  Path.lower (Path.suffix name) ∈ ARCHIVE_EXTS -> Path.join dirpath name <> "".
Proof.
  intros Hext E. apply join_empty_inv in E. subst name.
  vm_compute in Hext. discriminate Hext.
Qed.

(** In a list with distinct fingerprints, a fingerprint that occurs
    belongs to exactly one record. *)
Lemma NoDup_one_record (rs : list Doc.t) (h : string) :
  NoDup (map Doc.file_hash rs) -> h ∈ map Doc.file_hash rs ->
  length (List.filter (fun r => bool_decide (Doc.file_hash r = h)) rs) = 1.
Proof.
  induction rs as [|r rs IH]; intros Hnd Hin; [by apply elem_of_nil in Hin |].
  cbn in Hnd, Hin. apply NoDup_cons in Hnd as [Hr Hnd]. cbn [List.filter].
  case_bool_decide as E.
  - subst h. cbn. f_equal. apply length_zero_iff_nil.
    destruct (List.filter _ rs) as [|r' l] eqn:Hf; [done |].
    assert (Hr' : In r' (List.filter (fun r0 => bool_decide (Doc.file_hash r0 = Doc.file_hash r)) rs))
      by (rewrite Hf; by left).
    apply List.filter_In in Hr' as [Hr'1 Hr'2%bool_decide_eq_true].
    exfalso. apply Hr. apply elem_of_map. exists r'. split; [done |].
    by apply list_elem_of_In.
  - apply IH; [done |]. apply elem_of_cons in Hin as [-> | Hin]; done.
Qed.

Lemma visit_deduplicated (env : capabilities) (dirpath : string) (f : file)
    (st st' : crawl_state) :
  deduplicated st ->
  visit env (process_archive env) "" dirpath f st = Ok st' ->
  deduplicated st'.
Proof.
  destruct st as [records seen], st' as [records' seen']. intros [Hnd Hseen].
  destruct (decide (Path.lower (Path.suffix (fname f)) ∈ SUPPORTED_EXTS env)) as [Hs | Hs];
    [| rewrite visit_unsupported by done; by intros [= <- <-]].
  destruct (decide (Path.lower (Path.suffix (fname f)) ∈ ARCHIVE_EXTS)) as [Ha | Ha].
  - rewrite visit_archive by done.
    destruct (process_archive env _ f _) as [sub|e] eqn:Hsub; [| discriminate].
    cbn. intros [= <- <-]. unfold deduplicated. cbn [fst snd].
    apply process_archive_label in Hsub. rewrite label_of_self in Hsub.
    rewrite direct_app, (direct_labelled _ sub (archive_path_nonempty _ _ Ha) Hsub).
    by rewrite app_nil_r.
  - intros Hv.
    destruct (visit_extractable_cases _ _ _ _ _ _ _ _ _ Hs Ha Hv)
      as [(-> & -> & _) | (r & _ & _ & Hnew & Hlab & -> & ->)]; [done |].
    unfold deduplicated. cbn [fst snd]. rewrite direct_app.
    replace (direct [r]) with [r]
      by (cbn; by rewrite bool_decide_eq_true_2).
    rewrite map_app. cbn [map]. split.
    + apply NoDup_app. split_and!; [done | | apply NoDup_singleton].
      intros h Hh ->%list_elem_of_singleton. apply Hnew. by apply Hseen.
    + intros h. rewrite elem_of_union, elem_of_singleton, elem_of_app,
        list_elem_of_singleton, Hseen. tauto.
Qed.

Lemma crawl_loop_deduplicated (env : capabilities) (root : walk) (st st' : crawl_state) :
  deduplicated st ->
  for_each (fun d : string * list file =>
              for_each (visit env (process_archive env) "" d.1) d.2) root st = Ok st' ->
  deduplicated st'.
Proof.
  apply for_each_invariant. intros d t t' _ Ht.
  apply for_each_invariant; [| done].
  intros f s s' _. apply visit_deduplicated.
Qed.

(** The claim fails: the crawl of the unpacked archive starts with an
    empty set of seen fingerprints, so the content found in the tree
    and again in the archive yields two records with one fingerprint. *)
Lemma C1_counterexample :
  crawl_directory all_libraries duplicated_root "" = Ok duplicated_records
  /\ map (fun r => (Doc.file_path r, Doc.file_hash r)) duplicated_records
     = [("storage/a.txt", "793953ee398d864ec40252df9554c3e6");
        ("/tmp/tmpa/b.txt", "793953ee398d864ec40252df9554c3e6")]
  /\ ~ NoDup (map Doc.file_hash duplicated_records).
Proof.
  split; [vm_compute; reflexivity |]. split; [reflexivity |].
  intros H. cbn in H. apply NoDup_cons in H as [H _]. apply H. by left.
Qed.

(** C1 (amended). In a crawl started from one root, the records of the
    files found in the tree itself (those with no archive label) have
    pairwise distinct fingerprints, and every extractable file of the
    tree that could be hashed has exactly one such record with the
    fingerprint of its bytes: byte-identical files outside archives
    yield one record. *)
Theorem C1_direct_records_have_unique_fingerprints (env : capabilities) (root : walk)
    (rs : list Doc.t) :
  crawl_directory env root "" = Ok rs ->
  NoDup (map Doc.file_hash (direct rs))
  /\ forall dirpath fs f,
       (dirpath, fs) ∈ root -> f ∈ fs ->
       Path.lower (Path.suffix (fname f)) ∈ dom (PARSERS env) ->
       hash_fails (io f) = false ->
       length (List.filter
                 (fun r => bool_decide (Doc.file_hash r = Hashlib.hexdigest (bytes f)))
                 (direct rs)) = 1.
Proof.
  unfold crawl_directory, crawl_directory_with. intros Hrun.
  destruct (for_each _ root _) as [[rs' seen]|e] eqn:Hloop; [| discriminate].
  cbn in Hrun. injection Hrun as ->.
  assert (Hinv : deduplicated (rs, seen)).
  { eapply crawl_loop_deduplicated; [| exact Hloop].
    split; [constructor | intros h; cbn; set_solver]. }
  destruct Hinv as [Hnd Hseen]. cbn [fst snd] in *. split; [exact Hnd |].
  intros dirpath fs f Hd Hf Hext Hhash.
  apply NoDup_one_record; [exact Hnd |]. apply Hseen.
  destruct (crawl_loop_visits _ _ _ _ _ _ _ _ Hloop Hd Hf)
    as ([rs1 seen1] & [rs2 seen2] & Hv & [_ Hsub]).
  cbn in Hsub. apply Hsub.
  assert (Hs : Path.lower (Path.suffix (fname f)) ∈ SUPPORTED_EXTS env)
    by (unfold SUPPORTED_EXTS; set_solver).
  assert (Ha : Path.lower (Path.suffix (fname f)) ∉ ARCHIVE_EXTS).
  { intros Ha. apply (archive_not_parsed env) in Ha.
    apply elem_of_dom in Hext as [p Hp]. congruence. }
  destruct (visit_extractable_cases _ _ _ _ _ _ _ _ _ Hs Ha Hv)
    as [(_ & -> & [Hfail | Hin]) | (r & Hr & _ & _ & _ & _ & ->)].
  - congruence.
  - exact Hin.
  - rewrite Hr. set_solver.
Qed.

Lemma C1_direct_records_have_unique_fingerprints_witness :
  NoDup (map Doc.file_hash (direct duplicated_records))
  /\ forall dirpath fs f,
       (dirpath, fs) ∈ duplicated_root -> f ∈ fs ->
       Path.lower (Path.suffix (fname f)) ∈ dom (PARSERS all_libraries) ->
       hash_fails (io f) = false ->
       length (List.filter
                 (fun r => bool_decide (Doc.file_hash r = Hashlib.hexdigest (bytes f)))
                 (direct duplicated_records)) = 1.
Proof.
  apply (C1_direct_records_have_unique_fingerprints all_libraries duplicated_root
           duplicated_records).
  vm_compute. reflexivity.
Defined.

(** * Further properties of the crawler *)

(** ** More on loops *)
Section ForEachMore.

Context {A S : Type} (step : A -> S -> result S).

Lemma for_each_app (l1 l2 : list A) (s : S) :
  for_each step (l1 ++ l2) s = (s' ← for_each step l1 s; for_each step l2 s').
Proof.
  revert s. induction l1 as [|a l1 IH]; intros s; [reflexivity |].
  cbn [app]. rewrite !for_each_cons. destruct (step a s) as [s1|e]; [| reflexivity].
  cbn. apply IH.
Qed.

(** Elements whose step leaves every state alone can be left out. *)
Lemma for_each_skip (keep : A -> bool) (l : list A) (s : S) :
  (forall a s, a ∈ l -> keep a = false -> step a s = Ok s) ->
  for_each step (List.filter keep l) s = for_each step l s.
Proof.
  revert s. induction l as [|a l IH]; intros s H; [reflexivity |].
  cbn [List.filter]. destruct (keep a) eqn:Ha.
  - rewrite !for_each_cons. destruct (step a s) as [s1|e]; [| reflexivity].
    cbn. apply IH. intros b t Hb. apply H. by right.
  - rewrite for_each_cons, (H a s) by (done || by left). cbn.
    apply IH. intros b t Hb. apply H. by right.
Qed.

Lemma for_each_ext (step' : A -> S -> result S) (l : list A) (s : S) :
  (forall a s, a ∈ l -> step a s = step' a s) ->
  for_each step l s = for_each step' l s.
Proof.
  revert s. induction l as [|a l IH]; intros s H; [reflexivity |].
  rewrite !for_each_cons, <- (H a s) by (by left).
  destruct (step a s) as [s1|e]; [| reflexivity].
  cbn. apply IH. intros b t Hb. apply H. by right.
Qed.

End ForEachMore.

Lemma for_each_map {A B S} (g : A -> B) (step : B -> S -> result S) (l : list A) (s : S) :
  for_each step (map g l) s = for_each (fun a => step (g a)) l s.
Proof.
  revert s. induction l as [|a l IH]; intros s; [reflexivity |].
  cbn [map]. rewrite !for_each_cons. destruct (step (g a) s); [| reflexivity].
  cbn. apply IH.
Qed.

(** The two nested loops of [crawl_directory] as one loop over the
    files in walk order. *)
Lemma crawl_loop_flat (env : capabilities) pa (label : string) (root : walk)
    (st : crawl_state) :
  for_each (fun d : string * list file => for_each (visit env pa label d.1) d.2) root st
  = for_each (fun e : string * file => visit env pa label e.1 e.2) (entries root) st.
Proof.
  revert st. induction root as [|[dirpath fs] root IH]; intros st; [reflexivity |].
  unfold entries. cbn [map concat]. rewrite for_each_cons, for_each_app, for_each_map.
  cbn [fst snd]. destruct (for_each _ fs st) as [st1|e]; [| reflexivity].
  cbn. apply IH.
Qed.

(** ** Files the crawl passes over *)

(** Leaving out the files a filter drops changes nothing when the
    visit of each dropped file leaves the state alone. *)
Lemma crawl_filter (env : capabilities) (keep : file -> bool) (root : walk)
    (label : string) :
  (forall dirpath f st, keep f = false ->
     visit env (process_archive env) label dirpath f st = Ok st) ->
  crawl_directory env (map (fun d => (d.1, List.filter keep d.2)) root) label
  = crawl_directory env root label.
Proof.
  intros H. unfold crawl_directory, crawl_directory_with. f_equal.
  rewrite for_each_map. apply for_each_ext. intros [dirpath fs] st _. cbn [fst snd].
  apply for_each_skip. intros f t _ Hf. by apply H.
Qed.

(** X2. Files with an unsupported extension have no effect on a crawl:
    its outcome, records or exception, is the one of the crawl of the
    tree without them. *)
Theorem X2_unsupported_files_are_invisible (env : capabilities) (root : walk)
    (label : string) :
  crawl_directory env (supported_files env root) label = crawl_directory env root label.
Proof.
  apply crawl_filter. intros dirpath f st Hf.
  apply visit_unsupported. by apply bool_decide_eq_false in Hf.
Qed.

Lemma visit_unhashable (env : capabilities) pa (label dirpath : string) (f : file)
    (st : crawl_state) :
  hash_fails (io f) = true -> ext_of f ∉ ARCHIVE_EXTS ->
  visit env pa label dirpath f st = Ok st.
Proof.
  intros Hh Ha. destruct st as [records seen].
  destruct (decide (ext_of f ∈ SUPPORTED_EXTS env)) as [Hs | Hs];
    [| by apply visit_unsupported].
  rewrite visit_extractable by done. by rewrite file_hash_digest, Hh.
Qed.

(** X3. A file that is no archive and cannot be opened for hashing is
    passed over: the outcome of the crawl is the one of the crawl of
    the tree without such files, whatever their extension. *)
Theorem X3_unhashable_files_are_passed_over (env : capabilities) (root : walk)
    (label : string) :
  crawl_directory env (hashable_files root) label = crawl_directory env root label.
Proof.
  apply crawl_filter. intros dirpath f st Hf.
  apply orb_false_iff in Hf as [Hh Ha].
  apply negb_false_iff in Hh. apply bool_decide_eq_false in Ha.
  by apply visit_unhashable.
Qed.

(** ** Archives that cannot be unpacked *)

Lemma crawl_directory_nil (env : capabilities) (label : string) :
  crawl_directory env [] label = Ok [].
Proof. reflexivity. Qed.

(** X4. A [.zip] or [.7z] file that cannot be unpacked (it cannot be
    opened, it is no archive of that kind, or it is a [.7z] file while
    [py7zr] is missing) yields no record and does not stop the crawl:
    the loop goes on with the state it had. *)
Theorem X4_failed_unpack_yields_no_record (env : capabilities) (label dirpath : string)
    (a : file) (st : crawl_state) :
  (ext_of a = ".zip" /\ (extract_fails (io a) = true \/ fmt a <> Zip))
  \/ (ext_of a = ".7z"
      /\ (HAS_7Z env = false \/ extract_fails (io a) = true \/ fmt a <> SevenZ)) ->
  (forall parent, process_archive env (Path.join dirpath (fname a)) a parent = Ok [])
  /\ visit env (process_archive env) label dirpath a st = Ok st.
Proof.
  intros H.
  assert (Harch : ext_of a ∈ ARCHIVE_EXTS)
    by (destruct H as [[-> _] | [-> _]]; unfold ARCHIVE_EXTS; set_solver).
  assert (Hsuf : Path.lower (Path.suffix (Path.join dirpath (fname a))) = ext_of a).
  { unfold ext_of. rewrite suffix_join; [done |].
    intros E. unfold ext_of in Harch. rewrite E in Harch.
    vm_compute in Harch. discriminate Harch. }
  assert (Hpa : forall parent,
             process_archive env (Path.join dirpath (fname a)) a parent = Ok []).
  { intros parent. rewrite process_archive_eq. unfold unpack. rewrite Hsuf.
    destruct H as [[-> Hz] | [-> Hz]]; cbn.
    - unfold unpack_zip. destruct Hz as [-> | Hz]; [done |].
      destruct (extract_fails (io a)); [done |]. by destruct (fmt a).
    - unfold unpack_7z. destruct (HAS_7Z env); [| done]. cbn.
      destruct Hz as [Hz | [-> | Hz]]; [done | done |].
      destruct (extract_fails (io a)); [done |]. by destruct (fmt a). }
  split; [exact Hpa |].
  destruct st as [records seen]. rewrite visit_archive by done.
  rewrite Hpa. cbn. by rewrite app_nil_r.
Qed.

Lemma X4_failed_unpack_yields_no_record_witness :
  let a := text_file "broken.zip" "this is no zip archive" in
  let st : crawl_state := ([], ∅) in
  (forall parent, process_archive all_libraries (Path.join "storage" (fname a)) a parent = Ok [])
  /\ visit all_libraries (process_archive all_libraries) "" "storage" a st = Ok st.
Proof.
  apply (X4_failed_unpack_yields_no_record all_libraries "" "storage"
           (text_file "broken.zip" "this is no zip archive") ([], ∅)).
  left. split; [reflexivity |]. right. discriminate.
Defined.

(** ** Exceptions of the parsers *)

Lemma or_empty_ok (r : result pystr) : exists s, or_empty r = Ok s.
Proof. destruct r; by eexists. Qed.

Lemma parse_txt_raises (f : file) (e : exn) :
  parse_txt f = Raise e -> e = OSError /\ extract_fails (io f) = true.
Proof.
  unfold parse_txt, parse_txt_from, open_read.
  destruct (extract_fails (io f)); [by intros [= <-] |].
  destruct (Codecs.decode Codecs.utf_8 (bytes f)); [discriminate |].
  destruct (Codecs.decode Codecs.cp1251 (bytes f)); discriminate.
Qed.

Lemma extract_text_raises (env : capabilities) (filepath : string) (f : file) (e : exn) :
  extract_text env filepath f = Raise e ->
  e = OSError /\ extract_fails (io f) = true
  /\ (Path.lower (Path.suffix filepath) = ".txt" \/ Path.lower (Path.suffix filepath) = ".csv").
Proof.
  unfold extract_text.
  destruct (PARSERS_lookup env) as (Htxt & Hdocx & Hxlsx & Hxls & Hpdf & Hcsv).
  set (ext := Path.lower (Path.suffix filepath)).
  destruct (PARSERS env !! ext) as [parser|] eqn:Hp; [| discriminate].
  assert (Hdom : ext ∈ dom (PARSERS env)) by (apply elem_of_dom; by eexists).
  rewrite dom_PARSERS in Hdom.
  assert (Hnever : forall r : result pystr, Some <$> or_empty r <> Raise e)
    by (intros r; destruct (or_empty_ok r) as [s ->]; discriminate).
  assert (Hcases : ext = ".txt" \/ ext = ".docx" \/ ext = ".xlsx" \/ ext = ".xls"
                   \/ ext = ".pdf" \/ ext = ".csv") by set_solver.
  destruct Hcases as [E | [E | [E | [E | [E | E]]]]]; rewrite E in Hp.
  - rewrite Htxt in Hp. injection Hp as <-.
    destruct (parse_txt f) as [s|e'] eqn:Hparse; [discriminate |].
    intros [= ->]. apply parse_txt_raises in Hparse as [-> ->]. auto.
  - rewrite Hdocx in Hp. injection Hp as <-. unfold parse_docx.
    destruct (negb (HAS_DOCX env)); [discriminate |]. intros H. by apply Hnever in H.
  - rewrite Hxlsx in Hp. injection Hp as <-. unfold parse_xlsx.
    destruct (negb (HAS_XLSX env)); [discriminate |]. intros H. by apply Hnever in H.
  - rewrite Hxls in Hp. injection Hp as <-. unfold parse_xlsx.
    destruct (negb (HAS_XLSX env)); [discriminate |]. intros H. by apply Hnever in H.
  - rewrite Hpdf in Hp. injection Hp as <-. unfold parse_pdf.
    destruct (negb (HAS_PDF env)); [discriminate |]. intros H. by apply Hnever in H.
  - rewrite Hcsv in Hp. injection Hp as <-.
    destruct (parse_txt f) as [s|e'] eqn:Hparse; [discriminate |].
    intros [= ->]. apply parse_txt_raises in Hparse as [-> ->]. auto.
Qed.

(** A parser behind [try ... except Exception] gives the empty text
    when its library raises. *)
Lemma parse_docx_failed (env : capabilities) (f : file) :
  HAS_DOCX env = false \/ extract_fails (io f) = true \/ (forall ps, fmt f <> Docx ps) ->
  parse_docx env f = Ok [].
Proof.
  unfold parse_docx, docx_Document. intros [-> | [-> | H]]; [done | by destruct (HAS_DOCX env) |].
  destruct (HAS_DOCX env); [| done]. cbn.
  destruct (extract_fails (io f)); [done |].
  destruct (fmt f) eqn:E; try done. by destruct (H paragraphs).
Qed.

Lemma parse_xlsx_failed (env : capabilities) (f : file) :
  HAS_XLSX env = false \/ extract_fails (io f) = true \/ (forall sh, fmt f <> Workbook sh) ->
  parse_xlsx env f = Ok [].
Proof.
  unfold parse_xlsx, load_workbook. intros [-> | [-> | H]]; [done | by destruct (HAS_XLSX env) |].
  destruct (HAS_XLSX env); [| done]. cbn.
  destruct (extract_fails (io f)); [done |].
  destruct (fmt f) eqn:E; try done. by destruct (H sheets).
Qed.

Lemma parse_pdf_failed (env : capabilities) (f : file) :
  HAS_PDF env = false \/ extract_fails (io f) = true \/ (forall pg, fmt f <> Pdf pg) ->
  parse_pdf env f = Ok [].
Proof.
  unfold parse_pdf, pdf_pages. intros [-> | [-> | H]]; [done | by destruct (HAS_PDF env) |].
  destruct (HAS_PDF env); [| done]. cbn.
  destruct (extract_fails (io f)); [done |].
  destruct (fmt f) eqn:E; try done. by destruct (H pages).
Qed.

(** X5. [extract_text] raises exactly when a [.txt] or [.csv] file
    cannot be opened, and then it raises [OSError]; a word-processor,
    spreadsheet or PDF file whose library is missing, that cannot be
    opened, or that its library cannot read (a corrupt file) gives the
    empty text instead. *)
Theorem X5_extract_text_raises_only_for_plain_text (env : capabilities)
    (filepath : string) (f : file) :
  let ext := Path.lower (Path.suffix filepath) in
  (forall e, extract_text env filepath f = Raise e <->
             e = OSError /\ extract_fails (io f) = true
             /\ (ext = ".txt" \/ ext = ".csv"))
  /\ (ext = ".docx" ->
      HAS_DOCX env = false \/ extract_fails (io f) = true \/ (forall ps, fmt f <> Docx ps) ->
      extract_text env filepath f = Ok (Some []))
  /\ (ext = ".xlsx" \/ ext = ".xls" ->
      HAS_XLSX env = false \/ extract_fails (io f) = true
      \/ (forall sh, fmt f <> Workbook sh) ->
      extract_text env filepath f = Ok (Some []))
  /\ (ext = ".pdf" ->
      HAS_PDF env = false \/ extract_fails (io f) = true \/ (forall pg, fmt f <> Pdf pg) ->
      extract_text env filepath f = Ok (Some [])).
Proof.
  cbn zeta.
  destruct (PARSERS_lookup env) as (Htxt & Hdocx & Hxlsx & Hxls & Hpdf & Hcsv).
  split_and!.
  - intros e. split; [apply extract_text_raises |].
    intros (-> & Hfail & Hext). unfold extract_text.
    assert (Hparse : parse_txt f = Raise OSError)
      by (unfold parse_txt, parse_txt_from, open_read; by rewrite Hfail).
    destruct Hext as [-> | ->]; [rewrite Htxt | rewrite Hcsv]; by rewrite Hparse.
  - intros E H. unfold extract_text. by rewrite E, Hdocx, parse_docx_failed.
  - intros [E | E] H; unfold extract_text; rewrite E.
    + by rewrite Hxlsx, parse_xlsx_failed.
    + by rewrite Hxls, parse_xlsx_failed.
  - intros E H. unfold extract_text. by rewrite E, Hpdf, parse_pdf_failed.
Qed.

Lemma X5_extract_text_raises_only_for_plain_text_witness :
  extract_text all_libraries "storage/locked.txt" locked_txt = Raise OSError
  /\ extract_text all_libraries "storage/broken.docx"
       (text_file "broken.docx" "no word-processor file") = Ok (Some []).
Proof.
  split.
  - apply (proj1 (X5_extract_text_raises_only_for_plain_text all_libraries
                    "storage/locked.txt" locked_txt) OSError).
    split; [reflexivity |]. split; [reflexivity |]. left. reflexivity.
  - apply (proj1 (proj2 (X5_extract_text_raises_only_for_plain_text all_libraries
                           "storage/broken.docx"
                           (text_file "broken.docx" "no word-processor file")))).
    + reflexivity.
    + right. right. intros ps. discriminate.
Defined.

(** ** Crawls that end with an exception *)

(** Induction on a file with the files packed in it as smaller. *)
Lemma file_nested_ind (P : file -> Prop) :
  (forall f, Forall (fun d : string * list file => Forall P d.2) (members f) -> P f) ->
  forall f, P f.
Proof.
  intros H. fix IH 1. intros [name bs fm ms mt faults]. apply H. cbn [members].
  induction ms as [|[dirpath fs] ms IHms]; constructor; [| exact IHms].
  cbn [snd]. induction fs as [|g fs IHfs]; constructor; [apply IH | exact IHfs].
Qed.

Lemma steady_eq (f : file) :
  steady f = negb (extract_fails (io f)) && negb (stat_fails (io f))
             && renders (mtime f) && tree_steady (members f).
Proof. by destruct f. Qed.

Lemma for_each_raises {A S} (step : A -> S -> result S) (l : list A) (s : S) (e : exn) :
  for_each step l s = Raise e -> exists a s1, a ∈ l /\ step a s1 = Raise e.
Proof.
  revert s. induction l as [|a l IH]; intros s; [discriminate |].
  rewrite for_each_cons. destruct (step a s) as [s1|e'] eqn:Ha; cbn.
  - intros (b & t & Hb & Ht)%IH. exists b, t. split; [by right | done].
  - intros [= ->]. exists a, s. split; [by left | done].
Qed.

(** A time that cannot be rendered gives one of three exceptions. *)
Lemma fromtimestamp_raises (t : timestamp) (e : exn) :
  fromtimestamp_isoformat t = Raise e -> late_exception e /\ renders t = false.
Proof. unfold late_exception. destruct t; intros [= <-]; auto. Qed.

(** A visit that raises: the unpacker raised, or the file failed after
    it was hashed. *)
Lemma visit_raises (env : capabilities) pa (label dirpath : string) (f : file)
    (st : crawl_state) (e : exn) :
  visit env pa label dirpath f st = Raise e ->
  pa (Path.join dirpath (fname f)) f (Path.join dirpath (fname f)) = Raise e
  \/ (late_exception e
      /\ (extract_fails (io f) = true \/ stat_fails (io f) = true
          \/ renders (mtime f) = false)).
Proof.
  destruct st as [records seen].
  destruct (decide (ext_of f ∈ SUPPORTED_EXTS env)) as [Hs | Hs];
    [| by rewrite visit_unsupported].
  destruct (decide (ext_of f ∈ ARCHIVE_EXTS)) as [Ha | Ha].
  - rewrite visit_archive by done.
    destruct (pa _ f _) as [sub|e']; [discriminate |]. intros [= ->]. by left.
  - rewrite visit_extractable by done. rewrite file_hash_digest.
    destruct (hash_fails (io f)); [discriminate |].
    case_bool_decide; [discriminate |].
    destruct (extract_text env _ f) as [[text|]|e'] eqn:Hx; cbn.
    + unfold os_stat. destruct (stat_fails (io f)).
      * intros [= <-]. right. unfold late_exception. auto.
      * cbn. destruct (fromtimestamp_isoformat (mtime f)) as [iso|e'] eqn:Ht;
          [discriminate |].
        intros [= ->]. apply fromtimestamp_raises in Ht as [He Ht]. right. auto.
    + discriminate.
    + intros [= ->]. apply extract_text_raises in Hx as (-> & Hx & _).
      right. unfold late_exception. auto.
Qed.

Lemma crawl_raises (env : capabilities) (root : walk) (label : string) (e : exn) :
  Forall (fun d : string * list file =>
            Forall (fun f => forall path parent e,
                      process_archive env path f parent = Raise e ->
                      late_exception e /\ steady f = false) d.2) root ->
  crawl_directory env root label = Raise e ->
  late_exception e /\ tree_steady root = false.
Proof.
  intros Hsub. unfold crawl_directory, crawl_directory_with.
  destruct (for_each _ root _) as [st|e'] eqn:Hloop; [discriminate |].
  intros [= ->].
  apply for_each_raises in Hloop as ([dirpath fs] & s1 & Hd & Hdir).
  apply for_each_raises in Hdir as (f & s2 & Hf & Hv). cbn [fst snd] in *.
  assert (Hf' : late_exception e /\ steady f = false).
  { apply visit_raises in Hv as [Hv | [He Hv]].
    - rewrite Forall_forall in Hsub. specialize (Hsub _ Hd).
      rewrite Forall_forall in Hsub. by eapply Hsub.
    - split; [done |]. rewrite steady_eq.
      destruct Hv as [-> | [-> | ->]]; cbn; [done | |];
        by rewrite ?andb_false_r. }
  destruct Hf' as [He Hf']. split; [done |].
  unfold tree_steady. apply not_true_iff_false. intros Hall.
  rewrite forallb_forall in Hall. apply list_elem_of_In, Hall in Hd. cbn in Hd.
  rewrite forallb_forall in Hd. apply list_elem_of_In, Hd in Hf. congruence.
Qed.

Lemma process_archive_raises (env : capabilities) (f : file) :
  forall path parent e,
    process_archive env path f parent = Raise e -> late_exception e /\ steady f = false.
Proof.
  induction f as [f IH] using file_nested_ind. intros path parent e.
  rewrite process_archive_eq.
  destruct (unpack env path f) as [[[]|]|]; try discriminate; cbn zeta.
  destruct (crawl_directory env (members f) _) as [rs|e'] eqn:Hc; [discriminate |].
  cbn. intros [= ->]. apply crawl_raises in Hc as [He Hc]; [| exact IH].
  split; [done |]. rewrite steady_eq, Hc. by rewrite andb_false_r.
Qed.

(** X6. A crawl ends with an exception only when some file of the
    tree, possibly packed in an archive at any depth, cannot be opened
    by its parser, cannot be stated, or has a modification time that
    [datetime.fromtimestamp] cannot render; the exception is then
    [OSError], [ValueError] or [OverflowError].  Exceptions of the
    document and archive libraries never leave the crawl. *)
Theorem X6_crawl_raises_only_on_late_failure (env : capabilities) (root : walk)
    (label : string) (e : exn) :
  crawl_directory env root label = Raise e ->
  (e = OSError \/ e = ValueError \/ e = OverflowError) /\ tree_steady root = false.
Proof.
  apply crawl_raises. apply Forall_forall. intros d _. apply Forall_forall.
  intros f _. apply process_archive_raises.
Qed.

Lemma X6_crawl_raises_only_on_late_failure_witness :
  let root : walk :=
    [("storage", [text_file "first.txt" "kept";
                  zip_file "pack.zip" [("/tmp/tmpa", [far_future_txt])]])] in
  (ValueError = OSError \/ ValueError = ValueError \/ ValueError = OverflowError)
  /\ tree_steady root = false.
Proof.
  apply (X6_crawl_raises_only_on_late_failure all_libraries
           [("storage", [text_file "first.txt" "kept";
                         zip_file "pack.zip" [("/tmp/tmpa", [far_future_txt])]])]
           "" ValueError).
  vm_compute. reflexivity.
Defined.

(** On a tree without late failures the crawl returns its records. *)
Corollary crawl_of_steady_tree_returns (env : capabilities) (root : walk)
    (label : string) :
  tree_steady root = true -> exists rs, crawl_directory env root label = Ok rs.
Proof.
  intros Hs. destruct (crawl_directory env root label) as [rs|e] eqn:Hc; [by eexists |].
  apply crawl_raises in Hc as [_ Hc]; [congruence |].
  apply Forall_forall. intros d _. apply Forall_forall.
  intros f _. apply process_archive_raises.
Qed.

(** A modification time in the year 33658 ends the crawl, as a file
    that vanished does. *)
Example crawl_raises_on_far_future_file :
  crawl_directory all_libraries
    [("storage", [text_file "first.txt" "kept"; far_future_txt])] "" = Raise ValueError.
Proof. vm_compute. reflexivity. Qed.

(** ** The shape of the records *)

Lemma lstrip_clean_head (s : pystr) : clean_head (Str.lstrip s) = true.
Proof.
  induction s as [|c s IH]; [reflexivity |].
  cbn. destruct (Str.isspace c) eqn:Hc; [exact IH |]. cbn. by rewrite Hc.
Qed.

Lemma lstrip_of_clean_head (s : pystr) : clean_head s = true -> Str.lstrip s = s.
Proof.
  destruct s as [|c s]; [reflexivity |]. cbn. by intros ->%negb_true_iff.
Qed.

Lemma lstrip_snoc (l : pystr) (c : N) :
  Str.isspace c = false -> exists x, Str.lstrip (l ++ [c])%list = (x ++ [c])%list.
Proof.
  intros Hc. induction l as [|a l IH]; cbn.
  - rewrite Hc. by exists [].
  - destruct (Str.isspace a); [exact IH |]. by exists (a :: l).
Qed.

Lemma rstrip_clean_head (s : pystr) :
  clean_head s = true -> clean_head (Str.rstrip s) = true.
Proof.
  destruct s as [|c s]; [reflexivity |]. cbn [clean_head].
  intros Hc%negb_true_iff. unfold Str.rstrip. cbn [rev].
  destruct (lstrip_snoc (rev s) c Hc) as [x ->].
  rewrite rev_app_distr. cbn. by rewrite Hc.
Qed.

Lemma rstrip_rstrip (s : pystr) : Str.rstrip (Str.rstrip s) = Str.rstrip s.
Proof.
  unfold Str.rstrip. rewrite rev_involutive.
  by rewrite (lstrip_of_clean_head _ (lstrip_clean_head (rev s))).
Qed.

(** Stripping a stripped text changes nothing. *)
Lemma strip_strip (s : pystr) : Str.strip (Str.strip s) = Str.strip s.
Proof.
  unfold Str.strip.
  rewrite (lstrip_of_clean_head (Str.rstrip (Str.lstrip s)))
    by apply rstrip_clean_head, lstrip_clean_head.
  apply rstrip_rstrip.
Qed.

Lemma hex_length (bs : list Z) : String.length (Hashlib.hex bs) = 2 * length bs.
Proof. induction bs as [|b bs IH]; [reflexivity |]. cbn. rewrite IH. lia. Qed.

Lemma le_bytes_length (n : nat) (x : Z) : length (Hashlib.le_bytes n x) = n.
Proof. unfold Hashlib.le_bytes. by rewrite length_map, length_seq. Qed.

(** An MD5 digest is printed with 32 hexadecimal digits. *)
Lemma hexdigest_length (h : list byte) : String.length (Hashlib.hexdigest h) = 32.
Proof.
  unfold Hashlib.hexdigest, Hashlib.digest. rewrite hex_length.
  destruct (Hashlib.blocks _ _ _) as [[[a b] c] d].
  by rewrite !length_app, !le_bytes_length.
Qed.

Lemma set_source_archive_well_formed (env : capabilities) (label : string) (r : Doc.t) :
  well_formed env r -> well_formed env (Doc.set_source_archive label r).
Proof. by destruct r. Qed.

Lemma visit_well_formed (env : capabilities) (label dirpath : string) (f : file)
    (st st' : crawl_state) :
  (forall path parent rs, process_archive env path f parent = Ok rs ->
                          Forall (well_formed env) rs) ->
  Forall (well_formed env) st.1 ->
  visit env (process_archive env) label dirpath f st = Ok st' ->
  Forall (well_formed env) st'.1.
Proof.
  destruct st as [records seen], st' as [records' seen']. cbn [fst]. intros Hsub Hrec.
  destruct (decide (ext_of f ∈ SUPPORTED_EXTS env)) as [Hs | Hs];
    [| rewrite visit_unsupported by done; by intros [= <- <-]].
  destruct (decide (ext_of f ∈ ARCHIVE_EXTS)) as [Ha | Ha].
  - rewrite visit_archive by done.
    destruct (process_archive env _ f _) as [sub|e] eqn:Hpa; [| discriminate].
    cbn. intros [= <- <-]. apply Forall_app. split; [done |]. by eapply Hsub.
  - rewrite visit_extractable by done. rewrite file_hash_digest.
    destruct (hash_fails (io f)); [by intros [= <- <-] |].
    case_bool_decide; [by intros [= <- <-] |].
    destruct (extract_text env _ f) as [[text|]|e]; cbn; [| by intros [= <- <-] | discriminate].
    unfold os_stat. destruct (stat_fails (io f)); [discriminate |].
    cbn. destruct (fromtimestamp_isoformat (mtime f)) as [iso|e]; [| discriminate].
    cbn. intros [= <- <-]. apply Forall_app. split; [done |].
    apply Forall_singleton. unfold well_formed, record_of. cbn.
    pose proof (supported_non_archive_parsed _ _ Hs Ha) as Hp.
    apply elem_of_dom in Hp. fold (ext_of f) in Hp |- *.
    split_and!.
    + reflexivity.
    + rewrite dom_PARSERS in Hp |- *.
      assert (Hcases : ext_of f = ".txt" \/ ext_of f = ".docx" \/ ext_of f = ".xlsx"
                       \/ ext_of f = ".xls" \/ ext_of f = ".pdf" \/ ext_of f = ".csv")
        by set_solver.
      destruct Hcases as [E | [E | [E | [E | [E | E]]]]]; rewrite E; cbn; set_solver.
    + apply suffix_join. by eapply supported_suffix_nonempty.
    + apply strip_strip.
    + apply hexdigest_length.
    + lia.
Qed.

Lemma crawl_well_formed (env : capabilities) (root : walk) (label : string)
    (rs : list Doc.t) :
  Forall (fun d : string * list file =>
            Forall (fun f => forall path parent rs,
                      process_archive env path f parent = Ok rs ->
                      Forall (well_formed env) rs) d.2) root ->
  crawl_directory env root label = Ok rs ->
  Forall (well_formed env) rs.
Proof.
  intros Hsub. unfold crawl_directory, crawl_directory_with.
  destruct (for_each _ root _) as [st|e] eqn:Hloop; [| discriminate].
  cbn. intros [= <-]. revert Hloop.
  apply (for_each_invariant _ (fun st => Forall (well_formed env) st.1)); [| constructor].
  intros [dirpath fs] s s' Hd Hs. cbn [fst snd].
  apply (for_each_invariant _ (fun st => Forall (well_formed env) st.1)); [| done].
  intros f t t' Hf Ht. apply visit_well_formed; [| done].
  rewrite Forall_forall in Hsub. specialize (Hsub _ Hd).
  rewrite Forall_forall in Hsub. by apply Hsub.
Qed.

Lemma process_archive_well_formed (env : capabilities) (f : file) :
  forall path parent rs,
    process_archive env path f parent = Ok rs -> Forall (well_formed env) rs.
Proof.
  induction f as [f IH] using file_nested_ind. intros path parent rs.
  rewrite process_archive_eq.
  destruct (unpack env path f) as [[t|e]|]; try (intros [= <-]; by constructor).
  cbn zeta.
  assert (Hmap : forall rs0 label,
             Forall (well_formed env) rs0 ->
             Forall (well_formed env) (map (Doc.set_source_archive label) rs0)).
  { intros rs0 label H. apply Forall_forall. intros r (r0 & -> & Hr0)%elem_of_map.
    apply set_source_archive_well_formed. rewrite Forall_forall in H. by apply H. }
  destruct t.
  - destruct (crawl_directory env (members f) _) as [rs0|e] eqn:Hc; [| discriminate].
    cbn. intros [= <-]. apply Hmap. by eapply crawl_well_formed.
  - rewrite crawl_directory_nil. cbn. intros [= <-]. constructor.
Qed.

(** X7. Every record of a crawl, also one that comes out of an archive
    at any depth, is well formed: its [extension] is the lower-case
    suffix of its [file_name] without the dot and is one of the six
    registered extensions, [file_path] ends in the same suffix, its
    [content] has no white space at either end, its [file_hash] has 32
    characters, and its [size_bytes] is not negative. *)
Theorem X7_records_are_well_formed (env : capabilities) (root : walk) (label : string)
    (rs : list Doc.t) :
  crawl_directory env root label = Ok rs -> Forall (well_formed env) rs.
Proof.
  apply crawl_well_formed. apply Forall_forall. intros d _. apply Forall_forall.
  intros f _. apply process_archive_well_formed.
Qed.

Lemma X7_records_are_well_formed_witness :
  Forall (well_formed all_libraries) duplicated_records.
Proof.
  apply (X7_records_are_well_formed all_libraries duplicated_root "" duplicated_records).
  vm_compute. reflexivity.
Defined.

(** ** Where the records come from *)

(** X8. In the records of a crawl, [source_archive] is either the
    label the crawl was started with or the path of an archive file
    lying in the walked tree itself, also for a record that comes out
    of an archive nested deeper: the paths of nested archives, which
    lie in temporary directories, never show up. *)
Theorem X8_source_archive_names_an_archive_of_the_walk (env : capabilities)
    (root : walk) (label : string) (rs : list Doc.t) :
  crawl_directory env root label = Ok rs ->
  Forall (fun r =>
            Doc.source_archive r = label
            \/ exists dirpath fs a,
                 (dirpath, fs) ∈ root /\ a ∈ fs /\ (ext_of a ∈ ARCHIVE_EXTS)
                 /\ Doc.source_archive r = Path.join dirpath (fname a)) rs.
Proof.
  intros Hrun. apply Forall_forall. revert Hrun.
  unfold crawl_directory, crawl_directory_with.
  destruct (for_each _ root _) as [st|e] eqn:Hloop; [| discriminate].
  cbn. intros [= <-]. revert Hloop.
  set (P := fun st : crawl_state => forall r, r ∈ st.1 ->
    Doc.source_archive r = label
    \/ exists dirpath fs a,
         (dirpath, fs) ∈ root /\ a ∈ fs /\ (ext_of a ∈ ARCHIVE_EXTS)
         /\ Doc.source_archive r = Path.join dirpath (fname a)).
  apply (for_each_invariant _ P); [| intros r Hr; by apply elem_of_nil in Hr].
  intros [dirpath fs] s s' Hd Hs. cbn [fst snd].
  apply (for_each_invariant _ P); [| done].
  intros f [records seen] [records' seen'] Hf Ht.
  destruct (decide (ext_of f ∈ SUPPORTED_EXTS env)) as [Hsup | Hsup];
    [| rewrite visit_unsupported by done; by intros [= <- <-]].
  destruct (decide (ext_of f ∈ ARCHIVE_EXTS)) as [Ha | Ha].
  - rewrite visit_archive by done.
    destruct (process_archive env _ f _) as [sub|e] eqn:Hpa; [| discriminate].
    cbn. intros [= <- <-] r [Hr | Hr]%elem_of_app; [by apply Ht |].
    right. exists dirpath, fs, f. split_and!; [done | done | done |].
    apply process_archive_label in Hpa. rewrite label_of_self, Forall_forall in Hpa.
    by apply Hpa.
  - intros Hv.
    destruct (visit_extractable_cases _ _ _ _ _ _ _ _ _ Hsup Ha Hv)
      as [(-> & -> & _) | (r0 & _ & _ & _ & Hlab & -> & ->)]; [done |].
    intros r [Hr | ->%list_elem_of_singleton]%elem_of_app; [by apply Ht | by left].
Qed.

Lemma X8_source_archive_names_an_archive_of_the_walk_witness :
  let root : walk := [("storage", [outer_zip])] in
  Forall (fun r =>
            Doc.source_archive r = ""
            \/ exists dirpath fs a,
                 (dirpath, fs) ∈ root /\ a ∈ fs /\ (ext_of a ∈ ARCHIVE_EXTS)
                 /\ Doc.source_archive r = Path.join dirpath (fname a)) outer_records.
Proof.
  apply (X8_source_archive_names_an_archive_of_the_walk all_libraries
           [("storage", [outer_zip])] "" outer_records).
  vm_compute. reflexivity.
Defined.

(** The record of a file that is hashed for the first time. *)
Lemma visit_extractable_record (env : capabilities) pa (label dirpath : string)
    (f : file) (records records' : list Doc.t) (seen seen' : gset string) :
  ext_of f ∈ SUPPORTED_EXTS env -> ext_of f ∉ ARCHIVE_EXTS ->
  hash_fails (io f) = false -> Hashlib.hexdigest (bytes f) ∉ seen ->
  visit env pa label dirpath f (records, seen) = Ok (records', seen') ->
  exists text iso,
    extract_text env (Path.join dirpath (fname f)) f = Ok (Some text)
    /\ stat_fails (io f) = false
    /\ mtime f = Local iso
    /\ records' = (records ++ [record_of label dirpath f (Hashlib.hexdigest (bytes f)) text
                                        (Z.of_nat (length (bytes f)), iso)])%list
    /\ seen' = {[ Hashlib.hexdigest (bytes f) ]} ∪ seen.
Proof.
  intros Hs Ha Hh Hseen. rewrite visit_extractable by done.
  rewrite file_hash_digest, Hh. rewrite bool_decide_eq_false_2 by done.
  pose proof (extract_text_not_None env (Path.join dirpath (fname f)) f) as Hn.
  rewrite suffix_join in Hn by (by eapply supported_suffix_nonempty).
  specialize (Hn (supported_non_archive_parsed _ _ Hs Ha)).
  destruct (extract_text env _ f) as [[text|]|e]; [| done | discriminate].
  cbn. unfold os_stat. destruct (stat_fails (io f)); [discriminate |].
  cbn. destruct (mtime f) as [iso| | |]; try discriminate.
  cbn. intros [= <- <-]. by exists text, iso.
Qed.

Lemma first_seen_loop (env : capabilities) (l : list (string * file))
    (records records' : list Doc.t) (seen seen' : gset string) :
  for_each (fun e : string * file => visit env (process_archive env) "" e.1 e.2) l
           (records, seen) = Ok (records', seen') ->
  map (fun r => (Doc.file_path r, Doc.file_hash r)) (direct records')
  = (map (fun r => (Doc.file_path r, Doc.file_hash r)) (direct records)
     ++ first_seen seen (map key_of (List.filter (hashable env) l)))%list.
Proof.
  revert records seen. induction l as [|[dirpath f] l IH]; intros records seen.
  - cbn. intros [= <- <-]. by rewrite app_nil_r.
  - rewrite for_each_cons. cbn [fst snd].
    destruct (visit env _ "" dirpath f (records, seen)) as [[records1 seen1]|e] eqn:Hv;
      [| discriminate].
    cbn [mbind result_bind]. intros Hrest. rewrite (IH _ _ Hrest). clear IH Hrest.
    cbn [List.filter]. unfold hashable at 2. cbn [fst snd].
    destruct (decide (ext_of f ∈ SUPPORTED_EXTS env)) as [Hs | Hs].
    2:{ rewrite visit_unsupported in Hv by done. injection Hv as <- <-.
        rewrite bool_decide_eq_false_2; [done |].
        intros Hp. apply Hs. unfold SUPPORTED_EXTS. set_solver. }
    destruct (decide (ext_of f ∈ ARCHIVE_EXTS)) as [Ha | Ha].
    { rewrite visit_archive in Hv by done.
      destruct (process_archive env _ f _) as [sub|e] eqn:Hpa; [| discriminate].
      cbn in Hv. injection Hv as <- <-.
      rewrite bool_decide_eq_false_2
        by (intros [p Hp]%elem_of_dom; by rewrite (archive_not_parsed env _ Ha) in Hp).
      apply process_archive_label in Hpa. rewrite label_of_self in Hpa.
      rewrite direct_app, (direct_labelled _ sub (archive_path_nonempty _ _ Ha) Hpa).
      by rewrite app_nil_r. }
    rewrite bool_decide_eq_true_2
      by (apply elem_of_dom; by apply supported_non_archive_parsed).
    destruct (hash_fails (io f)) eqn:Hh.
    { rewrite visit_unhashable in Hv by done. by injection Hv as <- <-. }
    cbn [andb negb map key_of first_seen fst snd].
    case_bool_decide as Hseen.
    { rewrite visit_extractable in Hv by done.
      rewrite file_hash_digest, Hh, bool_decide_eq_true_2 in Hv by done.
      by injection Hv as <- <-. }
    destruct (visit_extractable_record _ _ _ _ _ _ _ _ _ Hs Ha Hh Hseen Hv)
      as (text & iso & _ & _ & _ & -> & ->).
    rewrite direct_app. cbn. by rewrite map_app, <- app_assoc.
Qed.

(** X9. Among files with the same bytes the first one in walk order
    is the one recorded: the paths and fingerprints of the records of
    the tree itself are, in order, those of the files that have a
    parser and can be hashed, each fingerprint at its first
    occurrence. *)
Theorem X9_first_file_in_walk_order_is_recorded (env : capabilities) (root : walk)
    (rs : list Doc.t) :
  crawl_directory env root "" = Ok rs ->
  map (fun r => (Doc.file_path r, Doc.file_hash r)) (direct rs)
  = first_seen ∅ (map key_of (List.filter (hashable env) (entries root))).
Proof.
  unfold crawl_directory, crawl_directory_with. rewrite crawl_loop_flat.
  destruct (for_each _ (entries root) _) as [[records seen]|e] eqn:Hloop; [| discriminate].
  cbn. intros [= <-]. by rewrite (first_seen_loop _ _ _ _ _ _ Hloop).
Qed.

Lemma X9_first_file_in_walk_order_is_recorded_witness :
  map (fun r => (Doc.file_path r, Doc.file_hash r)) (direct duplicated_records)
  = first_seen ∅ (map key_of (List.filter (hashable all_libraries) (entries duplicated_root))).
Proof.
  apply (X9_first_file_in_walk_order_is_recorded all_libraries duplicated_root
           duplicated_records).
  vm_compute. reflexivity.
Defined.

Lemma elem_of_direct (rs : list Doc.t) (r : Doc.t) :
  r ∈ direct rs <-> r ∈ rs /\ Doc.source_archive r = "".
Proof.
  unfold direct. rewrite !list_elem_of_In, List.filter_In, bool_decide_eq_true.
  done.
Qed.

(** X10. Every record of the tree itself describes one file of the
    walk: the file could be hashed and stated, its modification time
    could be rendered, [extract_text] returned a text for it, and the
    record holds the joined path, the file name, the extension, the
    number of bytes, the rendered modification time, the stripped text
    and the MD5 digest of the bytes of that file. *)
Theorem X10_direct_records_describe_files (env : capabilities) (root : walk)
    (rs : list Doc.t) :
  crawl_directory env root "" = Ok rs ->
  Forall (fun r =>
            exists dirpath fs f text iso,
              (dirpath, fs) ∈ root /\ f ∈ fs
              /\ hash_fails (io f) = false /\ stat_fails (io f) = false
              /\ mtime f = Local iso
              /\ extract_text env (Path.join dirpath (fname f)) f = Ok (Some text)
              /\ r = record_of "" dirpath f (Hashlib.hexdigest (bytes f)) text
                               (Z.of_nat (length (bytes f)), iso))
         (direct rs).
Proof.
  intros Hrun. apply Forall_forall. revert Hrun.
  unfold crawl_directory, crawl_directory_with.
  destruct (for_each _ root _) as [st|e] eqn:Hloop; [| discriminate].
  cbn. intros [= <-]. revert Hloop.
  set (P := fun st : crawl_state => forall r, r ∈ direct st.1 ->
    exists dirpath fs f text iso,
      (dirpath, fs) ∈ root /\ f ∈ fs
      /\ hash_fails (io f) = false /\ stat_fails (io f) = false
      /\ mtime f = Local iso
      /\ extract_text env (Path.join dirpath (fname f)) f = Ok (Some text)
      /\ r = record_of "" dirpath f (Hashlib.hexdigest (bytes f)) text
                       (Z.of_nat (length (bytes f)), iso)).
  apply (for_each_invariant _ P); [| intros r Hr; by apply elem_of_nil in Hr].
  intros [dirpath fs] s s' Hd Hs. cbn [fst snd].
  apply (for_each_invariant _ P); [| done].
  intros f [records seen] [records' seen'] Hf Ht.
  destruct (decide (ext_of f ∈ SUPPORTED_EXTS env)) as [Hsup | Hsup];
    [| rewrite visit_unsupported by done; by intros [= <- <-]].
  destruct (decide (ext_of f ∈ ARCHIVE_EXTS)) as [Ha | Ha].
  - rewrite visit_archive by done.
    destruct (process_archive env _ f _) as [sub|e] eqn:Hpa; [| discriminate].
    cbn. intros [= <- <-]. unfold P. cbn [fst].
    apply process_archive_label in Hpa. rewrite label_of_self in Hpa.
    rewrite direct_app, (direct_labelled _ sub (archive_path_nonempty _ _ Ha) Hpa).
    by rewrite app_nil_r.
  - intros Hv.
    destruct (hash_fails (io f)) eqn:Hh;
      [rewrite visit_unhashable in Hv by done; by injection Hv as <- <- |].
    destruct (decide (Hashlib.hexdigest (bytes f) ∈ seen)) as [Hseen | Hseen].
    + rewrite visit_extractable in Hv by done.
      rewrite file_hash_digest, Hh, bool_decide_eq_true_2 in Hv by done.
      by injection Hv as <- <-.
    + destruct (visit_extractable_record _ _ _ _ _ _ _ _ _ Hsup Ha Hh Hseen Hv)
        as (text & iso & Hx & Hstat & Hiso & -> & ->).
      unfold P. cbn [fst]. rewrite direct_app.
      intros r [Hr | Hr]%elem_of_app; [by apply Ht |].
      apply elem_of_direct in Hr as [->%list_elem_of_singleton _].
      exists dirpath, fs, f, text, iso. by split_and!.
Qed.

Lemma X10_direct_records_describe_files_witness :
  Forall (fun r =>
            exists dirpath fs f text iso,
              (dirpath, fs) ∈ duplicated_root /\ f ∈ fs
              /\ hash_fails (io f) = false /\ stat_fails (io f) = false
              /\ mtime f = Local iso
              /\ extract_text all_libraries (Path.join dirpath (fname f)) f = Ok (Some text)
              /\ r = record_of "" dirpath f (Hashlib.hexdigest (bytes f)) text
                               (Z.of_nat (length (bytes f)), iso))
         (direct duplicated_records).
Proof.
  apply (X10_direct_records_describe_files all_libraries duplicated_root duplicated_records).
  vm_compute. reflexivity.
Defined.

(** ** More on the store

    The properties below are about the rows and their fingerprints,
    not about the row identifiers, which depend on how many rows were
    dropped before: the counter of [AUTOINCREMENT] advances for a
    dropped row too. *)

Lemma load_documents (records : list Doc.t) (file : option Sqlite.database) :
  Sqlite.documents (Sqlite.load_to_sqlite records file).1
  = Sqlite.documents (fold_left Sqlite.insert_record records
                                (default Sqlite.created file, 0)).1.
Proof. reflexivity. Qed.

(** X11. [load_to_sqlite] keeps the uniqueness of [file_hash]: when no
    two rows of the store share a fingerprint before the load, none do
    after it, whatever the record set holds (also the same fingerprint
    several times). *)
Theorem X11_load_keeps_fingerprints_unique (records : list Doc.t)
    (file : option Sqlite.database) :
  NoDup (Sqlite.hashes (default Sqlite.created file)) ->
  NoDup (Sqlite.hashes (Sqlite.load_to_sqlite records file).1).
Proof.
  intros Hnd. unfold Sqlite.hashes at 1. rewrite load_documents.
  destruct (load_loop records (default Sqlite.created file) 0)
    as (new & Hdocs & _ & Hnew & Hfresh & _).
  cbn zeta in Hdocs. rewrite Hdocs, map_app. apply NoDup_app. split_and!; [done | | done].
  intros h Hh (x & -> & Hx)%elem_of_map. by apply (Hfresh x Hx).
Qed.

Lemma X11_load_keeps_fingerprints_unique_witness :
  NoDup (Sqlite.hashes (Sqlite.load_to_sqlite duplicated_records None).1).
Proof.
  apply (X11_load_keeps_fingerprints_unique duplicated_records None).
  constructor.
Defined.

Lemma find_elem_of {A} (p : A -> bool) (l : list A) (x : A) :
  List.find p l = Some x -> x ∈ l /\ p x = true.
Proof. intros H%List.find_some. by rewrite list_elem_of_In. Qed.

(** X12. Loading into a store that does not exist yet gives one row
    per distinct fingerprint of the record set: the fingerprints of the
    rows are distinct and are those of the records, the logged count is
    the number of rows, it is at most the number of records, and it is
    that number exactly when no two records share a fingerprint. *)
Theorem X12_fresh_store_has_one_row_per_fingerprint (records : list Doc.t) :
  let after := (Sqlite.load_to_sqlite records None).1 in
  let inserted := (Sqlite.load_to_sqlite records None).2 in
  NoDup (Sqlite.hashes after)
  /\ (forall h, h ∈ Sqlite.hashes after <-> h ∈ map Doc.file_hash records)
  /\ inserted = length (Sqlite.documents after)
  /\ inserted <= length records
  /\ (inserted = length records <-> NoDup (map Doc.file_hash records)).
Proof.
  cbn zeta. unfold Sqlite.hashes. rewrite load_documents.
  unfold Sqlite.load_to_sqlite. cbn [fst snd default].
  destruct (load_loop records Sqlite.created 0)
    as (new & Hdocs & Hn & Hnew & Hfresh & Hall).
  cbn zeta in *. cbn [Sqlite.created Sqlite.documents app] in Hdocs.
  set (st := fold_left Sqlite.insert_record records (Sqlite.created, 0)) in *.
  unfold Sqlite.hashes in Hall. rewrite Hdocs in *. cbn in Hn. rewrite Hn. clear Hn.
  assert (Hsub : forall h, h ∈ map (fun x => Doc.file_hash (Sqlite.doc x)) new ->
                           h ∈ map Doc.file_hash records).
  { intros h (x & -> & Hx)%elem_of_map. destruct (Hfresh x Hx) as [_ Hfind].
    apply find_elem_of in Hfind as [Hin _]. apply elem_of_map. by eexists. }
  assert (Hsup : forall h, h ∈ map Doc.file_hash records ->
                           h ∈ map (fun x => Doc.file_hash (Sqlite.doc x)) new).
  { intros h (r & -> & Hr)%elem_of_map. by apply Hall. }
  assert (Hle : length new <= length records).
  { rewrite <- (length_map (fun x => Doc.file_hash (Sqlite.doc x)) new),
      <- (length_map Doc.file_hash records).
    apply submseteq_length, NoDup_submseteq; done. }
  split_and!; [done | split; auto | done | done |].
  split.
  - intros Hlen.
    assert (Hperm : map (fun x => Doc.file_hash (Sqlite.doc x)) new
                    ≡ₚ map Doc.file_hash records).
    { apply submseteq_length_Permutation; [by apply NoDup_submseteq |].
      rewrite !length_map. lia. }
    by rewrite <- Hperm.
  - intros Hnd. apply Nat.le_antisymm; [done |].
    rewrite <- (length_map (fun x => Doc.file_hash (Sqlite.doc x)) new),
      <- (length_map Doc.file_hash records).
    apply submseteq_length, NoDup_submseteq; done.
Qed.

(** ** Walks without archives *)

Lemma no_archives_elem (root : walk) (dirpath : string) (fs : list file) (f : file) :
  no_archives root = true -> (dirpath, fs) ∈ root -> f ∈ fs -> ext_of f ∉ ARCHIVE_EXTS.
Proof.
  unfold no_archives. rewrite forallb_forall. intros H Hd Hf.
  apply list_elem_of_In, H in Hd. cbn in Hd. rewrite forallb_forall in Hd.
  apply list_elem_of_In, Hd in Hf. apply negb_true_iff in Hf.
  by apply bool_decide_eq_false in Hf.
Qed.

(** X14. In a walk that holds no archive file, as the unpacked tree of
    an archive without inner archives, all records of the crawl have
    pairwise distinct fingerprints and carry the label of the crawl,
    whatever that label is. *)
Theorem X14_walk_without_archives_has_no_duplicates (env : capabilities) (root : walk)
    (label : string) (rs : list Doc.t) :
  no_archives root = true ->
  crawl_directory env root label = Ok rs ->
  NoDup (map Doc.file_hash rs)
  /\ Forall (fun r => Doc.source_archive r = label) rs.
Proof.
  intros Hno. unfold crawl_directory, crawl_directory_with.
  destruct (for_each _ root _) as [st|e] eqn:Hloop; [| discriminate].
  cbn. intros [= <-]. revert Hloop.
  set (P := fun st : crawl_state =>
    (NoDup (map Doc.file_hash st.1)
     /\ Forall (fun r => Doc.source_archive r = label) st.1)
    /\ forall h, h ∈ st.2 <-> h ∈ map Doc.file_hash st.1).
  intros Hloop. enough (HP : P st) by apply HP. revert Hloop.
  apply (for_each_invariant _ P).
  2:{ split; [split; constructor |]. intros h. cbn. set_solver. }
  intros [dirpath fs] s s' Hd Hs. cbn [fst snd].
  apply (for_each_invariant _ P); [| done].
  intros f [records seen] [records' seen'] Hf [[Hnd Hlab] Hseen].
  pose proof (no_archives_elem _ _ _ _ Hno Hd Hf) as Ha.
  destruct (decide (ext_of f ∈ SUPPORTED_EXTS env)) as [Hsup | Hsup];
    [| rewrite visit_unsupported by done; by intros [= <- <-]].
  intros Hv.
  destruct (visit_extractable_cases _ _ _ _ _ _ _ _ _ Hsup Ha Hv)
    as [(-> & -> & _) | (r & _ & _ & Hnew & Hr & -> & ->)]; [done |].
  unfold P. cbn [fst snd] in *. rewrite map_app. cbn [map]. split_and!.
  - apply NoDup_app. split_and!; [done | | apply NoDup_singleton].
    intros h Hh ->%list_elem_of_singleton. apply Hnew. by apply Hseen.
  - apply Forall_app. split; [done | by apply Forall_singleton].
  - intros h. rewrite elem_of_union, elem_of_singleton, elem_of_app,
      list_elem_of_singleton, Hseen. tauto.
Qed.

Lemma X14_walk_without_archives_has_no_duplicates_witness :
  NoDup (map Doc.file_hash unpacked_records)
  /\ Forall (fun r => Doc.source_archive r = "storage/pack.zip") unpacked_records.
Proof.
  apply (X14_walk_without_archives_has_no_duplicates all_libraries unpacked_walk
           "storage/pack.zip" unpacked_records).
  - reflexivity.
  - vm_compute. reflexivity.
Defined.

(** ** More on plain text *)

Lemma utf8_ascii (bs : list N) :
  forallb (fun b => (b <? 128)%N) bs = true -> Codecs.utf8 bs = Some bs.
Proof.
  induction bs as [|b bs IH]; [reflexivity |].
  cbn [forallb]. intros [Hb Hbs]%andb_true_iff.
  cbn [Codecs.utf8]. rewrite Hb, (IH Hbs). reflexivity.
Qed.

Lemma cp1251_ascii (bs : list N) :
  forallb (fun b => (b <? 128)%N) bs = true -> mapM Codecs.cp1251_char bs = Some bs.
Proof.
  intros H. apply mapM_Some. induction bs as [|b bs IH]; [constructor |].
  cbn [forallb] in H. apply andb_true_iff in H as [Hb Hbs].
  constructor; [| by apply IH]. unfold Codecs.cp1251_char. by rewrite Hb.
Qed.

Lemma forallb_map {A B} (p : B -> bool) (g : A -> B) (l : list A) :
  forallb p (map g l) = forallb (fun a => p (g a)) l.
Proof. induction l as [|a l IH]; [reflexivity |]. cbn. by rewrite IH. Qed.

(** X15. On a file whose bytes are all ASCII the three encodings of
    [parse_txt] give the same text, the bytes read as code points, so
    the extracted text does not depend on the order in which they are
    tried; only line ends are rewritten. *)
Theorem X15_ascii_text_is_read_alike_in_every_encoding (f : file) :
  ascii_only (bytes f) = true ->
  (forall enc, Codecs.decode enc (bytes f) = Some (map Byte.to_N (bytes f)))
  /\ parse_txt f =
       if extract_fails (io f) then Raise OSError
       else Ok (Codecs.newlines (map Byte.to_N (bytes f))).
Proof.
  intros Hascii.
  assert (H : forallb (fun b => (b <? 128)%N) (map Byte.to_N (bytes f)) = true)
    by (by rewrite forallb_map).
  assert (Hdec : forall enc, Codecs.decode enc (bytes f) = Some (map Byte.to_N (bytes f))).
  { intros []; cbn [Codecs.decode]; [by apply utf8_ascii | by apply cp1251_ascii | done]. }
  split; [exact Hdec |].
  apply (parse_txt_from_first _ [] [Codecs.cp1251; Codecs.latin_1] Codecs.utf_8);
    [done | constructor | apply Hdec].
Qed.

Lemma X15_ascii_text_is_read_alike_in_every_encoding_witness :
  let f := text_file "notes.txt" "plain text" in
  (forall enc, Codecs.decode enc (bytes f) = Some (map Byte.to_N (bytes f)))
  /\ parse_txt f =
       if extract_fails (io f) then Raise OSError
       else Ok (Codecs.newlines (map Byte.to_N (bytes f))).
Proof.
  apply (X15_ascii_text_is_read_alike_in_every_encoding (text_file "notes.txt" "plain text")).
  reflexivity.
Defined.

Lemma cp1251_char_None (b : byte) :
  Codecs.cp1251_char (Byte.to_N b) = None <-> b = x98.
Proof. split; [| by intros ->]. destruct b; vm_compute; congruence. Qed.

(** Windows-1251 decodes every byte sequence without the byte 0x98. *)
Lemma cp1251_decode_None (bs : list byte) :
  Codecs.decode Codecs.cp1251 bs = None <-> x98 ∈ bs.
Proof.
  cbn [Codecs.decode]. split.
  - intros H%mapM_None_1. apply Exists_exists in H as (n & Hin & Hn).
    apply elem_of_map in Hin as (b & -> & Hb).
    apply cp1251_char_None in Hn. by subst.
  - intros Hin. apply mapM_None_2, Exists_exists.
    exists (Byte.to_N x98). split; [| reflexivity].
    apply elem_of_map. by exists x98.
Qed.

(** X16. For a file that is no valid UTF-8, [parse_txt] returns the
    Windows-1251 reading unless the file holds the byte 0x98, the one
    byte Windows-1251 does not assign; only then it falls back to
    Latin-1. *)
Theorem X16_latin_1_is_used_only_for_byte_0x98 (f : file) :
  Codecs.decode Codecs.utf_8 (bytes f) = None ->
  if bool_decide (x98 ∈ bytes f)
  then Codecs.decode Codecs.cp1251 (bytes f) = None
       /\ parse_txt f =
            if extract_fails (io f) then Raise OSError
            else Ok (Codecs.newlines (map Byte.to_N (bytes f)))
  else exists s, Codecs.decode Codecs.cp1251 (bytes f) = Some s
                 /\ parse_txt f =
                      if extract_fails (io f) then Raise OSError
                      else Ok (Codecs.newlines s).
Proof.
  intros H8. case_bool_decide as H98.
  - apply cp1251_decode_None in H98. split; [done |].
    apply (parse_txt_from_first _ [Codecs.utf_8; Codecs.cp1251] [] Codecs.latin_1);
      [done | by repeat constructor | done].
  - destruct (Codecs.decode Codecs.cp1251 (bytes f)) as [s|] eqn:H1251;
      [| by apply cp1251_decode_None in H1251].
    exists s. split; [done |].
    apply (parse_txt_from_first _ [Codecs.utf_8] [Codecs.latin_1] Codecs.cp1251);
      [done | by repeat constructor | done].
Qed.

Lemma X16_latin_1_is_used_only_for_byte_0x98_witness :
  (exists s, Codecs.decode Codecs.cp1251 (bytes cyrillic_txt) = Some s
             /\ parse_txt cyrillic_txt = Ok (Codecs.newlines s))
  /\ Codecs.decode Codecs.cp1251 (bytes binary_txt) = None
  /\ parse_txt binary_txt = Ok (Codecs.newlines (map Byte.to_N (bytes binary_txt))).
Proof.
  split.
  - exact (X16_latin_1_is_used_only_for_byte_0x98 cyrillic_txt eq_refl).
  - exact (X16_latin_1_is_used_only_for_byte_0x98 binary_txt eq_refl).
Defined.

Lemma newlines_other (c : N) (s : pystr) :
  c <> 13%N -> Codecs.newlines (c :: s) = c :: Codecs.newlines s.
Proof.
  intros H. destruct c as [|p]; [reflexivity |].
  do 4 (try destruct p as [p|p|]); try reflexivity; congruence.
Qed.

Lemma newlines_cr (s : pystr) :
  head s <> Some 10%N -> Codecs.newlines (13%N :: s) = 10%N :: Codecs.newlines s.
Proof.
  destruct s as [|c s]; [reflexivity |]. cbn [head]. intros H.
  destruct c as [|p]; [reflexivity |].
  do 4 (try destruct p as [p|p|]); try reflexivity; congruence.
Qed.

Lemma newlines_cr_lf (s : pystr) :
  Codecs.newlines (13 :: 10 :: s)%N = 10%N :: Codecs.newlines s.
Proof. reflexivity. Qed.

(** The reader of a text file does what [read_as] says. *)
Lemma newlines_read_as (s : pystr) : read_as s (Codecs.newlines s).
Proof.
  induction s as [|c s IH]; [constructor |].
  destruct (decide (c = 13%N)) as [-> | Hc].
  - destruct (decide (head s = Some 10%N)) as [Hs | Hs].
    + destruct s as [|c' s]; [discriminate |]. injection Hs as ->.
      rewrite newlines_cr_lf. constructor.
      rewrite newlines_other in IH by done.
      inversion IH; subst; done.
    + rewrite newlines_cr by done. by constructor.
  - rewrite newlines_other by done. by constructor.
Qed.

Lemma read_as_no_cr (d s : pystr) : read_as d s -> 13%N ∉ s.
Proof.
  induction 1 as [|d s _ IH|d s _ _ IH|c d s Hc _ IH];
    [by intros ?%elem_of_nil | | |];
    intros [? | ?]%elem_of_cons; done.
Qed.

Lemma read_as_same (d s : pystr) : read_as d s -> 13%N ∉ d -> s = d.
Proof.
  induction 1 as [|d s _ IH|d s _ _ IH|c d s Hc _ IH]; intros Hd.
  - reflexivity.
  - exfalso. apply Hd. by left.
  - exfalso. apply Hd. by left.
  - f_equal. apply IH. intros ?. apply Hd. by right.
Qed.

(** Every character read is a character of the file or a line feed. *)
Lemma read_as_elem (d s : pystr) (c : N) :
  read_as d s -> c ∈ s -> c ∈ d \/ c = 10%N.
Proof.
  induction 1 as [|d s _ IH|d s _ _ IH|c' d s Hc _ IH].
  - by intros ?%elem_of_nil.
  - intros [-> | Hin]%elem_of_cons; [by right |].
    destruct (IH Hin) as [? | ?]; [left; by do 2 right | by right].
  - intros [-> | Hin]%elem_of_cons; [by right |].
    destruct (IH Hin) as [? | ?]; [left; by right | by right].
  - intros [-> | Hin]%elem_of_cons; [left; by left |].
    destruct (IH Hin) as [? | ?]; [left; by right | by right].
Qed.

(** What is read determines nothing but the line ends: the text read
    is one for each decoded text. *)
Lemma read_as_functional (d s s' : pystr) : read_as d s -> read_as d s' -> s = s'.
Proof.
  intros H. revert s'.
  induction H as [|d s _ IH|d s Hd _ IH|c d s Hc _ IH]; intros s' H'.
  - by inversion H'.
  - inversion H' as [|d1 s1 H1|d1 s1 Hd1 H1|c1 d1 s1 Hc1 H1]; subst.
    + f_equal. by apply IH.
    + by destruct Hd1.
    + done.
  - inversion H' as [|d1 s1 H1|d1 s1 Hd1 H1|c1 d1 s1 Hc1 H1]; subst.
    + by destruct Hd.
    + f_equal. by apply IH.
    + done.
  - inversion H' as [|d1 s1 H1|d1 s1 Hd1 H1|c1 d1 s1 Hc1 H1]; subst;
      [done | done |]. f_equal. by apply IH.
Qed.

(** What [parse_txt] returns is a decoded text with its line ends
    read. *)
Lemma parse_txt_ok (f : file) (s : pystr) :
  parse_txt f = Ok s ->
  exists enc d, Codecs.decode enc (bytes f) = Some d /\ s = Codecs.newlines d.
Proof.
  unfold parse_txt, parse_txt_from, open_read.
  destruct (extract_fails (io f)); [discriminate |].
  destruct (Codecs.decode Codecs.utf_8 (bytes f)) as [d|] eqn:H8;
    [intros [= <-]; by exists Codecs.utf_8, d |].
  destruct (Codecs.decode Codecs.cp1251 (bytes f)) as [d|] eqn:H1251;
    [intros [= <-]; by exists Codecs.cp1251, d |].
  cbn. intros [= <-]. by exists Codecs.latin_1, (map Byte.to_N (bytes f)).
Qed.

(** X17. [parse_txt] reads every CR LF pair and every lone CR of the
    decoded text as one line feed and every other character as it is,
    in whichever encoding the file was decoded: the text it returns is
    the one text the decoded text is read as, it holds no carriage
    return, and it is the decoded text itself when that holds none. *)
Theorem X17_parse_txt_reads_line_ends_as_line_feeds (f : file) (s : pystr) :
  parse_txt f = Ok s ->
  (exists enc d,
     Codecs.decode enc (bytes f) = Some d
     /\ read_as d s
     /\ (forall s', read_as d s' -> s' = s)
     /\ (13%N ∉ d -> s = d))
  /\ 13%N ∉ s.
Proof.
  intros (enc & d & Hd & ->)%parse_txt_ok.
  pose proof (newlines_read_as d) as Hread.
  split; [| by eapply read_as_no_cr].
  exists enc, d. split_and!; [done | done | |].
  - intros s' Hs'. by eapply read_as_functional.
  - by apply read_as_same.
Qed.

Lemma X17_parse_txt_reads_line_ends_as_line_feeds_witness :
  (exists enc d,
     Codecs.decode enc (bytes mixed_line_ends_txt) = Some d
     /\ read_as d [97; 10; 98; 10; 99; 10; 10; 100; 10]%N
     /\ (forall s', read_as d s' -> s' = [97; 10; 98; 10; 99; 10; 10; 100; 10]%N)
     /\ (13%N ∉ d -> [97; 10; 98; 10; 99; 10; 10; 100; 10]%N = d))
  /\ 13%N ∉ [97; 10; 98; 10; 99; 10; 10; 100; 10]%N.
Proof.
  apply (X17_parse_txt_reads_line_ends_as_line_feeds mixed_line_ends_txt).
  reflexivity.
Defined.

(** ** More on hashing *)

(** X1. The fingerprint of a file that can be opened is the MD5
    digest of all its bytes, in order and each once: reading in chunks
    loses and repeats nothing, for the chunk size of the source and for
    any other positive size, also for the empty file and for a file
    whose size is a multiple of the chunk size. *)
Theorem X1_file_hash_digests_the_whole_file (f : file) (size : nat) :
  size <> 0 ->
  read_chunks size (S (length (bytes f))) (bytes f) Hashlib.md5 = bytes f
  /\ file_hash f =
       if hash_fails (io f) then Raise OSError else Ok (Hashlib.hexdigest (bytes f)).
Proof.
  intros Hsize. split; [| apply file_hash_digest].
  rewrite read_chunks_all by (done || lia). reflexivity.
Qed.

Lemma X1_file_hash_digests_the_whole_file_witness :
  let f := text_file "a.txt" "same content" in
  read_chunks 4 (S (length (bytes f))) (bytes f) Hashlib.md5 = bytes f
  /\ file_hash f =
       if hash_fails (io f) then Raise OSError else Ok (Hashlib.hexdigest (bytes f)).
Proof.
  apply (X1_file_hash_digests_the_whole_file (text_file "a.txt" "same content") 4).
  discriminate.
Defined.

(** ** The export *)

Lemma is_Some_None_inv {A} : ~ is_Some (@None A).
Proof. by intros [x Hx]. Qed.

(** Two UTF-8 sequences in a row are a UTF-8 sequence. *)
Lemma utf8_app (l1 l2 : list N) :
  is_Some (Codecs.utf8 l1) -> is_Some (Codecs.utf8 l2) -> is_Some (Codecs.utf8 (l1 ++ l2)).
Proof.
  intros H1 H2. remember (length l1) as n eqn:Hn. revert l1 Hn H1.
  induction n as [n IH] using lt_wf_ind. intros l1 Hn H1.
  destruct l1 as [|b0 r1]; [done |].
  cbn [app Codecs.utf8] in *. subst n.
  destruct (b0 <? 128)%N.
  { rewrite fmap_is_Some in *. eapply IH; [| reflexivity | done]. cbn. lia. }
  destruct r1 as [|b1 r2]; [by apply is_Some_None_inv in H1 |].
  cbn [app] in *.
  destruct ((194 <=? b0) && (b0 <=? 223) && Codecs.cont b1)%N.
  { rewrite fmap_is_Some in *. eapply IH; [| reflexivity | done]. cbn. lia. }
  destruct r2 as [|b2 r3]; [by apply is_Some_None_inv in H1 |].
  cbn [app] in *.
  destruct ((224 <=? b0) && (b0 <=? 239) && Codecs.cont b1 && Codecs.cont b2
            && negb ((b0 =? 224) && (b1 <? 160))
            && negb ((b0 =? 237) && (160 <=? b1)))%N.
  { rewrite fmap_is_Some in *. eapply IH; [| reflexivity | done]. cbn. lia. }
  destruct r3 as [|b3 r4]; [by apply is_Some_None_inv in H1 |].
  cbn [app] in *.
  destruct ((240 <=? b0) && (b0 <=? 244) && Codecs.cont b1 && Codecs.cont b2
            && Codecs.cont b3
            && negb ((b0 =? 240) && (b1 <? 144))
            && negb ((b0 =? 244) && (144 <=? b1)))%N;
    [| by apply is_Some_None_inv in H1].
  rewrite fmap_is_Some in *. eapply IH; [| reflexivity | done]. cbn. lia.
Qed.

Lemma clean_text_cons (c : N) (s : pystr) :
  clean_text (c :: s) = negb (surrogate c) && clean_text s.
Proof. reflexivity. Qed.

(** The strict decoder never delivers a surrogate. *)
Lemma utf8_clean (bs : list N) (s : pystr) :
  Codecs.utf8 bs = Some s -> clean_text s = true.
Proof.
  remember (length bs) as n eqn:Hn. revert bs s Hn.
  induction n as [n IH] using lt_wf_ind. intros bs s Hn.
  destruct bs as [|b0 r1]; [by intros [= <-] |].
  cbn [Codecs.utf8]. subst n.
  assert (Hstep : forall (c : N) (r : list N),
            length r < length (b0 :: r1) -> surrogate c = false ->
            cons c <$> Codecs.utf8 r = Some s -> clean_text s = true).
  { intros c r Hr Hc Hs. destruct (Codecs.utf8 r) as [s'|] eqn:Hs'; [| discriminate].
    injection Hs as <-. rewrite clean_text_cons, Hc. cbn.
    by eapply IH; [exact Hr | reflexivity |]. }
  unfold Codecs.cont, Codecs.low6, surrogate in *.
  destruct (b0 <? 128)%N eqn:H0.
  { apply Hstep; [cbn; lia |]. apply N.ltb_lt in H0.
    apply andb_false_iff. left. apply N.leb_gt. lia. }
  destruct r1 as [|b1 r2]; [discriminate |].
  destruct ((194 <=? b0) && (b0 <=? 223) && ((128 <=? b1) && (b1 <=? 191)))%N eqn:H2.
  { apply Hstep; [cbn; lia |].
    repeat match goal with
           | H : (_ && _) = true |- _ => apply andb_true_iff in H as [? ?]
           | H : (_ <=? _)%N = true |- _ => apply N.leb_le in H
           | H : negb _ = true |- _ => apply negb_true_iff in H
           end.
    apply andb_false_iff. left. apply N.leb_gt. lia. }
  destruct r2 as [|b2 r3]; [discriminate |].
  destruct ((224 <=? b0) && (b0 <=? 239) && ((128 <=? b1) && (b1 <=? 191))
            && ((128 <=? b2) && (b2 <=? 191))
            && negb ((b0 =? 224) && (b1 <? 160))
            && negb ((b0 =? 237) && (160 <=? b1)))%N eqn:H3.
  { apply Hstep; [cbn; lia |].
    repeat match goal with
           | H : (_ && _) = true |- _ => apply andb_true_iff in H as [? ?]
           | H : (_ <=? _)%N = true |- _ => apply N.leb_le in H
           | H : negb _ = true |- _ => apply negb_true_iff in H
           end.
    destruct (N.eq_dec b0 237%N) as [-> | Hb0].
    - match goal with
      | H : ((237 =? 237) && (160 <=? b1))%N = false |- _ =>
          cbn in H; apply N.leb_gt in H
      end.
      apply andb_false_iff. left. apply N.leb_gt. lia.
    - destruct (N.le_gt_cases b0 236%N).
      + apply andb_false_iff. left. apply N.leb_gt. lia.
      + apply andb_false_iff. right. apply N.leb_gt. lia. }
  destruct r3 as [|b3 r4]; [discriminate |].
  destruct ((240 <=? b0) && (b0 <=? 244) && ((128 <=? b1) && (b1 <=? 191))
            && ((128 <=? b2) && (b2 <=? 191)) && ((128 <=? b3) && (b3 <=? 191))
            && negb ((b0 =? 240) && (b1 <? 144))
            && negb ((b0 =? 244) && (144 <=? b1)))%N eqn:H4; [| discriminate].
  apply Hstep; [cbn; lia |].
  repeat match goal with
         | H : (_ && _) = true |- _ => apply andb_true_iff in H as [? ?]
         | H : (_ <=? _)%N = true |- _ => apply N.leb_le in H
         | H : negb _ = true |- _ => apply negb_true_iff in H
         end.
  apply andb_false_iff. right. apply N.leb_gt.
  destruct (N.eq_dec b0 240%N) as [-> | Hb0].
  - match goal with
    | H : ((240 =? 240) && (b1 <? 144))%N = false |- _ =>
        cbn in H; apply N.ltb_ge in H
    end. lia.
  - lia.
Qed.

Lemma clean_text_spec (s : pystr) :
  clean_text s = true <-> forall c, c ∈ s -> surrogate c = false.
Proof.
  unfold clean_text. rewrite forallb_forall. split.
  - intros H c Hc. apply negb_true_iff, H. by apply list_elem_of_In.
  - intros H c Hc. apply negb_true_iff, H. by apply list_elem_of_In.
Qed.

Lemma clean_text_app (s t : pystr) :
  clean_text (s ++ t)%list = clean_text s && clean_text t.
Proof. apply forallb_app. Qed.

Lemma newlines_clean (s : pystr) : clean_text s = true -> clean_text (Codecs.newlines s) = true.
Proof.
  rewrite !clean_text_spec. intros H c Hc.
  destruct (read_as_elem _ _ c (newlines_read_as s) Hc) as [? | ->]; [by apply H | reflexivity].
Qed.

Lemma lstrip_elem (s : pystr) (c : N) : c ∈ Str.lstrip s -> c ∈ s.
Proof.
  induction s as [|c' s IH]; [done |]. cbn [Str.lstrip].
  destruct (Str.isspace c'); [| done]. intros H. right. by apply IH.
Qed.

Lemma strip_elem (s : pystr) (c : N) : c ∈ Str.strip s -> c ∈ s.
Proof.
  unfold Str.strip, Str.rstrip. rewrite !list_elem_of_In, <- in_rev, <- !list_elem_of_In.
  intros H%lstrip_elem. apply list_elem_of_In, in_rev, list_elem_of_In in H.
  by apply lstrip_elem.
Qed.

Lemma strip_clean (s : pystr) : clean_text s = true -> clean_text (Str.strip s) = true.
Proof.
  rewrite !clean_text_spec. intros H c Hc. by apply H, strip_elem.
Qed.

Lemma join_clean (sep : pystr) (parts : list pystr) :
  clean_text sep = true -> forallb clean_text parts = true ->
  clean_text (Str.join sep parts) = true.
Proof.
  intros Hsep. induction parts as [|p parts IH]; [done |].
  cbn [forallb]. intros [Hp Hparts]%andb_true_iff.
  destruct parts as [|q parts]; [done |].
  change (Str.join sep (p :: q :: parts)) with (p ++ sep ++ Str.join sep (q :: parts))%list.
  rewrite !clean_text_app, Hp, Hsep. cbn. by apply IH.
Qed.

Lemma forallb_filter_true {A} (p q : A -> bool) (l : list A) :
  forallb p l = true -> forallb p (List.filter q l) = true.
Proof.
  rewrite !forallb_forall. intros H x [Hx _]%List.filter_In. by apply H.
Qed.

Lemma cp1251_char_clean (b c : N) : Codecs.cp1251_char b = Some c -> surrogate c = false.
Proof.
  unfold Codecs.cp1251_char. destruct (b <? 128)%N eqn:Hb.
  - intros [= <-]. apply N.ltb_lt in Hb. unfold surrogate.
    apply andb_false_iff. left. apply N.leb_gt. lia.
  - assert (Htable : forallb (fun o : option N =>
                                match o with
                                | Some c => negb (surrogate c)
                                | None => true
                                end) Codecs.cp1251_high = true) by reflexivity.
    rewrite forallb_forall in Htable.
    destruct (Codecs.cp1251_high !! N.to_nat (b - 128)) as [o|] eqn:Ho; [| discriminate].
    cbn. intros ->. apply list_elem_of_lookup_2, list_elem_of_In, Htable in Ho.
    by apply negb_true_iff.
Qed.

Lemma decode_clean (enc : Codecs.encoding) (bs : list byte) (s : pystr) :
  Codecs.decode enc bs = Some s -> clean_text s = true.
Proof.
  destruct enc; cbn [Codecs.decode].
  - apply utf8_clean.
  - intros H. apply clean_text_spec. intros c Hc.
    apply mapM_Some in H.
    apply list_elem_of_lookup in Hc as [i Hi].
    destruct (Forall2_lookup_r _ _ _ _ _ H Hi) as (b & _ & Hb).
    by eapply cp1251_char_clean.
  - intros [= <-]. apply clean_text_spec. intros c (b & -> & _)%elem_of_map.
    pose proof (Byte.to_N_bounded b). unfold surrogate.
    apply andb_false_iff. left. apply N.leb_gt. lia.
Qed.

Lemma to_N_byte_of_ascii (a : ascii) : Byte.to_N (byte_of_ascii a) = N_of_ascii a.
Proof. apply Byte.to_of_N. symmetry. apply byte_of_ascii_via_N. Qed.

Lemma path_bytes_app (a b : string) :
  map Byte.to_N (list_byte_of_string (a ++ b))
  = (map Byte.to_N (list_byte_of_string a) ++ map Byte.to_N (list_byte_of_string b))%list.
Proof.
  induction a as [|c a IH]; [reflexivity |].
  change (String c a ++ b) with (String c (a ++ b)).
  unfold list_byte_of_string in *. cbn [list_ascii_of_string map]. by rewrite IH.
Qed.

Lemma utf8_path_spec (s : string) :
  utf8_path s = true <-> is_Some (Codecs.utf8 (map Byte.to_N (list_byte_of_string s))).
Proof.
  unfold utf8_path. destruct (Codecs.utf8 _); split; done.
Qed.

Lemma utf8_path_app (a b : string) :
  utf8_path a = true -> utf8_path b = true -> utf8_path (a ++ b) = true.
Proof.
  rewrite !utf8_path_spec, path_bytes_app. apply utf8_app.
Qed.

Lemma utf8_path_join (a p : string) :
  utf8_path a = true -> utf8_path p = true -> utf8_path (Path.join a p) = true.
Proof.
  intros Ha Hp. unfold Path.join.
  destruct (Path.startswith Path.sep p); [done |].
  destruct (bool_decide (a = "") || Path.endswith Path.sep a).
  - by apply utf8_path_app.
  - apply utf8_path_app; [done |].
    change (String Path.sep p) with ("/" ++ p). by apply utf8_path_app.
Qed.

Lemma hex_digit_ascii (d : Z) :
  (0 <= d < 16)%Z -> (N_of_ascii (Hashlib.hex_digit d) <? 128)%N = true.
Proof.
  intros H. replace d with (Z.of_nat (Z.to_nat d)) by lia.
  assert (Hn : Z.to_nat d < 16) by lia. revert Hn. generalize (Z.to_nat d). intros n Hn.
  do 16 (destruct n as [|n]; [reflexivity |]). lia.
Qed.

Lemma hex_ascii (bs : list Z) :
  Forall (fun b => 0 <= b < 256)%Z bs ->
  forallb (fun b => (b <? 128)%N) (map Byte.to_N (list_byte_of_string (Hashlib.hex bs))) = true.
Proof.
  induction 1 as [|b bs Hb _ IH]; [reflexivity |].
  cbn [Hashlib.hex]. unfold list_byte_of_string in *.
  cbn [list_ascii_of_string map forallb]. rewrite !to_N_byte_of_ascii.
  rewrite !hex_digit_ascii; [exact IH | |].
  - apply Z.mod_pos_bound. lia.
  - split; [apply Z.div_pos; lia | apply Z.div_lt_upper_bound; lia].
Qed.

Lemma le_bytes_bounded (n : nat) (x : Z) :
  Forall (fun b => 0 <= b < 256)%Z (Hashlib.le_bytes n x).
Proof.
  unfold Hashlib.le_bytes. apply Forall_forall. intros b (i & -> & _)%elem_of_map.
  apply Z.mod_pos_bound. lia.
Qed.

(** A fingerprint is written with ASCII characters. *)
Lemma hexdigest_utf8 (h : list byte) : utf8_path (Hashlib.hexdigest h) = true.
Proof.
  unfold utf8_path, Hashlib.hexdigest, Hashlib.digest.
  destruct (Hashlib.blocks _ _ _) as [[[a b] c] d].
  rewrite utf8_ascii; [done |]. apply hex_ascii.
  rewrite !Forall_app. split_and!; apply le_bytes_bounded.
Qed.

Lemma record_encodable_spec (r : Doc.t) :
  record_encodable r = true <->
  utf8_path (Doc.file_path r) = true /\ utf8_path (Doc.file_name r) = true
  /\ utf8_path (Doc.extension r) = true /\ utf8_path (Doc.modified_at r) = true
  /\ utf8_path (Doc.source_archive r) = true /\ clean_text (Doc.content r) = true
  /\ utf8_path (Doc.file_hash r) = true.
Proof.
  unfold record_encodable, csv_row. cbn [forallb encodable]. fold (clean_text (Doc.content r)).
  rewrite !andb_true_iff. tauto.
Qed.

Lemma set_source_archive_encodable (label : string) (r : Doc.t) :
  utf8_path label = true -> record_encodable r = true ->
  record_encodable (Doc.set_source_archive label r) = true.
Proof.
  rewrite !record_encodable_spec. destruct r. cbn. tauto.
Qed.

(** The six registered extensions are ASCII. *)
Lemma extension_utf8 (env : capabilities) (ext : string) :
  ext ∈ dom (PARSERS env) -> utf8_path (Path.lstrip_dot ext) = true.
Proof.
  rewrite dom_PARSERS. intros H.
  assert (Hcases : ext = ".txt" \/ ext = ".docx" \/ ext = ".xlsx" \/ ext = ".xls"
                   \/ ext = ".pdf" \/ ext = ".csv") by set_solver.
  destruct Hcases as [-> | [-> | [-> | [-> | [-> | ->]]]]]; reflexivity.
Qed.

(** What [parse_txt] reads can be written as UTF-8, whatever the bytes
    of the file are. *)
Lemma parse_txt_clean (f : file) (s : pystr) : parse_txt f = Ok s -> clean_text s = true.
Proof.
  intros (enc & d & Hd & ->)%parse_txt_ok. by eapply newlines_clean, decode_clean.
Qed.

Lemma parse_docx_clean (env : capabilities) (f : file) (s : pystr) :
  clean_format (fmt f) = true -> parse_docx env f = Ok s -> clean_text s = true.
Proof.
  unfold parse_docx, docx_Document.
  destruct (HAS_DOCX env); cbn; [| by intros _ [= <-]].
  destruct (extract_fails (io f)); cbn; [by intros _ [= <-] |].
  destruct (fmt f); cbn; try (by intros _ [= <-]).
  intros Hc [= <-]. apply join_clean; [reflexivity |]. by apply forallb_filter_true.
Qed.

Lemma parse_pdf_clean (env : capabilities) (f : file) (s : pystr) :
  clean_format (fmt f) = true -> parse_pdf env f = Ok s -> clean_text s = true.
Proof.
  unfold parse_pdf, pdf_pages.
  destruct (HAS_PDF env); cbn; [| by intros _ [= <-]].
  destruct (extract_fails (io f)); cbn; [by intros _ [= <-] |].
  destruct (fmt f); cbn; try (by intros _ [= <-]).
  intros Hc [= <-]. apply join_clean; [reflexivity |]. by apply forallb_filter_true.
Qed.

(** Every row [parse_xlsx] goes through is a row of a worksheet. *)
Lemma visited_rows_elem (wb : list (string * worksheet)) (row : list (option pystr)) :
  row ∈ visited_rows wb -> exists sh, sh ∈ wb /\ row ∈ sh.2.
Proof.
  unfold visited_rows. rewrite list_elem_of_In, in_concat.
  intros (ws & Hws & Hrow). apply in_map_iff in Hws as (t & <- & _).
  unfold first_titled in Hrow.
  destruct (List.find _ wb) as [sh|] eqn:Hfind; [| done].
  apply List.find_some in Hfind as [Hsh _].
  exists sh. by rewrite !list_elem_of_In.
Qed.

Lemma parse_xlsx_clean (env : capabilities) (f : file) (s : pystr) :
  clean_format (fmt f) = true -> parse_xlsx env f = Ok s -> clean_text s = true.
Proof.
  destruct (HAS_XLSX env) eqn:Hx;
    [| rewrite parse_xlsx_failed by auto; by intros _ [= <-]].
  destruct (extract_fails (io f)) eqn:Hio;
    [rewrite parse_xlsx_failed by auto; by intros _ [= <-] |].
  destruct (fmt f) as [|ps|sheets|pg| |] eqn:Hfmt;
    try (rewrite parse_xlsx_failed
           by (right; right; intros sh; rewrite Hfmt; discriminate);
         by intros _ [= <-]).
  rewrite (parse_xlsx_opened env f sheets) by done.
  cbn [clean_format]. intros Hc [= <-].
  apply join_clean; [reflexivity |]. apply forallb_filter_true.
  apply forallb_forall. intros line (row & <- & Hrow)%in_map_iff.
  apply list_elem_of_In, visited_rows_elem in Hrow as (sh & Hsh & Hrow).
  rewrite forallb_forall in Hc. apply list_elem_of_In, Hc in Hsh.
  rewrite forallb_forall in Hsh. apply list_elem_of_In, Hsh in Hrow.
  unfold row_str. by apply join_clean.
Qed.

Lemma extract_text_clean (env : capabilities) (filepath : string) (f : file)
    (text : pystr) :
  clean_format (fmt f) = true ->
  extract_text env filepath f = Ok (Some text) -> clean_text text = true.
Proof.
  intros Hc. unfold extract_text.
  destruct (PARSERS_lookup env) as (Htxt & Hdocx & Hxlsx & Hxls & Hpdf & Hcsv).
  set (ext := Path.lower (Path.suffix filepath)).
  destruct (PARSERS env !! ext) as [parser|] eqn:Hp; [| discriminate].
  assert (Hdom : ext ∈ dom (PARSERS env)) by (apply elem_of_dom; by eexists).
  rewrite dom_PARSERS in Hdom.
  assert (Hcases : ext = ".txt" \/ ext = ".docx" \/ ext = ".xlsx" \/ ext = ".xls"
                   \/ ext = ".pdf" \/ ext = ".csv") by set_solver.
  destruct (parser f) as [s|e] eqn:Hparse; [| discriminate]. intros [= <-].
  destruct Hcases as [E | [E | [E | [E | [E | E]]]]]; rewrite E in Hp.
  - rewrite Htxt in Hp. injection Hp as <-. by eapply parse_txt_clean.
  - rewrite Hdocx in Hp. injection Hp as <-. by eapply parse_docx_clean.
  - rewrite Hxlsx in Hp. injection Hp as <-. by eapply parse_xlsx_clean.
  - rewrite Hxls in Hp. injection Hp as <-. by eapply parse_xlsx_clean.
  - rewrite Hpdf in Hp. injection Hp as <-. by eapply parse_pdf_clean.
  - rewrite Hcsv in Hp. injection Hp as <-. by eapply parse_txt_clean.
Qed.

Lemma clean_eq (f : file) :
  clean f = utf8_path (fname f) && clean_time (mtime f) && clean_format (fmt f)
            && tree_clean (members f).
Proof. by destruct f. Qed.

Lemma visit_encodable (env : capabilities) (label dirpath : string) (f : file)
    (st st' : crawl_state) :
  (forall path parent rs,
     utf8_path (label_of path parent) = true ->
     process_archive env path f parent = Ok rs ->
     Forall (fun r => record_encodable r = true) rs) ->
  utf8_path label = true -> utf8_path dirpath = true -> clean f = true ->
  Forall (fun r => record_encodable r = true) st.1 ->
  visit env (process_archive env) label dirpath f st = Ok st' ->
  Forall (fun r => record_encodable r = true) st'.1.
Proof.
  destruct st as [records seen], st' as [records' seen']. cbn [fst].
  intros Hsub Hlabel Hdir Hclean Hrec.
  rewrite clean_eq, !andb_true_iff in Hclean.
  destruct Hclean as [[[Hname Htime] Hfmt] _].
  assert (Hpath : utf8_path (Path.join dirpath (fname f)) = true)
    by (by apply utf8_path_join).
  destruct (decide (ext_of f ∈ SUPPORTED_EXTS env)) as [Hs | Hs];
    [| rewrite visit_unsupported by done; by intros [= <- <-]].
  destruct (decide (ext_of f ∈ ARCHIVE_EXTS)) as [Ha | Ha].
  - rewrite visit_archive by done.
    destruct (process_archive env _ f _) as [sub|e] eqn:Hpa; [| discriminate].
    cbn. intros [= <- <-]. apply Forall_app. split; [done |].
    eapply Hsub; [| exact Hpa]. by rewrite label_of_self.
  - rewrite visit_extractable by done. rewrite file_hash_digest.
    destruct (hash_fails (io f)); [by intros [= <- <-] |].
    case_bool_decide; [by intros [= <- <-] |].
    destruct (extract_text env _ f) as [[text|]|e] eqn:Hx; cbn;
      [| by intros [= <- <-] | discriminate].
    unfold os_stat. destruct (stat_fails (io f)); [discriminate |].
    cbn. destruct (mtime f) as [iso| | |]; try discriminate.
    cbn. intros [= <- <-]. apply Forall_app. split; [done |].
    apply Forall_singleton, record_encodable_spec. unfold record_of. cbn.
    split_and!; [done | done | | done | done | |].
    + apply (extension_utf8 env), elem_of_dom. by apply supported_non_archive_parsed.
    + eapply strip_clean, extract_text_clean; done.
    + apply hexdigest_utf8.
Qed.

Lemma tree_clean_elem (root : walk) (dirpath : string) (fs : list file) (f : file) :
  tree_clean root = true -> (dirpath, fs) ∈ root -> f ∈ fs ->
  utf8_path dirpath = true /\ clean f = true.
Proof.
  unfold tree_clean. rewrite forallb_forall. intros H Hd Hf.
  apply list_elem_of_In, H in Hd. cbn in Hd. apply andb_true_iff in Hd as [Hdir Hfs].
  rewrite forallb_forall in Hfs. apply list_elem_of_In, Hfs in Hf. done.
Qed.

Lemma crawl_encodable (env : capabilities) (root : walk) (label : string)
    (rs : list Doc.t) :
  Forall (fun d : string * list file =>
            Forall (fun f => clean f = true ->
                      forall path parent rs,
                        utf8_path (label_of path parent) = true ->
                        process_archive env path f parent = Ok rs ->
                        Forall (fun r => record_encodable r = true) rs) d.2) root ->
  tree_clean root = true -> utf8_path label = true ->
  crawl_directory env root label = Ok rs ->
  Forall (fun r => record_encodable r = true) rs.
Proof.
  intros Hsub Hclean Hlabel. unfold crawl_directory, crawl_directory_with.
  destruct (for_each _ root _) as [st|e] eqn:Hloop; [| discriminate].
  cbn. intros [= <-]. revert Hloop.
  apply (for_each_invariant _ (fun st => Forall (fun r => record_encodable r = true) st.1));
    [| constructor].
  intros [dirpath fs] s s' Hd Hs. cbn [fst snd].
  apply (for_each_invariant _ (fun st => Forall (fun r => record_encodable r = true) st.1));
    [| done].
  intros f t t' Hf Ht.
  destruct (tree_clean_elem _ _ _ _ Hclean Hd Hf) as [Hdir Hcf].
  apply visit_encodable; [| done | done | done | done].
  rewrite Forall_forall in Hsub. specialize (Hsub _ Hd).
  rewrite Forall_forall in Hsub. by apply Hsub.
Qed.

Lemma process_archive_encodable (env : capabilities) (f : file) :
  clean f = true ->
  forall path parent rs,
    utf8_path (label_of path parent) = true ->
    process_archive env path f parent = Ok rs ->
    Forall (fun r => record_encodable r = true) rs.
Proof.
  induction f as [f IH] using file_nested_ind. intros Hclean path parent rs Hlabel.
  rewrite process_archive_eq.
  destruct (unpack env path f) as [[t|e]|]; try (intros [= <-]; by constructor).
  cbn zeta.
  assert (Hmap : forall rs0,
             Forall (fun r => record_encodable r = true) rs0 ->
             Forall (fun r => record_encodable r = true)
                    (map (Doc.set_source_archive (label_of path parent)) rs0)).
  { intros rs0 H. apply Forall_forall. intros r (r0 & -> & Hr0)%elem_of_map.
    apply set_source_archive_encodable; [done |]. rewrite Forall_forall in H. by apply H. }
  destruct t.
  - destruct (crawl_directory env (members f) _) as [rs0|e] eqn:Hc; [| discriminate].
    cbn. intros [= <-]. apply Hmap. eapply crawl_encodable; [exact IH | | done | exact Hc].
    rewrite clean_eq, !andb_true_iff in Hclean. tauto.
  - rewrite crawl_directory_nil. cbn. intros [= <-]. constructor.
Qed.

(** The records of a clean tree can all be encoded. *)
Lemma crawl_of_clean_tree_encodable (env : capabilities) (root : walk) (label : string)
    (rs : list Doc.t) :
  tree_clean root = true -> utf8_path label = true ->
  crawl_directory env root label = Ok rs ->
  forallb record_encodable rs = true.
Proof.
  intros Hclean Hlabel Hc. apply forallb_forall. intros r Hr%list_elem_of_In.
  assert (H : Forall (fun r => record_encodable r = true) rs).
  { eapply crawl_encodable; [| done | done | exact Hc].
    apply Forall_forall. intros d _. apply Forall_forall.
    intros f _ Hf. by apply process_archive_encodable. }
  rewrite Forall_forall in H. by apply H.
Qed.

Lemma dict_to_list_csv_row (r : Doc.t) : dict_to_list r = csv_row r.
Proof. reflexivity. Qed.

Lemma writerow_record (r : Doc.t) (written : list (list value)) :
  writerow (dict_to_list r) written
  = if record_encodable r then Ok (written ++ [csv_row r])%list
    else Raise UnicodeEncodeError.
Proof. reflexivity. Qed.

(** The loop of the writer over the records. *)
Lemma writer_loop (rs : list Doc.t) (written : list (list value)) :
  for_each (fun r => writerow (dict_to_list r)) rs written
  = if forallb record_encodable rs then Ok (written ++ map csv_row rs)%list
    else Raise UnicodeEncodeError.
Proof.
  revert written. induction rs as [|r rs IH]; intros written.
  - cbn. by rewrite app_nil_r.
  - rewrite for_each_cons, writerow_record. cbn [forallb].
    destruct (record_encodable r); cbn; [| reflexivity].
    rewrite IH. destruct (forallb record_encodable rs); [| reflexivity].
    by rewrite <- app_assoc.
Qed.

Lemma save_csv_outcome (rs : list Doc.t) :
  save_csv rs = if forallb record_encodable rs
                then Ok (map VStr FIELDNAMES :: map csv_row rs)
                else Raise UnicodeEncodeError.
Proof.
  unfold save_csv.
  change (writerow (map VStr FIELDNAMES) []) with (Ok [map VStr FIELDNAMES]).
  cbn [mbind result_bind]. rewrite writer_loop.
  by destruct (forallb record_encodable rs).
Qed.

Lemma forallb_false_Exists {A} (p : A -> bool) (l : list A) :
  forallb p l = false <-> Exists (fun a => p a = false) l.
Proof.
  induction l as [|a l IH]; cbn.
  - split; [discriminate | by intros ?%Exists_nil].
  - rewrite Exists_cons, andb_false_iff. tauto.
Qed.

(** X13. [save_csv] writes the header and one row per record, or it
    raises [UnicodeEncodeError]; it raises exactly when some record
    holds a string that UTF-8 cannot encode.  For the records of a
    crawl, at any archive depth, that can only come from a file or
    directory name (or the label) that is no UTF-8, from a text a
    document library delivered with a lone surrogate, or from the
    rendered time: what [parse_txt] reads from a [.txt] or [.csv] file
    can always be written, whatever its bytes are, and so can the
    extension and the fingerprint. *)
Theorem X13_export_fails_only_on_unencodable_strings (env : capabilities) (root : walk)
    (label : string) (rs : list Doc.t) :
  crawl_directory env root label = Ok rs ->
  (tree_clean root = true -> utf8_path label = true ->
   save_csv rs = Ok (map VStr FIELDNAMES :: map csv_row rs))
  /\ (forall e, save_csv rs = Raise e ->
        e = UnicodeEncodeError
        /\ Exists (fun r => record_encodable r = false) rs
        /\ tree_clean root && utf8_path label = false)
  /\ (Exists (fun r => record_encodable r = false) rs ->
      save_csv rs = Raise UnicodeEncodeError).
Proof.
  intros Hc. rewrite save_csv_outcome. split_and!.
  - intros Hclean Hlabel. by rewrite (crawl_of_clean_tree_encodable _ _ _ _ Hclean Hlabel Hc).
  - intros e. destruct (forallb record_encodable rs) eqn:Henc; [discriminate |].
    intros [= <-]. split; [done |]. split; [by apply forallb_false_Exists |].
    apply not_true_iff_false. intros [Hclean Hlabel]%andb_true_iff.
    rewrite (crawl_of_clean_tree_encodable _ _ _ _ Hclean Hlabel Hc) in Henc. discriminate.
  - intros Hex%forallb_false_Exists. by rewrite Hex.
Qed.

Lemma X13_export_fails_only_on_unencodable_strings_witness :
  save_csv duplicated_records = Ok (map VStr FIELDNAMES :: map csv_row duplicated_records).
Proof.
  apply (proj1 (X13_export_fails_only_on_unencodable_strings all_libraries duplicated_root
                  "" duplicated_records eq_refl)).
  - reflexivity.
  - reflexivity.
Defined.

(** One file with a name that is no UTF-8 and the command ends with
    [UnicodeEncodeError], whatever else was found. *)
Example main_raises_on_a_badly_named_file :
  (exists rs, crawl_directory all_libraries
                [("storage", [text_file "a.txt" "fine"; badly_named_txt])] "" = Ok rs
              /\ length rs = 2)
  /\ main all_libraries [("storage", [text_file "a.txt" "fine"; badly_named_txt])] no_outputs
     = Raise UnicodeEncodeError.
Proof. split; [eexists; split; vm_compute; reflexivity | vm_compute; reflexivity]. Qed.

(** ** The command as a whole *)

(** X18. When [main] returns, either the crawl found no record and the
    outputs are untouched, or both outputs were written from the one
    record list of the crawl: the export could encode every record and
    holds the header and the row of every record, the store keeps the
    rows it had, in place, and holds the fingerprint of every
    record. *)
Theorem X18_main_writes_both_outputs_or_none (env : capabilities) (root : walk)
    (out out' : outputs) :
  main env root out = Ok out' ->
  (crawl_directory env root "" = Ok [] /\ out' = out)
  \/ exists rs db,
       crawl_directory env root "" = Ok rs /\ rs <> []
       /\ save_csv rs = Ok (map VStr FIELDNAMES :: map csv_row rs)
       /\ csv_file out' = Some (map VStr FIELDNAMES :: map csv_row rs)
       /\ db_file out' = Some db
       /\ Sqlite.documents (default Sqlite.created (db_file out))
            `prefix_of` Sqlite.documents db
       /\ Forall (fun r => Doc.file_hash r ∈ Sqlite.hashes db) rs.
Proof.
  unfold main. destruct (crawl_directory env root "") as [rs|e]; [| discriminate].
  cbn [mbind result_bind]. destruct rs as [|r rs].
  - intros [= <-]. by left.
  - rewrite save_csv_outcome.
    destruct (forallb record_encodable (r :: rs)) eqn:Henc; [| discriminate].
    intros [= <-]. right.
    exists (r :: rs), (Sqlite.load_to_sqlite (r :: rs) (db_file out)).1.
    cbn [csv_file db_file].
    destruct (load_loop (r :: rs) (default Sqlite.created (db_file out)) 0)
      as (new & Hdocs & _ & _ & _ & Hall). cbn zeta in Hdocs, Hall.
    split_and!; [done | done | by rewrite save_csv_outcome, Henc | done | done | |].
    + rewrite load_documents, Hdocs. by apply prefix_app_r.
    + apply Forall_forall. intros r' Hr'. unfold Sqlite.hashes.
      rewrite load_documents. by apply Hall.
Qed.

Lemma X18_main_writes_both_outputs_or_none_witness :
  (crawl_directory all_libraries duplicated_root "" = Ok [] /\ first_run_outputs = no_outputs)
  \/ exists rs db,
       crawl_directory all_libraries duplicated_root "" = Ok rs /\ rs <> []
       /\ save_csv rs = Ok (map VStr FIELDNAMES :: map csv_row rs)
       /\ csv_file first_run_outputs = Some (map VStr FIELDNAMES :: map csv_row rs)
       /\ db_file first_run_outputs = Some db
       /\ Sqlite.documents (default Sqlite.created (db_file no_outputs))
            `prefix_of` Sqlite.documents db
       /\ Forall (fun r => Doc.file_hash r ∈ Sqlite.hashes db) rs.
Proof.
  apply (X18_main_writes_both_outputs_or_none all_libraries duplicated_root no_outputs
           first_run_outputs).
  vm_compute. reflexivity.
Defined.

Example first_run_export_and_store :
  (length <$> csv_file first_run_outputs) = Some 3
  /\ (length ∘ Sqlite.documents <$> db_file first_run_outputs) = Some 1.
Proof. split; reflexivity. Qed.
